(** * SubTrack: the access-gated synchronization layer

    A shallow embedding of the Cloudflare worker ([cloudflare-worker.js]:
    session authenticator, data API handler, static content proxy, gateway
    router), of the client sync controller (the load and save effects of
    [App.tsx], with the calls they make to [dataService.ts]) and of the CSV
    import ([utils/csvParser.ts]), followed by the properties of the
    specification, proved or refuted on that embedding. *)

From Stdlib Require Import NArith ZArith Ascii String List Bool Lia.
From Stdlib Require Import SpecFloat.
From Stdlib Require DecimalN.
From stdpp Require Import base option list gmap strings.

Set Warnings "-register-all".
Local Open Scope N_scope.

(** ** JavaScript strings

    A JavaScript string is a sequence of UTF-16 code units.  [btoa] raises on
    a code unit above 255, so code units are kept as numbers rather than as
    8-bit characters. *)

Abbreviation jsstring := (list N).

Definition js (s : string) : jsstring :=
  List.map N_of_ascii (list_ascii_of_string s).

(** Single code units used as separators by the worker. *)
Definition ch_semicolon : N := 59.
Definition ch_equals : N := 61.
Definition ch_dot : N := 46.

Definition jsstring_eqb (a b : jsstring) : bool := bool_decide (a = b).

(** [String.prototype.startsWith]. *)
Fixpoint startsWith (s prefix : jsstring) : bool :=
  match prefix, s with
  | [], _ => true
  | _ :: _, [] => false
  | p :: prefix', c :: s' => (c =? p) && startsWith s' prefix'
  end.

(** [String.prototype.includes] for a one-code-unit needle. *)
Definition includes (s : jsstring) (c : N) : bool :=
  existsb (N.eqb c) s.

(** [String.prototype.split] for a one-code-unit separator: the result always
    has at least one piece, and the empty string splits into one empty piece. *)
Fixpoint split (sep : N) (s : jsstring) : list jsstring :=
  match s with
  | [] => [[]]
  | c :: s' =>
      if c =? sep then [] :: split sep s'
      else match split sep s' with
           | piece :: pieces => (c :: piece) :: pieces
           | [] => [[c]]
           end
  end.

(** [Array.prototype.join] for a one-code-unit separator. *)
Fixpoint join (sep : N) (pieces : list jsstring) : jsstring :=
  match pieces with
  | [] => []
  | [piece] => piece
  | piece :: pieces' => piece ++ sep :: join sep pieces'
  end.

(** ECMAScript [WhiteSpace] and [LineTerminator] code units, the ones
    [String.prototype.trim] removes. *)
Definition is_whitespace (c : N) : bool :=
  ((9 <=? c) && (c <=? 13)) || (c =? 32) || (c =? 160) || (c =? 5760)
  || ((8192 <=? c) && (c <=? 8202)) || (c =? 8232) || (c =? 8233)
  || (c =? 8239) || (c =? 8287) || (c =? 12288) || (c =? 65279).

Fixpoint trimStart (s : jsstring) : jsstring :=
  match s with
  | [] => []
  | c :: s' => if is_whitespace c then trimStart s' else s
  end.

Definition trimEnd (s : jsstring) : jsstring := rev (trimStart (rev s)).

Definition trim (s : jsstring) : jsstring := trimEnd (trimStart s).

(** Decimal rendering of a number inside a template literal. *)
Fixpoint digits_of_uint (d : Decimal.uint) : jsstring :=
  match d with
  | Decimal.Nil => []
  | Decimal.D0 d' => 48 :: digits_of_uint d'
  | Decimal.D1 d' => 49 :: digits_of_uint d'
  | Decimal.D2 d' => 50 :: digits_of_uint d'
  | Decimal.D3 d' => 51 :: digits_of_uint d'
  | Decimal.D4 d' => 52 :: digits_of_uint d'
  | Decimal.D5 d' => 53 :: digits_of_uint d'
  | Decimal.D6 d' => 54 :: digits_of_uint d'
  | Decimal.D7 d' => 55 :: digits_of_uint d'
  | Decimal.D8 d' => 56 :: digits_of_uint d'
  | Decimal.D9 d' => 57 :: digits_of_uint d'
  end.

Definition number_toString (n : N) : jsstring := digits_of_uint (N.to_uint n).

(** ASCII lower-casing, as the [Headers] class applies to header names. *)
Definition ascii_lower (c : N) : N :=
  if (65 <=? c) && (c <=? 90) then c + 32 else c.

Definition toLowerCase (s : jsstring) : jsstring := List.map ascii_lower s.

(** ** Exceptions

    A computation either returns or throws; the payload of [Throw] is the
    [message] of the exception. *)

Inductive Result (A : Type) : Type :=
  | Ok (a : A)
  | Throw (message : jsstring).
Arguments Ok {A} a.
Arguments Throw {A} message.

(** ** [btoa]: base64 of a binary string *)

Definition b64_alphabet : jsstring :=
  js "ABCDEFGHIJKLMNOPQRSTUVWXYZabcdefghijklmnopqrstuvwxyz0123456789+/".

Definition b64_pad : N := ch_equals.

Definition b64_char (sextet : N) : N :=
  nth (N.to_nat sextet) b64_alphabet b64_pad.

Fixpoint b64_encode (bytes : list N) : jsstring :=
  match bytes with
  | [] => []
  | [a] =>
      [b64_char (a / 4); b64_char ((a mod 4) * 16); b64_pad; b64_pad]
  | [a; b] =>
      [b64_char (a / 4); b64_char ((a mod 4) * 16 + b / 16);
       b64_char ((b mod 16) * 4); b64_pad]
  | a :: b :: c :: rest =>
      b64_char (a / 4) :: b64_char ((a mod 4) * 16 + b / 16)
      :: b64_char ((b mod 16) * 4 + c / 64) :: b64_char (c mod 64)
      :: b64_encode rest
  end.

(** [btoa] throws an [InvalidCharacterError] when a code unit does not fit in
    one byte. *)
Definition btoa (data : jsstring) : Result jsstring :=
  if forallb (fun c => c <=? 255) data then Ok (b64_encode data)
  else Throw (js "Invalid character").

(** Inverse of [b64_char] on the alphabet, and the decoder of [b64_encode];
    they serve the injectivity proof of [btoa] only. *)
Fixpoint b64_index_from (i : N) (alphabet : jsstring) (c : N) : N :=
  match alphabet with
  | [] => i
  | a :: alphabet' => if a =? c then i else b64_index_from (i + 1) alphabet' c
  end.

Definition b64_index (c : N) : N := b64_index_from 0 b64_alphabet c.

Fixpoint b64_decode (chars : jsstring) : list N :=
  match chars with
  | c1 :: c2 :: c3 :: c4 :: rest =>
      let s1 := b64_index c1 in
      let s2 := b64_index c2 in
      let s3 := b64_index c3 in
      let s4 := b64_index c4 in
      if c3 =? b64_pad then [s1 * 4 + s2 / 16]
      else if c4 =? b64_pad then [s1 * 4 + s2 / 16; (s2 mod 16) * 16 + s3 / 4]
      else s1 * 4 + s2 / 16 :: (s2 mod 16) * 16 + s3 / 4
           :: (s3 mod 4) * 64 + s4 :: b64_decode rest
  | _ => []
  end.

(** A code unit that passes through [parseCookies] untouched: no whitespace,
    no semicolon. *)
Definition cookie_safe (c : N) : Prop := is_whitespace c = false /\ c <> ch_semicolon.

(** ** JSON values

    The values [JSON.parse] produces.  A number is an IEEE double, kept as
    data ([spec_float]); no arithmetic is done on it.  An object is the list
    of its properties in enumeration order. *)

Inductive json : Type :=
  | JNull
  | JBool (b : bool)
  | JNum (n : spec_float)
  | JStr (s : jsstring)
  | JArr (items : list json)
  | JObj (props : list (jsstring * json)).

(** ToBoolean, as the [||] operator applies it. *)
Definition truthy (v : json) : bool :=
  match v with
  | JNull => false
  | JBool b => b
  | JNum (S754_zero _) | JNum S754_nan => false
  | JNum _ => true
  | JStr s => negb (jsstring_eqb s [])
  | JArr _ | JObj _ => true
  end.

(** [a || b] on JSON values. *)
Definition js_or (a b : json) : json := if truthy a then a else b.

(** The platform's [JSON.parse] and [JSON.stringify].  They are built-ins, not
    code of the repository, so the handlers are written against this
    interface. *)
Class JsonCodec : Type := {
  JSON_parse : jsstring -> Result json;
  JSON_stringify : json -> jsstring
}.

(** The empty-collections document [{ jobs: [], payments: [] }]. *)
Definition empty_dataset : json :=
  JObj [(js "jobs", JArr []); (js "payments", JArr [])].

(** [obj[key]] on the property list of an object. *)
Fixpoint get_prop (key : jsstring) (props : list (jsstring * json)) : option json :=
  match props with
  | [] => None
  | (k, v) :: props' => if jsstring_eqb k key then Some v else get_prop key props'
  end.

Definition is_array (v : option json) : bool :=
  match v with
  | Some (JArr _) => true
  | _ => false
  end.

(** A document of the shape [{jobs:[...], payments:[...]}]. *)
Definition dataset_shape (d : json) : bool :=
  match d with
  | JObj props =>
      is_array (get_prop (js "jobs") props)
      && is_array (get_prop (js "payments") props)
  | _ => false
  end.

(** ** The worker's world: requests, responses, the key-value store, the
    upstream origin *)

(** A [Headers] object: names compare case-insensitively. *)
Abbreviation Headers := (list (jsstring * jsstring)).

Definition header_named (name : jsstring) (h : jsstring * jsstring) : bool :=
  jsstring_eqb (toLowerCase (fst h)) (toLowerCase name).

(** [headers.get(name)]: [None] stands for [null]; several values of one name
    are combined with a comma and a space. *)
Fixpoint join_values (values : list jsstring) : jsstring :=
  match values with
  | [] => []
  | [v] => v
  | v :: values' => v ++ js ", " ++ join_values values'
  end.

Definition headers_get (name : jsstring) (hs : Headers) : option jsstring :=
  match List.filter (header_named name) hs with
  | [] => None
  | found => Some (join_values (List.map snd found))
  end.

Definition headers_delete (name : jsstring) (hs : Headers) : Headers :=
  List.filter (fun h => negb (header_named name h)) hs.

Definition headers_set (name value : jsstring) (hs : Headers) : Headers :=
  headers_delete name hs ++ [(toLowerCase name, value)].

(** [value || fallback] on a string that may be [null]. *)
Definition str_or (value : option jsstring) (fallback : jsstring) : jsstring :=
  match value with
  | Some (c :: s) => c :: s
  | _ => fallback
  end.

Record URL : Type := { pathname : jsstring }.

(** An incoming request.  [url] is [new URL(request.url)]; [formData] is the
    outcome of [request.formData()]: the form fields, or the exception the
    call raises on a body that is not a form. *)
Record Request : Type := {
  url : URL;
  method : jsstring;
  req_headers : Headers;
  req_body : jsstring;
  formData : Result (list (jsstring * jsstring))
}.

(** The body of a response.  [BodyLoginPage error] stands for the HTML
    template of [serveLoginPage], which depends on [error] only. *)
Inductive Body : Type :=
  | BodyNull
  | BodyText (text : jsstring)
  | BodyLoginPage (error : jsstring).

(** [headers] holds the headers the code sets in the [Response] initialiser;
    [status] defaults to 200. *)
Record Response : Type := {
  status : N;
  headers : Headers;
  body : Body
}.

(** [response.ok] *)
Definition ok (r : Response) : bool := (200 <=? status r) && (status r <=? 299).

(** The KV namespace bound as [env.SUBTRACK_DATA].  Every operation on an
    unavailable namespace throws. *)
Record KVNamespace : Type := {
  kv_available : bool;
  kv_entries : gmap jsstring jsstring
}.

(** The worker's configuration: [env.PASSWORD] is [None] when the variable is
    not set ([undefined]). *)
Record Env : Type := { PASSWORD : option jsstring }.

Record FetchRequest : Type := {
  fetch_url : jsstring;
  fetch_headers : Headers
}.

(** What a handler can touch: the store, and the upstream origin, which
    answers each subrequest knowing the ones made before it.  [fetched] logs
    the subrequests in order. *)
Record World : Type := {
  SUBTRACK_DATA : KVNamespace;
  upstream : list FetchRequest -> FetchRequest -> Result Response;
  fetched : list FetchRequest
}.

(** State and exceptions, threaded the way [async] code does. *)
Definition Worker (A : Type) : Type := World -> Result A * World.

#[export] Instance worker_ret : MRet Worker :=
  fun A (a : A) w => (Ok a, w).

#[export] Instance worker_bind : MBind Worker :=
  fun A B (k : A -> Worker B) (m : Worker A) w =>
    match m w with
    | (Ok a, w') => k a w'
    | (Throw e, w') => (Throw e, w')
    end.

Definition lift {A} (r : Result A) : Worker A := fun w => (r, w).

(** [try { m } catch (e) { handler e }] *)
Definition try_catch {A} (m : Worker A) (handler : jsstring -> Worker A) : Worker A :=
  fun w =>
    match m w with
    | (Ok a, w') => (Ok a, w')
    | (Throw e, w') => handler e w'
    end.

Definition kv_unavailable : jsstring := js "KV namespace unavailable".

(** [env.SUBTRACK_DATA.get(key, 'json')]: [null] for an absent key, the parsed
    text otherwise; throws when the text is not JSON. *)
Definition kv_get_json `{JsonCodec} (key : jsstring) : Worker json :=
  fun w =>
    if kv_available (SUBTRACK_DATA w) then
      match kv_entries (SUBTRACK_DATA w) !! key with
      | None => (Ok JNull, w)
      | Some text => (JSON_parse text, w)
      end
    else (Throw kv_unavailable, w).

(** [env.SUBTRACK_DATA.put(key, value)] *)
Definition kv_put (key value : jsstring) : Worker unit :=
  fun w =>
    if kv_available (SUBTRACK_DATA w) then
      (Ok tt,
       {| SUBTRACK_DATA :=
            {| kv_available := true;
               kv_entries := <[key := value]> (kv_entries (SUBTRACK_DATA w)) |};
          upstream := upstream w;
          fetched := fetched w |})
    else (Throw kv_unavailable, w).

(** The global [fetch]: a subrequest to the upstream origin. *)
Definition fetch_upstream (r : FetchRequest) : Worker Response :=
  fun w =>
    (upstream w (fetched w) r,
     {| SUBTRACK_DATA := SUBTRACK_DATA w;
        upstream := upstream w;
        fetched := fetched w ++ [r] |}).

(** Exceptions alone, for the code that touches neither the store nor the
    upstream. *)
#[export] Instance result_ret : MRet Result := fun A (a : A) => Ok a.

#[export] Instance result_bind : MBind Result :=
  fun A B (k : A -> Result B) (m : Result A) =>
    match m with
    | Ok a => k a
    | Throw e => Throw e
    end.

Definition result_catch {A} (m : Result A) (handler : jsstring -> Result A) : Result A :=
  match m with
  | Ok a => Ok a
  | Throw e => handler e
  end.

(** [new Response(body, { status, headers })].  The constructor rejects a
    status outside 200..599, and a body on a null-body status. *)
Definition null_body_status (s : N) : bool :=
  (s =? 101) || (s =? 204) || (s =? 205) || (s =? 304).

Definition new_Response (b : Body) (s : N) (hs : Headers) : Result Response :=
  if negb ((200 <=? s) && (s <=? 599)) then
    Throw (js "Responses may only be constructed with status codes in the range 200 to 599, inclusive.")
  else if null_body_status s && negb (match b with BodyNull => true | _ => false end) then
    Throw (js "Response with null body status cannot have body")
  else Ok {| status := s; headers := hs; body := b |}.

(** ** The worker ([cloudflare-worker.js]) *)

Definition COOKIE_NAME : jsstring := js "subtrack_auth".
Definition COOKIE_MAX_AGE : N := 60 * 60 * 24 * 30.
Definition GITHUB_ORIGIN : jsstring := js "https://panpapadopoulos.github.io".
Definition GITHUB_PATH : jsstring := js "/subtrack".

(** The cookie jar is a plain object, [{}]: the map holds its own properties.
    [cookies[n] = v] creates or overwrites the own property [n], except at
    the name [__proto__]: that assignment goes to the setter the object
    inherits from [Object.prototype], which ignores a value that is neither
    an object nor [null], so a string leaves the object as it is.  The only
    property ever read from the jar is [COOKIE_NAME], which
    [Object.prototype] does not have: the read is a lookup among the own
    properties. *)
Definition PROTO : jsstring := js "__proto__".

Definition set_property (n v : jsstring) (cookies : gmap jsstring jsstring)
  : gmap jsstring jsstring :=
  if jsstring_eqb n PROTO then cookies else <[n := v]> cookies.

Definition parseCookies (header : jsstring) : gmap jsstring jsstring :=
  match header with
  | [] => ∅
  | _ =>
      fold_left
        (fun cookies c =>
           match split ch_equals (trim c) with
           | (_ :: _) as n :: r => set_property n (join ch_equals r) cookies
           | _ => cookies
           end)
        (split ch_semicolon header) ∅
  end.

(** ToString of [env.PASSWORD], as [btoa] converts its argument: an unset
    variable is the string ["undefined"]. *)
Definition password_toString (p : option jsstring) : jsstring :=
  match p with
  | Some s => s
  | None => js "undefined"
  end.

Definition checkAuth (request : Request) (env : Env) : Result bool :=
  let cookies := parseCookies (str_or (headers_get (js "Cookie") (req_headers request)) []) in
  match cookies !! COOKIE_NAME with
  | None | Some [] => Ok false
  | Some authToken =>
      result_catch
        (expectedToken ← btoa (password_toString (PASSWORD env));
         Ok (jsstring_eqb authToken expectedToken))
        (fun _ => Ok false)
  end.

Definition serveLoginPage (error : jsstring) : Result Response :=
  new_Response (BodyLoginPage error) 200 [(js "Content-Type", js "text/html")].

(** [formData.get(name)]: the first field of that name, [None] for [null]. *)
Fixpoint formData_get (name : jsstring) (fields : list (jsstring * jsstring))
  : option jsstring :=
  match fields with
  | [] => None
  | (k, v) :: fields' =>
      if jsstring_eqb k name then Some v else formData_get name fields'
  end.

(** [password === env.PASSWORD]: [null] on the left and [undefined] on the
    right are not strictly equal. *)
Definition password_matches (password secret : option jsstring) : bool :=
  match password, secret with
  | Some p, Some s => jsstring_eqb p s
  | _, _ => false
  end.

Definition session_cookie (token : jsstring) : jsstring :=
  COOKIE_NAME ++ js "=" ++ token
  ++ js "; Path=/; HttpOnly; Secure; SameSite=Strict; Max-Age="
  ++ number_toString COOKIE_MAX_AGE.

Definition handleLogin (request : Request) (env : Env) (url : URL) : Result Response :=
  result_catch
    (fields ← formData request;
     let password := formData_get (js "password") fields in
     if password_matches password (PASSWORD env) then
       token ← btoa (password_toString (PASSWORD env));
       new_Response BodyNull 302
         [(js "Location", js "/"); (js "Set-Cookie", session_cookie token)]
     else serveLoginPage (js "Invalid password"))
    (fun message => serveLoginPage (js "Login failed: " ++ message)).

Definition handleLogout : Result Response :=
  new_Response BodyNull 302
    [(js "Location", js "/");
     (js "Set-Cookie",
      COOKIE_NAME ++ js "=; Path=/; HttpOnly; Secure; SameSite=Strict; Max-Age=0")].

Definition handleAPI `{JsonCodec} (request : Request) (env : Env) (url : URL)
  : Worker Response :=
  isAuthenticated ← lift (checkAuth request env);
  if negb isAuthenticated then
    lift (new_Response
            (BodyText (JSON_stringify (JObj [(js "error", JStr (js "Unauthorized"))])))
            401 [])
  else
    let not_found := lift (new_Response (BodyText (js "Not found")) 404 []) in
    if jsstring_eqb (pathname url) (js "/api/data") then
      if jsstring_eqb (method request) (js "GET") then
        data ← kv_get_json (js "user_data");
        lift (new_Response
                (BodyText (JSON_stringify (js_or data empty_dataset)))
                200 [(js "Content-Type", js "application/json")])
      else if jsstring_eqb (method request) (js "POST") then
        try_catch
          (data ← lift (JSON_parse (req_body request));
           kv_put (js "user_data") (JSON_stringify data);;
           lift (new_Response
                   (BodyText (JSON_stringify (JObj [(js "success", JBool true)])))
                   200 []))
          (fun message =>
             lift (new_Response
                     (BodyText (JSON_stringify (JObj [(js "error", JStr message)])))
                     400 []))
      else not_found
    else not_found.

Definition proxyToGitHub (request : Request) (url : URL) : Worker Response :=
  let path := pathname url in
  (* Normalize root path *)
  let path :=
    if jsstring_eqb path (js "/") || negb (includes path ch_dot)
    then js "/index.html" else path in
  let githubUrl := GITHUB_ORIGIN ++ GITHUB_PATH ++ path in
  (* [return fetch(...)] hands back a promise that is not awaited inside the
     [try]: the block yields the rest of the computation, which runs outside
     the [catch]. *)
  returned ← try_catch
    (response ← fetch_upstream
       {| fetch_url := githubUrl;
          fetch_headers :=
            [(js "Host", js "panpapadopoulos.github.io");
             (js "User-Agent", js "SubTrack-Pro-Worker");
             (js "Accept",
              str_or (headers_get (js "Accept") (req_headers request)) (js "*/*"))] |};
     if negb (ok response) then
       if (status response =? 404) && negb (includes path ch_dot) then
         mret (fetch_upstream
                 {| fetch_url := GITHUB_ORIGIN ++ GITHUB_PATH ++ js "/index.html";
                    fetch_headers := [(js "Host", js "panpapadopoulos.github.io")] |})
       else
         r ← lift (new_Response
                     (BodyText (js "Origin Error: " ++ number_toString (status response)
                                ++ js " for " ++ githubUrl))
                     (status response) [(js "Content-Type", js "text/plain")]);
         mret (mret r)
     else
       let newHeaders := headers response in
       let newHeaders := headers_delete (js "X-Frame-Options") newHeaders in
       let newHeaders := headers_delete (js "Content-Security-Policy") newHeaders in
       let newHeaders := headers_set (js "X-Proxied-By") (js "SubTrack-Proxy") newHeaders in
       r ← lift (new_Response (body response) (status response) newHeaders);
       mret (mret r))
    (fun message =>
       r ← lift (new_Response (BodyText (js "Worker Exception: " ++ message)) 502 []);
       mret (mret r));
  returned.

(** The worker's [fetch] handler: the gateway router. *)
Definition fetch `{JsonCodec} (request : Request) (env : Env) : Worker Response :=
  let url := url request in
  (* 1. API routes (KV Data storage) *)
  if startsWith (pathname url) (js "/api/") then handleAPI request env url
  (* 2. Auth handlers *)
  else if jsstring_eqb (pathname url) (js "/login")
          && jsstring_eqb (method request) (js "POST") then
    lift (handleLogin request env url)
  else if jsstring_eqb (pathname url) (js "/logout") then lift handleLogout
  else
    (* 3. Authentication Check *)
    isAuthenticated ← lift (checkAuth request env);
    if negb isAuthenticated then lift (serveLoginPage [])
    (* 4. Proxy content from GitHub Pages *)
    else proxyToGitHub request url.

(** The responses of the data API handler. *)
Definition unauthorized `{JsonCodec} : Response :=
  {| status := 401;
     headers := [];
     body := BodyText (JSON_stringify (JObj [(js "error", JStr (js "Unauthorized"))])) |}.

Definition not_found : Response :=
  {| status := 404; headers := []; body := BodyText (js "Not found") |}.

Definition bad_request `{JsonCodec} (message : jsstring) : Response :=
  {| status := 400;
     headers := [];
     body := BodyText (JSON_stringify (JObj [(js "error", JStr message)])) |}.

Definition success `{JsonCodec} : Response :=
  {| status := 200;
     headers := [];
     body := BodyText (JSON_stringify (JObj [(js "success", JBool true)])) |}.

Definition json_response `{JsonCodec} (v : json) : Response :=
  {| status := 200;
     headers := [(js "Content-Type", js "application/json")];
     body := BodyText (JSON_stringify v) |}.

(** [response.json()] on the client *)
Definition response_json `{JsonCodec} (r : Response) : Result json :=
  match body r with
  | BodyText text => JSON_parse text
  | _ => Throw (js "Unexpected end of JSON input")
  end.

(** ** A reference JSON codec

    An executable instance of [JsonCodec], used to run the handlers on
    concrete requests.  [stringify] writes the compact text [JSON.stringify]
    writes; a number is written as its exact decimal expansion.  [parse]
    reads JSON text whose number literals have no exponent part and either
    denote a double exactly or are at least [2^1024], beyond every double
    (those read as [Infinity]), and rejects the rest. *)
Module RefJson.

Definition hex_digit (d : N) : N := if d <? 10 then 48 + d else 87 + d.

Definition escape (c : N) : jsstring :=
  if c =? 34 then [92; 34]
  else if c =? 92 then [92; 92]
  else if c =? 8 then [92; 98]
  else if c =? 12 then [92; 102]
  else if c =? 10 then [92; 110]
  else if c =? 13 then [92; 114]
  else if c =? 9 then [92; 116]
  else if c <? 32 then [92; 117; 48; 48] ++ [hex_digit (c / 16); hex_digit (c mod 16)]
  else [c].

Definition quote (s : jsstring) : jsstring := 34 :: flat_map escape s ++ [34].

Fixpoint strip_zeros_rev (digits : jsstring) : jsstring :=
  match digits with
  | 48 :: digits' => strip_zeros_rev digits'
  | _ => digits
  end.

Definition fraction_digits (k : nat) (n : N) : jsstring :=
  let ds := number_toString n in
  let padded := repeat 48 (k - length ds)%nat ++ ds in
  rev (strip_zeros_rev (rev padded)).

Definition print_number (n : spec_float) : jsstring :=
  match n with
  | S754_zero _ => js "0"
  | S754_infinity _ | S754_nan => js "null"
  | S754_finite sign m e =>
      (if sign then js "-" else [])
      ++ match e with
         | Zneg k =>
             let d := 2 ^ Npos k in
             let whole := Npos m / d in
             let part := Npos m mod d in
             if part =? 0 then number_toString whole
             else number_toString whole ++ js "."
                  ++ fraction_digits (Pos.to_nat k) (part * 5 ^ Npos k)
         | _ => number_toString (Npos m * 2 ^ Z.to_N e)
         end
  end.

Definition commas (pieces : list jsstring) : jsstring := join 44 pieces.

Fixpoint stringify (v : json) : jsstring :=
  match v with
  | JNull => js "null"
  | JBool true => js "true"
  | JBool false => js "false"
  | JNum n => print_number n
  | JStr s => quote s
  | JArr items => js "[" ++ commas (List.map stringify items) ++ js "]"
  | JObj props =>
      js "{"
      ++ commas (List.map (fun kv => quote (fst kv) ++ js ":" ++ stringify (snd kv)) props)
      ++ js "}"
  end.

Definition is_ws (c : N) : bool := (c =? 32) || (c =? 9) || (c =? 10) || (c =? 13).

Fixpoint skip_ws (s : jsstring) : jsstring :=
  match s with
  | c :: s' => if is_ws c then skip_ws s' else s
  | [] => []
  end.

Definition hex_value (c : N) : option N :=
  if (48 <=? c) && (c <=? 57) then Some (c - 48)
  else if (97 <=? c) && (c <=? 102) then Some (c - 87)
  else if (65 <=? c) && (c <=? 70) then Some (c - 55)
  else None.

(** The characters of a string literal, after its opening quote. *)
Fixpoint parse_chars (s : jsstring) : option (jsstring * jsstring) :=
  match s with
  | [] => None
  | 34 :: rest => Some ([], rest)
  | 92 :: 117 :: h1 :: h2 :: h3 :: h4 :: rest =>
      match hex_value h1, hex_value h2, hex_value h3, hex_value h4, parse_chars rest with
      | Some a, Some b, Some c, Some d, Some (str, rest') =>
          Some (((a * 16 + b) * 16 + c) * 16 + d :: str, rest')
      | _, _, _, _, _ => None
      end
  | 92 :: e :: rest =>
      let unescaped :=
        if e =? 34 then Some 34 else if e =? 92 then Some 92
        else if e =? 47 then Some 47 else if e =? 98 then Some 8
        else if e =? 102 then Some 12 else if e =? 110 then Some 10
        else if e =? 114 then Some 13 else if e =? 116 then Some 9
        else None in
      match unescaped, parse_chars rest with
      | Some c, Some (str, rest') => Some (c :: str, rest')
      | _, _ => None
      end
  | c :: rest =>
      if (c <? 32) || (c =? 92) then None
      else match parse_chars rest with
           | Some (str, rest') => Some (c :: str, rest')
           | None => None
           end
  end.

Definition is_digit (c : N) : bool := (48 <=? c) && (c <=? 57).

Fixpoint span_digits (s : jsstring) : jsstring * jsstring :=
  match s with
  | c :: s' =>
      if is_digit c then let '(ds, rest) := span_digits s' in (c :: ds, rest)
      else ([], s)
  | [] => ([], [])
  end.

Definition digits_value (ds : jsstring) : N :=
  fold_left (fun acc c => acc * 10 + (c - 48)) ds 0.

(** The double [q * 2^e]: infinite when [q * 2^e] is [2^1024] or more, the
    number itself when [q] fits the 53-bit significand. *)
Definition double_of (sign : bool) (q : N) (e : Z) : option spec_float :=
  match q with
  | N0 => Some (S754_zero sign)
  | Npos p =>
      let bits := N.size q in
      if (1024 <? Z.of_N bits + e)%Z then Some (S754_infinity sign)
      else if 53 <? bits then None
      else
        let shift := 53 - bits in
        let e' := (e - Z.of_N shift)%Z in
        if (e' <? -1074)%Z then None
        else Some (S754_finite sign (Pos.shiftl p shift) e')
  end.

Definition parse_number (s : jsstring) : option (json * jsstring) :=
  let '(sign, s1) :=
    match s with
    | 45 :: s' => (true, s')
    | _ => (false, s)
    end in
  let '(whole, s2) := span_digits s1 in
  let well_formed :=
    match whole with
    | [] => false
    | [_] => true
    | 48 :: _ => false
    | _ => true
    end in
  if negb well_formed then None
  else
    match s2 with
    | 46 :: s3 =>
        let '(frac, s4) := span_digits s3 in
        match frac with
        | [] => None
        | _ =>
            let k := N.of_nat (length frac) in
            let numerator := digits_value (whole ++ frac) in
            if numerator mod 5 ^ k =? 0 then
              match double_of sign (numerator / 5 ^ k) (- Z.of_N k) with
              | Some d => Some (JNum d, s4)
              | None => None
              end
            else None
        end
    | _ =>
        match double_of sign (digits_value whole) 0 with
        | Some d => Some (JNum d, s2)
        | None => None
        end
    end.

Definition expect (c : N) (s : jsstring) : option jsstring :=
  match skip_ws s with
  | c' :: rest => if c' =? c then Some rest else None
  | [] => None
  end.

Fixpoint parse_value (fuel : nat) (s : jsstring) : option (json * jsstring) :=
  match fuel with
  | O => None
  | S fuel' =>
      let s := skip_ws s in
      if startsWith s (js "null") then Some (JNull, drop 4 s)
      else if startsWith s (js "true") then Some (JBool true, drop 4 s)
      else if startsWith s (js "false") then Some (JBool false, drop 5 s)
      else
        match s with
        | 34 :: rest =>
            match parse_chars rest with
            | Some (str, rest') => Some (JStr str, rest')
            | None => None
            end
        | 91 :: rest =>
            match expect 93 rest with
            | Some rest' => Some (JArr [], rest')
            | None =>
                match parse_elements fuel' rest with
                | Some (items, rest') => Some (JArr items, rest')
                | None => None
                end
            end
        | 123 :: rest =>
            match expect 125 rest with
            | Some rest' => Some (JObj [], rest')
            | None =>
                match parse_members fuel' rest with
                | Some (props, rest') => Some (JObj props, rest')
                | None => None
                end
            end
        | _ => parse_number s
        end
  end
with parse_elements (fuel : nat) (s : jsstring) : option (list json * jsstring) :=
  match fuel with
  | O => None
  | S fuel' =>
      match parse_value fuel' s with
      | Some (v, rest) =>
          match expect 93 rest with
          | Some rest' => Some ([v], rest')
          | None =>
              match expect 44 rest with
              | Some rest' =>
                  match parse_elements fuel' rest' with
                  | Some (vs, rest'') => Some (v :: vs, rest'')
                  | None => None
                  end
              | None => None
              end
          end
      | None => None
      end
  end
with parse_members (fuel : nat) (s : jsstring)
  : option (list (jsstring * json) * jsstring) :=
  match fuel with
  | O => None
  | S fuel' =>
      match expect 34 s with
      | Some rest =>
          match parse_chars rest with
          | Some (key, rest1) =>
              match expect 58 rest1 with
              | Some rest2 =>
                  match parse_value fuel' rest2 with
                  | Some (v, rest3) =>
                      match expect 125 rest3 with
                      | Some rest' => Some ([(key, v)], rest')
                      | None =>
                          match expect 44 rest3 with
                          | Some rest' =>
                              match parse_members fuel' rest' with
                              | Some (kvs, rest'') => Some ((key, v) :: kvs, rest'')
                              | None => None
                              end
                          | None => None
                          end
                      end
                  | None => None
                  end
              | None => None
              end
          | None => None
          end
      | None => None
      end
  end.

Definition parse (text : jsstring) : Result json :=
  match parse_value (S (length text)) text with
  | Some (v, rest) =>
      match skip_ws rest with
      | [] => Ok v
      | _ => Throw (js "Unexpected non-whitespace character after JSON")
      end
  | None => Throw (js "Unexpected token in JSON")
  end.

#[export] Instance codec : JsonCodec :=
  {| JSON_parse := parse; JSON_stringify := stringify |}.

End RefJson.

(** ** The client: records ([types.ts]) *)

Record Job : Type := {
  job_id : jsstring;
  job_date : jsstring;
  className : jsstring;
  teacher : jsstring;
  school : jsstring;
  job_town : jsstring;
  dayType : spec_float;
  fromTime : jsstring;
  toTime : jsstring;
  hours : spec_float
}.

Record Payment : Type := {
  payment_id : jsstring;
  payment_date : jsstring;
  payment_town : jsstring;
  amount : spec_float
}.

(** [AppData] of [dataService.ts]. *)
Record AppData : Type := {
  data_jobs : list Job;
  data_payments : list Payment
}.

(** What [fetchData] resolved to: a field the document lacks is [None]
    ([undefined]). *)
Record FetchedData : Type := {
  fetched_jobs : option (list Job);
  fetched_payments : option (list Payment)
}.

(** ** The client sync controller ([App.tsx])

    The component's state, the two refs, and the part of the browser the
    component talks to: the clock, the pending timers, and the calls made to
    [dataService].  An array held in state is a reference: React compares
    dependencies by identity, so each array carries the identity it was
    allocated with. *)

Record Arr (A : Type) : Type := { ref : nat; items : list A }.
Arguments ref {A} _.
Arguments items {A} _.

(** A pending [setTimeout] callback of [debouncedSave], with the arguments its
    closure captured. *)
Record Timer : Type := {
  timer_id : nat;
  due : nat;
  jobsToSave : list Job;
  paymentsToSave : list Payment
}.

Inductive NetCall : Type :=
  | FetchDataCall (at_ms : nat)
  | SaveDataCall (at_ms : nat) (data : AppData).

Record App : Type := {
  jobs : Arr Job;
  payments : Arr Payment;
  isLoading : bool;
  isSaving : bool;
  saveTimeoutRef : option nat;
  isInitialMount : bool;
  (* dependencies the save effect last ran with; [None] before the mount *)
  saveEffectDeps : option (nat * nat * bool);
  now : nat;
  timers : list Timer;
  nextTimerId : nat;
  nextRef : nat;
  network : list NetCall
}.

Definition DEBOUNCE_MS : nat := 500.

(** The state of [useState]/[useRef] before the first render. *)
Definition initial : App :=
  {| jobs := {| ref := 0; items := [] |};
     payments := {| ref := 1; items := [] |};
     isLoading := true;
     isSaving := false;
     saveTimeoutRef := None;
     isInitialMount := true;
     saveEffectDeps := None;
     now := 0;
     timers := [];
     nextTimerId := 1;
     nextRef := 2;
     network := [] |}.

Definition dataset (st : App) : AppData :=
  {| data_jobs := items (jobs st); data_payments := items (payments st) |}.

(** [setJobs(prev => f prev)]: the updaters of the component all build a new
    array. *)
Definition setJobs (f : list Job -> list Job) (st : App) : App :=
  {| jobs := {| ref := nextRef st; items := f (items (jobs st)) |};
     payments := payments st;
     isLoading := isLoading st;
     isSaving := isSaving st;
     saveTimeoutRef := saveTimeoutRef st;
     isInitialMount := isInitialMount st;
     saveEffectDeps := saveEffectDeps st;
     now := now st;
     timers := timers st;
     nextTimerId := nextTimerId st;
     nextRef := S (nextRef st);
     network := network st |}.

Definition setPayments (f : list Payment -> list Payment) (st : App) : App :=
  {| jobs := jobs st;
     payments := {| ref := nextRef st; items := f (items (payments st)) |};
     isLoading := isLoading st;
     isSaving := isSaving st;
     saveTimeoutRef := saveTimeoutRef st;
     isInitialMount := isInitialMount st;
     saveEffectDeps := saveEffectDeps st;
     now := now st;
     timers := timers st;
     nextTimerId := nextTimerId st;
     nextRef := S (nextRef st);
     network := network st |}.

Definition setIsLoading (b : bool) (st : App) : App :=
  {| jobs := jobs st;
     payments := payments st;
     isLoading := b;
     isSaving := isSaving st;
     saveTimeoutRef := saveTimeoutRef st;
     isInitialMount := isInitialMount st;
     saveEffectDeps := saveEffectDeps st;
     now := now st;
     timers := timers st;
     nextTimerId := nextTimerId st;
     nextRef := nextRef st;
     network := network st |}.

Definition setIsSaving (b : bool) (st : App) : App :=
  {| jobs := jobs st;
     payments := payments st;
     isLoading := isLoading st;
     isSaving := b;
     saveTimeoutRef := saveTimeoutRef st;
     isInitialMount := isInitialMount st;
     saveEffectDeps := saveEffectDeps st;
     now := now st;
     timers := timers st;
     nextTimerId := nextTimerId st;
     nextRef := nextRef st;
     network := network st |}.

(** [clearTimeout(id)] *)
Definition clearTimeout (id : nat) (st : App) : App :=
  {| jobs := jobs st;
     payments := payments st;
     isLoading := isLoading st;
     isSaving := isSaving st;
     saveTimeoutRef := saveTimeoutRef st;
     isInitialMount := isInitialMount st;
     saveEffectDeps := saveEffectDeps st;
     now := now st;
     timers := List.filter (fun t => negb (Nat.eqb (timer_id t) id)) (timers st);
     nextTimerId := nextTimerId st;
     nextRef := nextRef st;
     network := network st |}.

(** [saveTimeoutRef.current = setTimeout(callback, 500)], the callback having
    captured [jobsToSave] and [paymentsToSave]. *)
Definition setTimeout_save (jobsToSave : list Job) (paymentsToSave : list Payment)
    (st : App) : App :=
  {| jobs := jobs st;
     payments := payments st;
     isLoading := isLoading st;
     isSaving := isSaving st;
     saveTimeoutRef := Some (nextTimerId st);
     isInitialMount := isInitialMount st;
     saveEffectDeps := saveEffectDeps st;
     now := now st;
     timers := timers st
               ++ [{| timer_id := nextTimerId st;
                      due := (now st + DEBOUNCE_MS)%nat;
                      jobsToSave := jobsToSave;
                      paymentsToSave := paymentsToSave |}];
     nextTimerId := S (nextTimerId st);
     nextRef := nextRef st;
     network := network st |}.

(** Truthiness of [saveTimeoutRef.current]: [null] and the number 0 are
    falsy. *)
Definition debouncedSave (jobsToSave : list Job) (paymentsToSave : list Payment)
    (st : App) : App :=
  let st :=
    match saveTimeoutRef st with
    | Some (S id) => clearTimeout (S id) st
    | _ => st
    end in
  setTimeout_save jobsToSave paymentsToSave st.

Definition current_deps (st : App) : nat * nat * bool :=
  (ref (jobs st), ref (payments st), isLoading st).

Definition record_deps (st : App) : App :=
  {| jobs := jobs st;
     payments := payments st;
     isLoading := isLoading st;
     isSaving := isSaving st;
     saveTimeoutRef := saveTimeoutRef st;
     isInitialMount := isInitialMount st;
     saveEffectDeps := Some (current_deps st);
     now := now st;
     timers := timers st;
     nextTimerId := nextTimerId st;
     nextRef := nextRef st;
     network := network st |}.

(** [isInitialMount.current = b] *)
Definition set_isInitialMount (b : bool) (st : App) : App :=
  {| jobs := jobs st;
     payments := payments st;
     isLoading := isLoading st;
     isSaving := isSaving st;
     saveTimeoutRef := saveTimeoutRef st;
     isInitialMount := b;
     saveEffectDeps := saveEffectDeps st;
     now := now st;
     timers := timers st;
     nextTimerId := nextTimerId st;
     nextRef := nextRef st;
     network := network st |}.

(** The body of the effect "Save data when jobs or payments change". *)
Definition saveEffect (st : App) : App :=
  if isInitialMount st then set_isInitialMount false st
  else if negb (isLoading st) then
    debouncedSave (items (jobs st)) (items (payments st)) st
  else st.

(** After a render React runs the effect when one of [jobs], [payments],
    [isLoading] differs from the render the effect last ran in
    ([debouncedSave] is a [useCallback] with no dependencies and never
    changes). *)
Definition render (st : App) : App :=
  if decide (saveEffectDeps st = Some (current_deps st)) then st
  else saveEffect (record_deps st).

Definition call (c : NetCall) (st : App) : App :=
  {| jobs := jobs st;
     payments := payments st;
     isLoading := isLoading st;
     isSaving := isSaving st;
     saveTimeoutRef := saveTimeoutRef st;
     isInitialMount := isInitialMount st;
     saveEffectDeps := saveEffectDeps st;
     now := now st;
     timers := timers st;
     nextTimerId := nextTimerId st;
     nextRef := nextRef st;
     network := network st ++ [c] |}.

(** The first render: the load effect calls [fetchData], then the save effect
    runs for the first time. *)
Definition mount (st : App) : App :=
  match saveEffectDeps st with
  | Some _ => st
  | None => render (call (FetchDataCall (now st)) st)
  end.

Definition or_empty {A} (value : option (list A)) : list A :=
  match value with
  | Some l => l
  | None => []
  end.

(** The rest of [loadData] after [await fetchData()].  With automatic batching
    (React 18 and later) the three updates give one render; before, each
    update outside an event handler renders on its own. *)
Definition loadData_resolved (batching : bool) (data : FetchedData) (st : App) : App :=
  if batching then
    render (setIsLoading false
              (setPayments (fun _ => or_empty (fetched_payments data))
                 (setJobs (fun _ => or_empty (fetched_jobs data)) st)))
  else
    render (setIsLoading false
              (render (setPayments (fun _ => or_empty (fetched_payments data))
                         (render (setJobs (fun _ => or_empty (fetched_jobs data)) st))))).

(** An event handler that changes the dataset; its updates are batched into
    one render. *)
Inductive Mutation : Type :=
  | SetJobs (f : list Job -> list Job)
  | SetPayments (f : list Payment -> list Payment)
  | SetBoth (fj : list Job -> list Job) (fp : list Payment -> list Payment).

Definition apply_mutation (m : Mutation) (st : App) : App :=
  match m with
  | SetJobs f => setJobs f st
  | SetPayments f => setPayments f st
  | SetBoth fj fp => setPayments fp (setJobs fj st)
  end.

Definition mutate_data (m : Mutation) (d : AppData) : AppData :=
  match m with
  | SetJobs f => {| data_jobs := f (data_jobs d); data_payments := data_payments d |}
  | SetPayments f => {| data_jobs := data_jobs d; data_payments := f (data_payments d) |}
  | SetBoth fj fp => {| data_jobs := fj (data_jobs d); data_payments := fp (data_payments d) |}
  end.

(** The handlers of the component that change the dataset. *)
Definition handleImport (parsedJobs : list Job) (parsedPayments : list Payment) : Mutation :=
  SetBoth (fun prev => prev ++ parsedJobs) (fun prev => prev ++ parsedPayments).

Definition handleSaveJob (editingJob : option Job) (job : Job) : Mutation :=
  match editingJob with
  | Some _ =>
      SetJobs (fun prev =>
                 List.map (fun j => if jsstring_eqb (job_id j) (job_id job) then job else j) prev)
  | None => SetJobs (fun prev => job :: prev)
  end.

Definition handleSavePayment (editingPayment : option Payment) (payment : Payment)
  : Mutation :=
  match editingPayment with
  | Some _ =>
      SetPayments (fun prev =>
                     List.map (fun p =>
                                 if jsstring_eqb (payment_id p) (payment_id payment)
                                 then payment else p) prev)
  | None => SetPayments (fun prev => payment :: prev)
  end.

(** The handlers behind a [confirm] dialog.  [confirmed] is what [confirm]
    returned, the user's answer: on [true] the handler makes its update, on
    [false] it calls no setter, so the component is not rendered again and
    no event reaches it. *)
Definition deleteJob_confirmed (id : jsstring) : Mutation :=
  SetJobs (fun prev => List.filter (fun j => negb (jsstring_eqb (job_id j) id)) prev).

Definition deleteJob (confirmed : bool) (id : jsstring) : option Mutation :=
  if confirmed then Some (deleteJob_confirmed id) else None.

Definition deletePayment_confirmed (id : jsstring) : Mutation :=
  SetPayments (fun prev => List.filter (fun p => negb (jsstring_eqb (payment_id p) id)) prev).

Definition deletePayment (confirmed : bool) (id : jsstring) : option Mutation :=
  if confirmed then Some (deletePayment_confirmed id) else None.

Definition wipeAll_confirmed : Mutation := SetBoth (fun _ => []) (fun _ => []).

Definition wipeAll (confirmed : bool) : option Mutation :=
  if confirmed then Some wipeAll_confirmed else None.

(** What a handler that may make no update does to the dataset. *)
Definition handle_data (h : option Mutation) (d : AppData) : AppData :=
  match h with
  | Some m => mutate_data m d
  | None => d
  end.

(** The timer callback: [setIsSaving(true); await saveData({jobs, payments})]. *)
Definition save_call_of (t : Timer) : NetCall :=
  SaveDataCall (due t)
    {| data_jobs := jobsToSave t; data_payments := paymentsToSave t |}.

Definition is_due (deadline : nat) (t : Timer) : bool := Nat.leb (due t) deadline.

(** [ms] milliseconds pass: the timers that come due fire, each at its due
    time, in the order they were set.  The render that [setIsSaving(true)]
    causes leaves the save effect alone, [isSaving] not being one of its
    dependencies. *)
Definition advance (ms : nat) (st : App) : App :=
  let deadline := (now st + ms)%nat in
  let fired := List.filter (is_due deadline) (timers st) in
  {| jobs := jobs st;
     payments := payments st;
     isLoading := isLoading st;
     isSaving := match fired with [] => isSaving st | _ => true end;
     saveTimeoutRef := saveTimeoutRef st;
     isInitialMount := isInitialMount st;
     saveEffectDeps := saveEffectDeps st;
     now := deadline;
     timers := List.filter (fun t => negb (is_due deadline t)) (timers st);
     nextTimerId := nextTimerId st;
     nextRef := nextRef st;
     network := network st ++ List.map save_call_of fired |}.

Inductive Event : Type :=
  | Mount
  | LoadResolved (data : FetchedData)
  | Mutate (m : Mutation)
  | Rerender
  | Advance (ms : nat)
  | SaveSettled.

Definition mounted (st : App) : bool :=
  match saveEffectDeps st with
  | Some _ => true
  | None => false
  end.

(** One step of the component.  Nothing happens to a component that is not
    mounted, and [loadData] resumes once, while the component is loading. *)
Definition step (batching : bool) (e : Event) (st : App) : App :=
  match e with
  | Mount => mount st
  | Advance ms => advance ms st
  | LoadResolved data =>
      if mounted st && isLoading st then loadData_resolved batching data st else st
  | Mutate m => if mounted st then render (apply_mutation m st) else st
  | Rerender => if mounted st then render st else st
  | SaveSettled => if mounted st then render (setIsSaving false st) else st
  end.

Definition run (batching : bool) (events : list Event) (st : App) : App :=
  fold_left (fun st e => step batching e st) events st.

Inductive reachable (batching : bool) : App -> Prop :=
  | reachable_initial : reachable batching initial
  | reachable_step e st :
      reachable batching st -> reachable batching (step batching e st).

(** The calls to [saveData], in the order they were issued. *)
Definition saveDataCalls (st : App) : list (nat * AppData) :=
  omap (fun c => match c with
                 | SaveDataCall t d => Some (t, d)
                 | FetchDataCall _ => None
                 end) (network st).

(** A burst: each mutation is followed by a pause. *)
Definition burst_events (burst : list (Mutation * nat)) : list Event :=
  flat_map (fun mg => [Mutate (fst mg); Advance (snd mg)]) burst.

(** The dataset after a list of mutations, and the time a burst takes up to
    its last mutation. *)
Definition mutate_all (ms : list Mutation) (d : AppData) : AppData :=
  fold_left (fun d m => mutate_data m d) ms d.

Definition total_pause (burst : list (Mutation * nat)) : nat :=
  list_sum (List.map snd burst).

(** The timer [debouncedSave] leaves behind when called in state [st] with the
    dataset [d]. *)
Definition scheduled_save (st : App) (d : AppData) : Timer :=
  {| timer_id := nextTimerId st;
     due := (now st + DEBOUNCE_MS)%nat;
     jobsToSave := data_jobs d;
     paymentsToSave := data_payments d |}.

(** What every reachable state satisfies.  At most one timer is pending, and
    it is the one [saveTimeoutRef] names; timer identifiers are positive;
    the arrays in state were allocated before [nextRef]; before the mount the
    component is loading and nothing is scheduled. *)
Definition pending_ok (st : App) : Prop :=
  match timers st with
  | [] => True
  | [t] =>
      saveTimeoutRef st = Some (timer_id t)
      /\ (1 <= timer_id t)%nat /\ (now st < due t)%nat
  | _ => False
  end.

Definition well_formed (st : App) : Prop :=
  (1 <= nextTimerId st)%nat
  /\ pending_ok st
  /\ (ref (jobs st) < nextRef st)%nat
  /\ (ref (payments st) < nextRef st)%nat
  /\ match saveEffectDeps st with
     | None => isLoading st = true /\ isInitialMount st = true /\ timers st = []
     | Some _ => isInitialMount st = false
     end.

(** Between two steps the save effect has seen the current dependencies. *)
Definition consistent (st : App) : Prop :=
  well_formed st
  /\ (mounted st = true -> saveEffectDeps st = Some (current_deps st)).

(** ** Sample inputs *)

Definition sample_env : Env := {| PASSWORD := Some (js "secret") |}.

Definition sample_request (path verb : jsstring) (hs : Headers) (text : jsstring)
  : Request :=
  {| url := {| pathname := path |};
     method := verb;
     req_headers := hs;
     req_body := text;
     formData := Throw (js "Unrecognized Content-Type header value") |}.

(** The cookie a browser holds after logging in to [sample_env]. *)
Definition sample_cookie : Headers := [(js "Cookie", js "subtrack_auth=c2VjcmV0")].

Definition unreachable_upstream : list FetchRequest -> FetchRequest -> Result Response :=
  fun _ _ => Throw (js "Network connection lost.").

Definition sample_world (entries : gmap jsstring jsstring) : World :=
  {| SUBTRACK_DATA := {| kv_available := true; kv_entries := entries |};
     upstream := unreachable_upstream;
     fetched := [] |}.

Definition sample_job : Job :=
  {| job_id := js "job-1";
     job_date := js "2024-03-04";
     className := js "Algebra";
     teacher := js "Ms. Reed";
     school := js "Highland High";
     job_town := js "Highland";
     dayType := S754_finite false 4503599627370496 (-52);
     fromTime := js "08:00";
     toTime := js "15:30";
     hours := S754_finite false 8444249301319680 (-50) |}.

Definition sample_payment : Payment :=
  {| payment_id := js "pay-1";
     payment_date := js "2024-03-15";
     payment_town := js "Highland";
     amount := S754_finite false 5497558138880000 (-45) |}.

Definition sample_fetched : FetchedData :=
  {| fetched_jobs := Some [sample_job]; fetched_payments := Some [sample_payment] |}.

(** [{jobs: [{id: "job-1", hours: 7.5}], payments: []}] *)
Definition sample_document : json :=
  JObj [(js "jobs",
         JArr [JObj [(js "id", JStr (js "job-1"));
                     (js "hours", JNum (S754_finite false 8444249301319680 (-50)))]]);
        (js "payments", JArr [])].

(** A dataset as an import can leave it, with a [dayType] that is [NaN]:
    [{jobs: [{id: "job-1", dayType: NaN, hours: 7.5}], payments: []}], and
    the document as JSON text carries it, with [null] there. *)
Definition imported_document : json :=
  JObj [(js "jobs",
         JArr [JObj [(js "id", JStr (js "job-1"));
                     (js "dayType", JNum S754_nan);
                     (js "hours", JNum (S754_finite false 8444249301319680 (-50)))]]);
        (js "payments", JArr [])].

Definition imported_carried : json :=
  JObj [(js "jobs",
         JArr [JObj [(js "id", JStr (js "job-1"));
                     (js "dayType", JNull);
                     (js "hours", JNum (S754_finite false 8444249301319680 (-50)))]]);
        (js "payments", JArr [])].

(** A document JSON text cannot carry back: [{jobs: [{id: "job-1",
    dayType: -0, hours: Infinity}], payments: []}], what [JSON.parse] makes
    of the text [lossy_text], whose [hours] literal is [1] followed by 400
    zeros; and the document that comes back for it. *)
Definition lossy_document : json :=
  JObj [(js "jobs",
         JArr [JObj [(js "id", JStr (js "job-1"));
                     (js "dayType", JNum (S754_zero true));
                     (js "hours", JNum (S754_infinity false))]]);
        (js "payments", JArr [])].

Definition lossy_text : jsstring :=
  js "{" ++ RefJson.quote (js "jobs") ++ js ":[{"
  ++ RefJson.quote (js "id") ++ js ":" ++ RefJson.quote (js "job-1") ++ js ","
  ++ RefJson.quote (js "dayType") ++ js ":-0,"
  ++ RefJson.quote (js "hours") ++ js ":1" ++ repeat 48 400 ++ js "}],"
  ++ RefJson.quote (js "payments") ++ js ":[]}".

Definition lossy_returned : json :=
  JObj [(js "jobs",
         JArr [JObj [(js "id", JStr (js "job-1"));
                     (js "dayType", JNum (S754_zero false));
                     (js "hours", JNull)]]);
        (js "payments", JArr [])].

(** An upstream that has no page for the first subrequest it receives and
    serves the index document to any later one. *)
Definition index_page : Response :=
  {| status := 200;
     headers := [(js "Content-Type", js "text/html")];
     body := BodyText (js "<!DOCTYPE html><div id=root></div>") |}.

Definition missing_page : Response :=
  {| status := 404;
     headers := [(js "Content-Type", js "text/html")];
     body := BodyText (js "<h1>404</h1>") |}.

Definition missing_then_index : list FetchRequest -> FetchRequest -> Result Response :=
  fun earlier _ =>
    match earlier with
    | [] => Ok missing_page
    | _ => Ok index_page
    end.

Definition dashboard_request : Request :=
  sample_request (js "/dashboard") (js "GET") sample_cookie [].

Definition dashboard_world : World :=
  {| SUBTRACK_DATA := {| kv_available := true; kv_entries := ∅ |};
     upstream := missing_then_index;
     fetched := [] |}.

(** A request that presents [token] in the session cookie, and a login
    submission of [password]. *)
Definition presenting (token : jsstring) : Request :=
  sample_request (js "/") (js "GET") [(js "Cookie", COOKIE_NAME ++ js "=" ++ token)] [].

Definition login_request (password : jsstring) : Request :=
  {| url := {| pathname := js "/login" |};
     method := js "POST";
     req_headers := [(js "Content-Type", js "application/x-www-form-urlencoded")];
     req_body := js "password=" ++ password;
     formData := Ok [(js "password", password)] |}.

(** The cookies of a request, as [checkAuth] reads them. *)
Definition cookies_of (request : Request) : gmap jsstring jsstring :=
  parseCookies (str_or (headers_get (js "Cookie") (req_headers request)) []).

(** The condition under which [handleLogin] issues a credential: the form
    parses, its [password] field is the configured secret, and [btoa] encodes
    the secret as [token]. *)
Definition login_accepted (request : Request) (env : Env) (token : jsstring) : Prop :=
  exists fields p,
    formData request = Ok fields
    /\ formData_get (js "password") fields = Some p
    /\ PASSWORD env = Some p
    /\ btoa p = Ok token.

(** The routes the gateway serves without looking at the credential. *)
Definition open_route (request : Request) : bool :=
  startsWith (pathname (url request)) (js "/api/")
  || (jsstring_eqb (pathname (url request)) (js "/login")
      && jsstring_eqb (method request) (js "POST"))
  || jsstring_eqb (pathname (url request)) (js "/logout").

Definition login_page (error : jsstring) : Response :=
  {| status := 200;
     headers := [(js "Content-Type", js "text/html")];
     body := BodyLoginPage error |}.

Definition logout_response : Response :=
  {| status := 302;
     headers :=
       [(js "Location", js "/");
        (js "Set-Cookie",
         COOKIE_NAME ++ js "=; Path=/; HttpOnly; Secure; SameSite=Strict; Max-Age=0")];
     body := BodyNull |}.

(** The path the proxy asks the upstream for. *)
Definition upstream_path (url : URL) : jsstring :=
  if jsstring_eqb (pathname url) (js "/") || negb (includes (pathname url) ch_dot)
  then js "/index.html" else pathname url.

(** The subrequest the proxy opens with. *)
Definition first_subrequest (request : Request) (url : URL) : FetchRequest :=
  {| fetch_url := GITHUB_ORIGIN ++ GITHUB_PATH ++ upstream_path url;
     fetch_headers :=
       [(js "Host", js "panpapadopoulos.github.io");
        (js "User-Agent", js "SubTrack-Pro-Worker");
        (js "Accept", str_or (headers_get (js "Accept") (req_headers request)) (js "*/*"))] |}.

Definition after_subrequest (w : World) (r : FetchRequest) : World :=
  {| SUBTRACK_DATA := SUBTRACK_DATA w;
     upstream := upstream w;
     fetched := fetched w ++ [r] |}.

(** An upstream that serves one script, with headers that forbid framing, and
    an upstream that is down for maintenance. *)
Definition script_asset : Response :=
  {| status := 200;
     headers := [(js "Content-Type", js "text/javascript");
                 (js "x-frame-options", js "DENY");
                 (js "Content-Security-Policy", js "default-src 'self'")];
     body := BodyText (js "console.log(1)") |}.

Definition serving_world (response : Response) : World :=
  {| SUBTRACK_DATA := {| kv_available := true; kv_entries := ∅ |};
     upstream := fun _ _ => Ok response;
     fetched := [] |}.

Definition maintenance_page : Response :=
  {| status := 503;
     headers := [(js "Retry-After", js "120")];
     body := BodyText (js "down") |}.

Definition script_request : Request :=
  sample_request (js "/assets/app.js") (js "GET") sample_cookie [].

(** ** The data service ([dataService.ts])

    [send] is the browser's [fetch]: it delivers a request to the origin and
    resolves to the response, or rejects.  Besides its result a call leaves
    behind whether it asked for a page reload and what it wrote to the
    console. *)

Definition API_URL : jsstring := js "/api/data".

Record Outcome (A : Type) : Type := {
  returned : A;
  reloaded : bool;
  logged : option jsstring
}.
Arguments returned {A} _.
Arguments reloaded {A} _.
Arguments logged {A} _.

(** The request [fetch(API_URL, init)] sends: the browser adds the cookies it
    holds for the origin. *)
Definition browser_request (cookies : Headers) (verb : jsstring) (init : Headers)
    (text : jsstring) : Request :=
  {| url := {| pathname := API_URL |};
     method := verb;
     req_headers := init ++ cookies;
     req_body := text;
     formData := Throw (js "Unrecognized Content-Type header value") |}.

Definition fetchData `{JsonCodec} (send : Request -> Worker Response) (cookies : Headers)
  : World -> Outcome json * World :=
  fun w =>
    match send (browser_request cookies (js "GET") [] []) w with
    | (Ok response, w') =>
        if negb (ok response) then
          if status response =? 401 then
            ({| returned := empty_dataset;
                reloaded := true;
                logged := Some (js "Not authenticated") |}, w')
          else
            ({| returned := empty_dataset;
                reloaded := false;
                logged := Some (js "Failed to fetch data: "
                                ++ number_toString (status response)) |}, w')
        else
          match response_json response with
          | Ok data => ({| returned := data; reloaded := false; logged := None |}, w')
          | Throw message =>
              ({| returned := empty_dataset; reloaded := false; logged := Some message |},
               w')
          end
    | (Throw message, w') =>
        ({| returned := empty_dataset; reloaded := false; logged := Some message |}, w')
    end.

Definition saveData `{JsonCodec} (send : Request -> Worker Response) (cookies : Headers)
    (data : json) : World -> Outcome bool * World :=
  fun w =>
    match send (browser_request cookies (js "POST")
                  [(js "Content-Type", js "application/json")]
                  (JSON_stringify data)) w with
    | (Ok response, w') =>
        if negb (ok response) then
          if status response =? 401 then
            ({| returned := false;
                reloaded := true;
                logged := Some (js "Not authenticated") |}, w')
          else
            ({| returned := false;
                reloaded := false;
                logged := Some (js "Failed to save data: "
                                ++ number_toString (status response)) |}, w')
        else ({| returned := true; reloaded := false; logged := None |}, w')
    | (Throw message, w') =>
        ({| returned := false; reloaded := false; logged := Some message |}, w')
    end.

(** The origin behind [send] when the page is served by the worker. *)
Definition worker_origin `{JsonCodec} (env : Env) : Request -> Worker Response :=
  fun request => fetch request env.

(** The cookies of a browser that logged in and received [token]. *)
Definition session_cookies (token : jsstring) : Headers :=
  [(js "Cookie", COOKIE_NAME ++ js "=" ++ token)].

Definition after_put `{JsonCodec} (w : World) (D : json) : World :=
  {| SUBTRACK_DATA :=
       {| kv_available := true;
          kv_entries := <[js "user_data" := JSON_stringify D]> (kv_entries (SUBTRACK_DATA w)) |};
     upstream := upstream w;
     fetched := fetched w |}.

(** Any two entries of a log of saves are a debounce window apart. *)
Definition spaced (log : list (nat * AppData)) : Prop :=
  forall i j a b,
    (i < j)%nat -> log !! i = Some a -> log !! j = Some b ->
    (fst a + DEBOUNCE_MS <= fst b)%nat.

(** What the log of saves and the pending timers of a reachable state have in
    common: a pending save belongs to a ready component and carries its
    current dataset; the saves issued lie in the past, a debounce window or
    more before whatever is pending, and a debounce window or more apart. *)
Definition paced (st : App) : Prop :=
  (forall t, In t (timers st) ->
     isLoading st = false
     /\ jobsToSave t = items (jobs st)
     /\ paymentsToSave t = items (payments st))
  /\ (forall a, In a (saveDataCalls st) -> (fst a <= now st)%nat)
  /\ (forall t a, In t (timers st) -> In a (saveDataCalls st) ->
        (fst a + DEBOUNCE_MS <= due t)%nat)
  /\ spaced (saveDataCalls st).

(** ** The CSV import ([utils/csvParser.ts]) *)

Definition ch_slash : N := 47.
Definition ch_comma : N := 44.
Definition ch_newline : N := 10.
Definition ch_dash : N := 45.

Definition decimal_digit (c : N) : bool := (48 <=? c) && (c <=? 57).

(** [s.padStart(2, '0')] *)
Definition padStart2 (s : jsstring) : jsstring :=
  repeat 48 (2 - length s)%nat ++ s.

(** Handles MM/DD/YYYY to YYYY-MM-DD.  The pattern [[m, d, y]] leaves
    [undefined] in a name that has no piece; [d.padStart] on [undefined]
    throws, [y] in the template prints as [undefined]. *)
Definition normalizeDate (dateStr : jsstring) : Result jsstring :=
  if includes dateStr ch_slash then
    match split ch_slash dateStr with
    | m :: d :: rest =>
        let y := match rest with
                 | y :: _ => y
                 | [] => js "undefined"
                 end in
        Ok (y ++ js "-" ++ padStart2 m ++ js "-" ++ padStart2 d)
    | _ => Throw (js "Cannot read properties of undefined (reading 'padStart')")
    end
  else Ok dateStr.

(** The longest run of digits a string starts with, and what follows it. *)
Fixpoint digit_run (s : jsstring) : jsstring * jsstring :=
  match s with
  | c :: s' =>
      if decimal_digit c then let '(run, rest) := digit_run s' in (c :: run, rest)
      else ([], s)
  | [] => ([], [])
  end.

(** The test of the pattern that recognises a date: one or two digits, a
    slash, one or two digits, a slash, four digits, and nothing else.  A run
    of digits is followed by a slash or by the end, so the runs are the
    longest ones. *)
Definition test_date (s : jsstring) : bool :=
  let '(month, after_month) := digit_run s in
  let one_or_two (run : jsstring) := (1 <=? length run)%nat && (length run <=? 2)%nat in
  one_or_two month
  && match after_month with
     | 47 :: s1 =>
         let '(day, after_day) := digit_run s1 in
         one_or_two day
         && match after_day with
            | 47 :: s2 =>
                let '(year, after_year) := digit_run s2 in
                (length year =? 4)%nat
                && match after_year with
                   | [] => true
                   | _ => false
                   end
            | _ => false
            end
     | _ => false
     end.

(** [String.prototype.includes] for a needle of any length. *)
Fixpoint includes_text (s needle : jsstring) : bool :=
  startsWith s needle
  || match s with
     | [] => false
     | _ :: s' => includes_text s' needle
     end.

(** [c.replace(/^"|"$/g, '')]: a quote at the start and a quote at the end
    are removed. *)
Definition strip_quotes (c : jsstring) : jsstring :=
  let c := match c with
           | 34 :: c' => c'
           | _ => c
           end in
  match rev c with
  | 34 :: front => rev front
  | _ => c
  end.

(** [s.replace(/[$,]/g, '')] *)
Definition strip_money (s : jsstring) : jsstring :=
  List.filter (fun c => negb ((c =? 36) || (c =? 44))) s.

(** The platform under the parser: [parseFloat], and the text of the number
    the k-th call of [Math.random()] returns. *)
Class CsvPlatform : Type := {
  parseFloat : jsstring -> spec_float;
  Math_random : nat -> jsstring
}.

(** A column that may be missing: [cols[k]] is [undefined] past the end. *)
Definition parseFloat_column `{CsvPlatform} (col : option jsstring) : spec_float :=
  parseFloat (match col with Some s => s | None => js "undefined" end).

(** [x || 0] on a number: zero and NaN are falsy. *)
Definition number_or_zero (x : spec_float) : spec_float :=
  match x with
  | S754_zero _ | S754_nan => S754_zero false
  | _ => x
  end.

(** The records the parser builds.  The columns the guard does not test may
    be missing, whatever the declared type says. *)
Record ImportedJob : Type := {
  imported_id : jsstring;
  imported_date : jsstring;
  imported_className : jsstring;
  imported_teacher : option jsstring;
  imported_school : option jsstring;
  imported_town : option jsstring;
  imported_dayType : spec_float;
  imported_fromTime : option jsstring;
  imported_toTime : option jsstring;
  imported_hours : spec_float
}.

Record ImportedPayment : Type := {
  paid_id : jsstring;
  paid_date : jsstring;
  paid_town : jsstring;
  paid_amount : spec_float
}.

(** What [parseSubCSV] has accumulated: the two arrays, and how many times
    [Math.random] has been called. *)
Record Parsed : Type := {
  parsed_jobs : list ImportedJob;
  parsed_payments : list ImportedPayment;
  random_calls : nat
}.

Definition truthy_text (col : option jsstring) : bool :=
  match col with
  | Some (_ :: _) => true
  | _ => false
  end.

Definition columns (line : jsstring) : list jsstring :=
  List.map (fun c => strip_quotes (trim c)) (split ch_comma line).

(** The first [if] of the loop body: "Check for Jobs (cols 1-9)". *)
Definition job_of_line `{CsvPlatform} (index : nat) (cols : list jsstring) (acc : Parsed)
  : Result Parsed :=
  match cols !! 1%nat, cols !! 2%nat with
  | Some (c1 :: date), Some (c2 :: name) =>
      if test_date (c1 :: date)
         && negb (jsstring_eqb (c2 :: name) (js "Date"))
         && negb (includes_text (c2 :: name) (js "Total"))
      then
        date' ← normalizeDate (c1 :: date);
        Ok {| parsed_jobs :=
                parsed_jobs acc
                ++ [{| imported_id := js "job-" ++ number_toString (N.of_nat index)
                                      ++ js "-" ++ Math_random (random_calls acc);
                       imported_date := date';
                       imported_className := c2 :: name;
                       imported_teacher := cols !! 3%nat;
                       imported_school := cols !! 4%nat;
                       imported_town := cols !! 5%nat;
                       imported_dayType := parseFloat_column (cols !! 6%nat);
                       imported_fromTime := cols !! 7%nat;
                       imported_toTime := cols !! 8%nat;
                       imported_hours :=
                         number_or_zero (parseFloat_column (cols !! 9%nat)) |}];
              parsed_payments := parsed_payments acc;
              random_calls := S (random_calls acc) |}
      else Ok acc
  | _, _ => Ok acc
  end.

(** The second [if]: "Check for Payments (cols 11-13)".  [cols[12].includes]
    throws when the line stops at column 11. *)
Definition payment_of_line `{CsvPlatform} (index : nat) (cols : list jsstring) (acc : Parsed)
  : Result Parsed :=
  match cols !! 11%nat with
  | Some (c11 :: date) =>
      if test_date (c11 :: date) then
        match cols !! 12%nat with
        | None => Throw (js "Cannot read properties of undefined (reading 'includes')")
        | Some town =>
            if negb (includes_text town (js "Total")) then
              let amountStr :=
                match cols !! 13%nat with
                | Some amount =>
                    match strip_money amount with
                    | [] => js "0"
                    | stripped => stripped
                    end
                | None => js "0"
                end in
              date' ← normalizeDate (c11 :: date);
              Ok {| parsed_jobs := parsed_jobs acc;
                    parsed_payments :=
                      parsed_payments acc
                      ++ [{| paid_id := js "pay-" ++ number_toString (N.of_nat index)
                                        ++ js "-" ++ Math_random (random_calls acc);
                             paid_date := date';
                             paid_town := town;
                             paid_amount := number_or_zero (parseFloat amountStr) |}];
                    random_calls := S (random_calls acc) |}
            else Ok acc
        end
      else Ok acc
  | _ => Ok acc
  end.

(** [lines.forEach((line, index) => ...)], from [index] on. *)
Fixpoint parse_lines `{CsvPlatform} (index : nat) (lines : list jsstring) (acc : Parsed)
  : Result Parsed :=
  match lines with
  | [] => Ok acc
  | line :: lines' =>
      let cols := columns line in
      acc1 ← job_of_line index cols acc;
      acc2 ← payment_of_line index cols acc1;
      parse_lines (S index) lines' acc2
  end.

Definition parseSubCSV `{CsvPlatform} (csvText : jsstring) : Result Parsed :=
  parse_lines 0 (split ch_newline csvText)
    {| parsed_jobs := []; parsed_payments := []; random_calls := 0 |}.

(** The form the rest of the program reads a date in: four digits, a dash,
    two digits, a dash, two digits. *)
Definition iso_date (s : jsstring) : bool :=
  match s with
  | [y1; y2; y3; y4; s1; m1; m2; s2; d1; d2] =>
      forallb decimal_digit [y1; y2; y3; y4; m1; m2; d1; d2]
      && (s1 =? ch_dash) && (s2 =? ch_dash)
  | _ => false
  end.

(** An identifier made on line [index]: the prefix, the index in decimal, a
    dash, and what [Math.random] gave. *)
Definition line_id (prefix : jsstring) (index : nat) (id : jsstring) : Prop :=
  exists random, id = prefix ++ number_toString (N.of_nat index) ++ js "-" ++ random.

(** A line that has a date in column 11 and stops there. *)
Definition dangling_payment (cols : list jsstring) : bool :=
  match cols !! 11%nat, cols !! 12%nat with
  | Some (c11 :: date), None => test_date (c11 :: date)
  | _, _ => false
  end.

(** What has been accumulated before line [index]: every identifier was made
    on an earlier line, no identifier is there twice, every date is in the
    ISO form. *)
Record imported_below (index : nat) (acc : Parsed) : Prop := {
  jobs_below :
    Forall (fun id => exists i, (i < index)%nat /\ line_id (js "job-") i id)
           (imported_id <$> parsed_jobs acc);
  payments_below :
    Forall (fun id => exists i, (i < index)%nat /\ line_id (js "pay-") i id)
           (paid_id <$> parsed_payments acc);
  jobs_distinct : NoDup (imported_id <$> parsed_jobs acc);
  payments_distinct : NoDup (paid_id <$> parsed_payments acc);
  jobs_dated : Forall (fun job => iso_date (imported_date job) = true) (parsed_jobs acc);
  payments_dated : Forall (fun pay => iso_date (paid_date pay) = true) (parsed_payments acc)
}.

(** A platform to run the parser on: [parseFloat] reads a plain decimal
    numeral, [Math.random] is a Lehmer sequence. *)
Definition sample_platform : CsvPlatform := {|
  parseFloat := fun s =>
    match RefJson.parse_number (trimStart s) with
    | Some (JNum x, _) => x
    | _ => S754_nan
    end;
  Math_random := fun k =>
    js "0." ++ number_toString ((N.of_nat (S k) * 48271) mod 2147483647)
|}.

Definition sample_csv : jsstring :=
  js ",Date,Class,Teacher,School,Town,Day,From,To,Hours,,Date,School Town,Amount"
  ++ [10] ++ js ",9/3/2024,Math 7,Ms. Lee,Lincoln,Salem,1,8:00,15:00,7,,9/20/2024,Salem,$350.00"
  ++ [10] ++ js ",10/14/2024,Art,Mr. Roy,Adams,Dover,0.5,8:00,11:30,3.5,,,,"
  ++ [10] ++ js ",,Total,,,,,,,10.5,,,Total,$350.00".

(** The same sheet cut after the date of the payment. *)
Definition truncated_csv : jsstring :=
  js ",9/3/2024,Math 7,Ms. Lee,Lincoln,Salem,1,8:00,15:00,7,,9/20/2024".

(** What the sheet imports to: two jobs, of lines 1 and 2, and the payment
    of line 1. *)
Definition sample_imported : Parsed :=
  Eval vm_compute in
    match @parseSubCSV sample_platform sample_csv with
    | Ok r => r
    | Throw _ => {| parsed_jobs := []; parsed_payments := []; random_calls := 0 |}
    end.

(** * Properties *)

(** ** Strings *)

Example btoa_hello : btoa (js "secret") = Ok (js "c2VjcmV0").
Proof. reflexivity. Qed.

Example btoa_pad : btoa (js "hi") = Ok (js "aGk=").
Proof. reflexivity. Qed.

Example btoa_wide : btoa [104; 8364] = Throw (js "Invalid character").
Proof. reflexivity. Qed.

Example split_cookie :
  split ch_equals (js "a=b=c") = [js "a"; js "b"; js "c"].
Proof. reflexivity. Qed.

Example number_toString_404 : number_toString 404 = js "404".
Proof. reflexivity. Qed.


Lemma jsstring_eqb_true (a b : jsstring) : a = b -> jsstring_eqb a b = true.
Proof. intros ->. apply bool_decide_eq_true_2. reflexivity. Qed.

Lemma jsstring_eqb_false (a b : jsstring) : a <> b -> jsstring_eqb a b = false.
Proof. intros Hne. apply bool_decide_eq_false_2. exact Hne. Qed.

Lemma jsstring_eqb_eq (a b : jsstring) : jsstring_eqb a b = true <-> a = b.
Proof. unfold jsstring_eqb. apply bool_decide_eq_true. Qed.

(** ** [split], [join], [trim] *)

Lemma split_nonempty (sep : N) (s : jsstring) : split sep s <> [].
Proof.
  destruct s as [|c s]; simpl; [discriminate |].
  destruct (c =? sep); [discriminate |].
  destruct (split sep s); discriminate.
Qed.

Lemma join_split (sep : N) (s : jsstring) : join sep (split sep s) = s.
Proof.
  induction s as [|c s IH]; [reflexivity |].
  simpl. destruct (c =? sep) eqn:Hc.
  - apply N.eqb_eq in Hc. subst c.
    pose proof (split_nonempty sep s) as Hne.
    destruct (split sep s) as [|p ps]; [congruence |].
    change (join sep ([] :: p :: ps)) with ([] ++ sep :: join sep (p :: ps)).
    rewrite IH. reflexivity.
  - destruct (split sep s) as [|p ps] eqn:Hs;
      [exfalso; eapply split_nonempty; eauto |].
    destruct ps as [|q qs]; simpl in *; rewrite <- IH; reflexivity.
Qed.

Lemma split_without_separator (sep : N) (s : jsstring) :
  Forall (fun c => c <> sep) s -> split sep s = [s].
Proof.
  induction 1 as [|c s Hc _ IH]; [reflexivity |].
  simpl. rewrite IH. apply N.eqb_neq in Hc. rewrite Hc. reflexivity.
Qed.

Lemma split_at_separator (sep : N) (a b : jsstring) :
  Forall (fun c => c <> sep) a -> split sep (a ++ sep :: b) = a :: split sep b.
Proof.
  induction 1 as [|c a Hc _ IH]; simpl.
  - rewrite N.eqb_refl. reflexivity.
  - rewrite IH. apply N.eqb_neq in Hc. rewrite Hc. reflexivity.
Qed.

Lemma trim_without_whitespace (s : jsstring) :
  Forall (fun c => is_whitespace c = false) s -> trim s = s.
Proof.
  intros Hs.
  assert (Hstart : forall t, Forall (fun c => is_whitespace c = false) t -> trimStart t = t).
  { intros t Ht. destruct Ht as [|c t Hc _]; [reflexivity |]. simpl. rewrite Hc. reflexivity. }
  unfold trim, trimEnd. rewrite (Hstart s Hs).
  rewrite Hstart.
  - apply rev_involutive.
  - apply Forall_forall. intros c Hc. rewrite Forall_forall in Hs.
    apply Hs. apply list_elem_of_In. apply list_elem_of_In in Hc.
    apply in_rev. exact Hc.
Qed.

(** ** Base64 *)

Ltac Zify.zify_post_hook ::= Z.to_euclidean_division_equations.

Lemma below_64_cases (P : N -> Prop) :
  Forall P (List.map N.of_nat (seq 0 64)) -> forall i, i < 64 -> P i.
Proof.
  intros Hall i Hi. rewrite Forall_forall in Hall. apply Hall.
  apply list_elem_of_In. rewrite <- (N2Nat.id i). apply in_map.
  apply in_seq. lia.
Qed.

Lemma b64_index_char (i : N) : i < 64 -> b64_index (b64_char i) = i.
Proof.
  revert i. apply below_64_cases. vm_compute. repeat constructor.
Qed.

Lemma b64_char_not_pad (i : N) : i < 64 -> (b64_char i =? b64_pad) = false.
Proof.
  revert i. apply below_64_cases. vm_compute. repeat constructor.
Qed.

(** Induction on a list three elements at a time, the way [b64_encode]
    consumes it. *)
Lemma list_ind_by_three {A} (P : list A -> Prop) :
  P [] -> (forall a, P [a]) -> (forall a b, P [a; b]) ->
  (forall a b c rest, P rest -> P (a :: b :: c :: rest)) ->
  forall l, P l.
Proof.
  intros H0 H1 H2 H3.
  assert (Hall : forall l, P l /\ (forall a, P (a :: l)) /\ (forall a b, P (a :: b :: l))).
  { induction l as [|x l (IH0 & IH1 & IH2)]; repeat split; auto. }
  intros l. apply Hall.
Qed.

Lemma b64_decode_encode (bytes : list N) :
  Forall (fun c => c <= 255) bytes -> b64_decode (b64_encode bytes) = bytes.
Proof.
  induction bytes as [| a | a b | a b c rest IH] using list_ind_by_three; intros Hbytes.
  - reflexivity.
  - apply Forall_cons in Hbytes as [Ha _].
    cbn [b64_encode b64_decode]. rewrite N.eqb_refl.
    rewrite !b64_index_char by lia. f_equal. lia.
  - apply Forall_cons in Hbytes as [Ha Hbytes].
    apply Forall_cons in Hbytes as [Hb _].
    cbn [b64_encode b64_decode].
    rewrite b64_char_not_pad by lia. rewrite N.eqb_refl.
    rewrite !b64_index_char by lia. repeat f_equal; lia.
  - apply Forall_cons in Hbytes as [Ha Hbytes].
    apply Forall_cons in Hbytes as [Hb Hbytes].
    apply Forall_cons in Hbytes as [Hc Hrest].
    cbn [b64_encode b64_decode].
    rewrite !b64_char_not_pad by lia.
    rewrite !b64_index_char by lia. rewrite (IH Hrest).
    repeat f_equal; lia.
Qed.

Lemma btoa_Ok (data token : jsstring) :
  btoa data = Ok token <->
  Forall (fun c => c <= 255) data /\ token = b64_encode data.
Proof.
  unfold btoa. destruct (forallb _ data) eqn:Hall.
  - rewrite forallb_forall in Hall. split.
    + intros [= <-]. split; [| reflexivity].
      apply Forall_forall. intros c Hc. apply N.leb_le, Hall.
      apply list_elem_of_In. exact Hc.
    + intros [_ ->]. reflexivity.
  - split; [discriminate |]. intros [Hbytes _]. exfalso.
    assert (forallb (fun c => c <=? 255) data = true); [| congruence].
    apply forallb_forall. intros c Hc. rewrite Forall_forall in Hbytes.
    apply N.leb_le, Hbytes. apply list_elem_of_In. exact Hc.
Qed.

(** [btoa] is injective: two secrets with one encoding are one secret. *)
Lemma btoa_injective (s1 s2 token : jsstring) :
  btoa s1 = Ok token -> btoa s2 = Ok token -> s1 = s2.
Proof.
  intros [H1 E1]%btoa_Ok [H2 E2]%btoa_Ok.
  rewrite <- (b64_decode_encode s1 H1), <- (b64_decode_encode s2 H2).
  congruence.
Qed.

Lemma b64_encode_nil (bytes : list N) : b64_encode bytes = [] -> bytes = [].
Proof. destruct bytes as [|a [|b [|c rest]]]; simpl; congruence. Qed.

Lemma b64_char_safe (i : N) : cookie_safe (b64_char i).
Proof.
  assert (Hall : Forall cookie_safe (b64_pad :: b64_alphabet)).
  { vm_compute. repeat (constructor; [split; [reflexivity | discriminate] |]). constructor. }
  rewrite Forall_forall in Hall. apply Hall. apply list_elem_of_In.
  unfold b64_char. destruct (nth_in_or_default (N.to_nat i) b64_alphabet b64_pad) as [Hin | ->].
  - right. exact Hin.
  - left. reflexivity.
Qed.

Lemma b64_encode_safe (bytes : list N) : Forall cookie_safe (b64_encode bytes).
Proof.
  assert (Hpad : cookie_safe b64_pad) by (split; [reflexivity | discriminate]).
  induction bytes as [| a | a b | a b c rest IH] using list_ind_by_three;
    cbn [b64_encode]; repeat (constructor; auto using b64_char_safe).
Qed.

(** ** The session authenticator *)

(** [checkAuth] never throws. *)

Lemma checkAuth_total (request : Request) (env : Env) :
  exists b, checkAuth request env = Ok b.
Proof.
  unfold checkAuth.
  destruct (parseCookies _ !! COOKIE_NAME) as [[|c token]|]; eauto.
  unfold result_catch, mbind, result_bind.
  destruct (btoa _); eauto.
Qed.

Lemma checkAuth_not_true (request : Request) (env : Env) :
  checkAuth request env <> Ok true -> checkAuth request env = Ok false.
Proof.
  destruct (checkAuth_total request env) as [[|] Hb]; rewrite Hb; congruence.
Qed.

Lemma parseCookies_session (token : jsstring) :
  Forall cookie_safe token ->
  parseCookies (COOKIE_NAME ++ js "=" ++ token) !! COOKIE_NAME = Some token.
Proof.
  intros Htoken.
  assert (Hname : Forall cookie_safe COOKIE_NAME /\ Forall (fun c => c <> ch_equals) COOKIE_NAME).
  { split; vm_compute; repeat (constructor; [try split; try reflexivity; discriminate |]);
      constructor. }
  destruct Hname as [Hname Hnoeq].
  assert (Hsafe : Forall cookie_safe (COOKIE_NAME ++ js "=" ++ token)).
  { apply Forall_app. split; [exact Hname |].
    apply Forall_app. split; [| exact Htoken].
    repeat constructor. discriminate. }
  unfold parseCookies.
  destruct (COOKIE_NAME ++ js "=" ++ token) as [|c header] eqn:Hheader;
    [discriminate |].
  rewrite <- Hheader in *. clear c header Hheader.
  rewrite split_without_separator
    by (eapply Forall_impl; [exact Hsafe | intros c [_ Hc]; exact Hc]).
  cbn [fold_left].
  rewrite trim_without_whitespace
    by (eapply Forall_impl; [exact Hsafe | intros c [Hc _]; exact Hc]).
  change (COOKIE_NAME ++ js "=" ++ token) with (COOKIE_NAME ++ ch_equals :: token).
  rewrite split_at_separator by exact Hnoeq.
  rewrite join_split.
  change COOKIE_NAME with (115 :: List.tl COOKIE_NAME) at 1.
  cbv iota. change (115 :: List.tl COOKIE_NAME) with COOKIE_NAME.
  unfold set_property.
  rewrite jsstring_eqb_false by (vm_compute; discriminate).
  apply lookup_insert_eq.
Qed.

Lemma checkAuth_true (request : Request) (env : Env) :
  checkAuth request env = Ok true <->
  exists token,
    cookies_of request !! COOKIE_NAME = Some token
    /\ token <> []
    /\ btoa (password_toString (PASSWORD env)) = Ok token.
Proof.
  unfold checkAuth, cookies_of.
  destruct (parseCookies _ !! COOKIE_NAME) as [[|c token]|].
  - split; [discriminate |]. intros (token & [= <-] & Hne & _). congruence.
  - unfold result_catch, mbind, result_bind.
    destruct (btoa _) as [expected|message].
    + split.
      * intros [= Heq]. apply jsstring_eqb_eq in Heq. subst expected.
        exists (c :: token). repeat split. discriminate.
      * intros (token' & [= <-] & _ & [= <-]).
        rewrite jsstring_eqb_true; reflexivity.
    + split; [discriminate |]. intros (token' & _ & _ & Hbtoa). discriminate.
  - split; [discriminate |]. intros (token & Hlookup & _). discriminate.
Qed.

(** Where [checkAuth] answers [false]: no [Cookie] header, no session cookie
    in it, or a secret [btoa] cannot encode. *)
Lemma checkAuth_false_cases (request : Request) (env : Env) :
  headers_get (js "Cookie") (req_headers request) = None
  \/ cookies_of request !! COOKIE_NAME = None
  \/ (exists message, btoa (password_toString (PASSWORD env)) = Throw message) ->
  checkAuth request env = Ok false.
Proof.
  intros Hcase. apply checkAuth_not_true. rewrite checkAuth_true.
  intros (token & Hlookup & _ & Hbtoa).
  destruct Hcase as [Hheader | [Hnone | [message Hthrow]]].
  - unfold cookies_of in Hlookup. rewrite Hheader in Hlookup. discriminate.
  - congruence.
  - congruence.
Qed.

Lemma cookies_of_presenting (token : jsstring) :
  Forall cookie_safe token ->
  cookies_of (presenting token) !! COOKIE_NAME = Some token.
Proof. intros Htoken. apply (parseCookies_session token Htoken). Qed.

(** C9: with [env.PASSWORD] unset, [btoa] does not throw: it encodes the
    string [undefined], and a request whose session cookie is that encoding
    is authenticated. *)
Theorem checkAuth_unset_secret_forged :
  btoa (password_toString None) = Ok (js "dW5kZWZpbmVk")
  /\ checkAuth (presenting (js "dW5kZWZpbmVk")) {| PASSWORD := None |} = Ok true
  /\ (forall password url,
        exists r, handleLogin (login_request password) {| PASSWORD := None |} url = Ok r
                  /\ status r = 200).
Proof.
  split; [reflexivity |]. split; [vm_compute; reflexivity |].
  intros password url. eexists. split; reflexivity.
Qed.

(** C4, at the empty secret: the login issues a credential, the empty token,
    and the request that presents it is not authenticated, although the token
    is the encoding of the configured secret. *)
Lemma empty_secret_credential_rejected :
  let env := {| PASSWORD := Some [] |} in
  btoa [] = Ok []
  /\ handleLogin (login_request []) env {| pathname := js "/login" |}
     = Ok {| status := 302;
             headers := [(js "Location", js "/"); (js "Set-Cookie", session_cookie [])];
             body := BodyNull |}
  /\ cookies_of (presenting []) !! COOKIE_NAME = Some []
  /\ checkAuth (presenting []) env <> Ok true.
Proof.
  repeat split; try reflexivity. vm_compute. discriminate.
Qed.

(** C4, amended: for a configured secret [S], a login with the secret itself
    issues the credential [btoa S] when [btoa] can encode it; when [S] is not
    empty, a login that issues a credential issues [btoa S], and a request
    presenting it is authenticated; the token minted from any other secret
    is rejected, whatever [S] is; and a request is authenticated exactly
    when its session cookie is not empty and is [btoa S], which for a
    non-empty [S] is exactly when it is [btoa S]. *)
Theorem credential_validates (S : jsstring) :
  let env := {| PASSWORD := Some S |} in
  (S <> [] ->
   forall login url r,
     handleLogin login env url = Ok r -> status r = 302 ->
     exists token,
       btoa S = Ok token
       /\ headers r = [(js "Location", js "/"); (js "Set-Cookie", session_cookie token)]
       /\ checkAuth (presenting token) env = Ok true)
  /\ (forall url token,
        btoa S = Ok token ->
        handleLogin (login_request S) env url
        = Ok {| status := 302;
                headers := [(js "Location", js "/"); (js "Set-Cookie", session_cookie token)];
                body := BodyNull |})
  /\ (forall S' token',
        S' <> S -> btoa S' = Ok token' -> checkAuth (presenting token') env = Ok false)
  /\ (forall request,
        checkAuth request env = Ok true <->
        exists token,
          cookies_of request !! COOKIE_NAME = Some token
          /\ token <> [] /\ btoa S = Ok token)
  /\ (S <> [] ->
      forall request,
        checkAuth request env = Ok true <->
        exists token, cookies_of request !! COOKIE_NAME = Some token /\ btoa S = Ok token).
Proof.
  intros env.
  split; [| split; [| split; [| split]]].
  - intros Hne login url r Hlogin Hstatus.
    assert (Hvalid : forall token,
               btoa S = Ok token -> checkAuth (presenting token) env = Ok true).
    { intros token Hbtoa. apply checkAuth_true. exists token.
      pose proof Hbtoa as [_ ->]%btoa_Ok.
      split; [apply cookies_of_presenting, b64_encode_safe |].
      split; [| exact Hbtoa].
      intros Hnil. apply b64_encode_nil in Hnil. contradiction. }
    unfold handleLogin, result_catch, mbind, result_bind in Hlogin.
    destruct (formData login) as [fields|message].
    + destruct (password_matches _ _).
      * cbn [PASSWORD env password_toString] in Hlogin.
        destruct (btoa S) as [token|message] eqn:Hbtoa.
        -- injection Hlogin as <-. exists token. auto.
        -- injection Hlogin as <-. discriminate.
      * injection Hlogin as <-. discriminate.
    + injection Hlogin as <-. discriminate.
  - intros url token Hbtoa.
    unfold handleLogin, result_catch, mbind, result_bind.
    cbn [formData login_request formData_get PASSWORD env password_toString].
    rewrite (jsstring_eqb_true (js "password")) by reflexivity.
    unfold password_matches. rewrite jsstring_eqb_true by reflexivity.
    rewrite Hbtoa. reflexivity.
  - intros S' token' Hother Hminted.
    apply checkAuth_not_true. rewrite checkAuth_true.
    intros (token & Hlookup & _ & Hbtoa).
    pose proof Hminted as [_ ->]%btoa_Ok.
    rewrite cookies_of_presenting in Hlookup by apply b64_encode_safe.
    injection Hlookup as <-.
    apply Hother. eapply btoa_injective; eassumption.
  - intros request. apply checkAuth_true.
  - intros Hne request. rewrite checkAuth_true. split.
    + intros (token & Hlookup & _ & Hbtoa). eauto.
    + intros (token & Hlookup & Hbtoa). exists token.
      repeat split; try assumption.
      pose proof Hbtoa as [_ ->]%btoa_Ok.
      intros Hnil. apply b64_encode_nil in Hnil. contradiction.
Qed.

Lemma credential_validates_witness :
  js "secret" <> []
  /\ handleLogin (login_request (js "secret")) sample_env {| pathname := js "/login" |}
     = Ok {| status := 302;
             headers := [(js "Location", js "/");
                         (js "Set-Cookie", session_cookie (js "c2VjcmV0"))];
             body := BodyNull |}
  /\ checkAuth (presenting (js "c2VjcmV0")) sample_env = Ok true
  /\ checkAuth (presenting (js "c2VjcmV1")) sample_env = Ok false
  /\ checkAuth (presenting (js "c2VjcmV0")) {| PASSWORD := Some [] |} = Ok false.
Proof.
  assert (Hne : js "secret" <> []) by (vm_compute; discriminate).
  destruct (credential_validates (js "secret")) as (Hissued & Hlogin & Hother & _).
  destruct (credential_validates []) as (_ & _ & Hempty & _).
  split; [exact Hne |].
  split; [apply Hlogin; reflexivity |].
  split; [| split].
  - destruct (Hissued Hne (login_request (js "secret")) {| pathname := js "/login" |} _
                (Hlogin {| pathname := js "/login" |} (js "c2VjcmV0") eq_refl) eq_refl)
      as (token & Hbtoa & _ & Hvalid).
    injection Hbtoa as <-. exact Hvalid.
  - apply (Hother (js "secreu")); [vm_compute; discriminate | reflexivity].
  - apply (Hempty (js "secret")); [exact Hne | reflexivity].
Defined.

(** ** The data API handler *)

Section DataAPI.
Context `{codec : JsonCodec}.

Lemma handleAPI_unauthenticated request env url w :
  checkAuth request env = Ok false ->
  handleAPI request env url w = (Ok unauthorized, w).
Proof.
  intros Hauth. unfold handleAPI, mbind, worker_bind, lift.
  rewrite Hauth. reflexivity.
Qed.

Lemma handleAPI_authenticated request env url w :
  checkAuth request env = Ok true ->
  handleAPI request env url w =
    (if jsstring_eqb (pathname url) (js "/api/data") then
       if jsstring_eqb (method request) (js "GET") then
         data ← kv_get_json (js "user_data");
         lift (Ok (json_response (js_or data empty_dataset)))
       else if jsstring_eqb (method request) (js "POST") then
         try_catch
           (data ← lift (JSON_parse (req_body request));
            kv_put (js "user_data") (JSON_stringify data);;
            lift (Ok success))
           (fun message => lift (Ok (bad_request message)))
       else lift (Ok not_found)
     else lift (Ok not_found)) w.
Proof.
  intros Hauth. unfold handleAPI, mbind, worker_bind, lift at 1.
  rewrite Hauth. reflexivity.
Qed.

Lemma fetch_api request env w :
  startsWith (pathname (url request)) (js "/api/") = true ->
  fetch request env w = handleAPI request env (url request) w.
Proof. intros Hapi. unfold fetch. rewrite Hapi. reflexivity. Qed.

(** C6: a request to the data API without a valid credential is answered
    401 with the body [{"error":"Unauthorized"}], whatever its method and
    path, and the store (the whole world, in fact) is left as it was; the
    same holds when the request enters through the gateway router. *)
Theorem api_unauthenticated_401 request env w :
  checkAuth request env <> Ok true ->
  handleAPI request env (url request) w
  = (Ok {| status := 401;
           headers := [];
           body := BodyText (JSON_stringify (JObj [(js "error", JStr (js "Unauthorized"))])) |},
     w)
  /\ (startsWith (pathname (url request)) (js "/api/") = true ->
      fetch request env w = handleAPI request env (url request) w).
Proof.
  intros Hauth. apply checkAuth_not_true in Hauth. split.
  - apply handleAPI_unauthenticated. exact Hauth.
  - apply fetch_api.
Qed.

(** C8: an authenticated [GET /api/data] on an available store that has no
    [user_data] key is answered 200 with the empty-collections document, and
    the world is unchanged. *)
Theorem api_get_empty_store request env w :
  checkAuth request env = Ok true ->
  pathname (url request) = js "/api/data" ->
  method request = js "GET" ->
  kv_available (SUBTRACK_DATA w) = true ->
  kv_entries (SUBTRACK_DATA w) !! js "user_data" = None ->
  handleAPI request env (url request) w
  = (Ok {| status := 200;
           headers := [(js "Content-Type", js "application/json")];
           body := BodyText (JSON_stringify
                               (JObj [(js "jobs", JArr []); (js "payments", JArr [])])) |},
     w).
Proof.
  intros Hauth Hpath Hget Havail Habsent.
  rewrite handleAPI_authenticated by exact Hauth.
  rewrite Hpath, Hget, !jsstring_eqb_true by reflexivity.
  unfold mbind, worker_bind, kv_get_json. rewrite Havail, Habsent. reflexivity.
Qed.

(** C5: an authenticated [POST /api/data] whose body is not JSON is answered
    400 with the parser's message, and the world, the stored dataset
    included, is unchanged. *)
Theorem api_post_malformed request env w message :
  checkAuth request env = Ok true ->
  pathname (url request) = js "/api/data" ->
  method request = js "POST" ->
  JSON_parse (req_body request) = Throw message ->
  handleAPI request env (url request) w
  = (Ok {| status := 400;
           headers := [];
           body := BodyText (JSON_stringify (JObj [(js "error", JStr message)])) |},
     w).
Proof.
  intros Hauth Hpath Hpost Hparse.
  rewrite handleAPI_authenticated by exact Hauth.
  rewrite Hpath, Hpost. rewrite jsstring_eqb_true by reflexivity.
  rewrite jsstring_eqb_false by (vm_compute; discriminate).
  rewrite jsstring_eqb_true by reflexivity.
  unfold try_catch, mbind, worker_bind, lift. rewrite Hparse. reflexivity.
Qed.

(** C10: an authenticated request whose path is not [/api/data], or whose
    method is neither GET nor POST, is answered 404 with the plain text
    [Not found], and the world is unchanged. *)
Theorem api_not_found request env w :
  checkAuth request env = Ok true ->
  pathname (url request) <> js "/api/data"
  \/ (method request <> js "GET" /\ method request <> js "POST") ->
  handleAPI request env (url request) w
  = (Ok {| status := 404; headers := []; body := BodyText (js "Not found") |}, w).
Proof.
  intros Hauth Hcase.
  rewrite handleAPI_authenticated by exact Hauth.
  destruct Hcase as [Hpath | [Hget Hpost]].
  - rewrite jsstring_eqb_false by exact Hpath. reflexivity.
  - rewrite (jsstring_eqb_false (method request) (js "GET")) by exact Hget.
    rewrite (jsstring_eqb_false (method request) (js "POST")) by exact Hpost.
    destruct (jsstring_eqb _ _); reflexivity.
Qed.

Lemma dataset_shape_truthy (d : json) : dataset_shape d = true -> truthy d = true.
Proof. destruct d; simpl; intros; congruence. Qed.

(** C3, amended: for a document [D] of the dataset shape that JSON text
    carries back as it is ([JSON.parse] of [JSON.stringify] of [D] is [D]),
    an authenticated POST whose body is [D] followed by an authenticated GET
    returns, with status 200, a body that parses to [D]. *)
Theorem api_put_get_roundtrip (D : json) post get env w :
  dataset_shape D = true ->
  JSON_parse (JSON_stringify D) = Ok D ->
  checkAuth post env = Ok true ->
  pathname (url post) = js "/api/data" ->
  method post = js "POST" ->
  JSON_parse (req_body post) = Ok D ->
  checkAuth get env = Ok true ->
  pathname (url get) = js "/api/data" ->
  method get = js "GET" ->
  kv_available (SUBTRACK_DATA w) = true ->
  exists w1 r,
    handleAPI post env (url post) w
    = (Ok {| status := 200;
             headers := [];
             body := BodyText (JSON_stringify (JObj [(js "success", JBool true)])) |},
       w1)
    /\ kv_entries (SUBTRACK_DATA w1) !! js "user_data" = Some (JSON_stringify D)
    /\ handleAPI get env (url get) w1 = (Ok r, w1)
    /\ status r = 200
    /\ body r = BodyText (JSON_stringify D)
    /\ response_json r = Ok D.
Proof.
  intros Hshape Hround Hauth1 Hpath1 Hpost Hbody Hauth2 Hpath2 Hget Havail.
  exists {| SUBTRACK_DATA :=
              {| kv_available := true;
                 kv_entries :=
                   <[js "user_data" := JSON_stringify D]> (kv_entries (SUBTRACK_DATA w)) |};
            upstream := upstream w;
            fetched := fetched w |}, (json_response D).
  rewrite !handleAPI_authenticated by assumption.
  rewrite Hpath1, Hpost, Hpath2, Hget.
  rewrite !(jsstring_eqb_true (js "/api/data")) by reflexivity.
  rewrite (jsstring_eqb_false (js "POST") (js "GET")) by (vm_compute; discriminate).
  rewrite !jsstring_eqb_true by reflexivity.
  unfold try_catch, mbind, worker_bind, lift, kv_put, kv_get_json.
  rewrite Hbody, Havail. cbn [SUBTRACK_DATA kv_available kv_entries].
  rewrite lookup_insert_eq, Hround.
  unfold js_or. rewrite (dataset_shape_truthy D Hshape).
  repeat split; try reflexivity.
  unfold response_json, json_response. cbn [body]. exact Hround.
Qed.

End DataAPI.

(** C3, as stated: the worker stores [JSON.stringify] of what it parsed, and
    JSON text has no negative zero and no infinity.  The body [lossy_text] is
    of the dataset shape and is accepted, and the GET that follows returns
    another document: [dayType] has become [0] and [hours] is [null]. *)
Lemma api_put_get_lossy :
  let post := sample_request (js "/api/data") (js "POST") sample_cookie lossy_text in
  let get := sample_request (js "/api/data") (js "GET") sample_cookie [] in
  dataset_shape lossy_document = true
  /\ JSON_parse (JsonCodec := RefJson.codec) (req_body post) = Ok lossy_document
  /\ checkAuth post sample_env = Ok true
  /\ checkAuth get sample_env = Ok true
  /\ exists w1 r,
       handleAPI (H := RefJson.codec) post sample_env (url post) (sample_world ∅)
       = (Ok {| status := 200;
                headers := [];
                body := BodyText (RefJson.stringify (JObj [(js "success", JBool true)])) |},
          w1)
       /\ handleAPI (H := RefJson.codec) get sample_env (url get) w1 = (Ok r, w1)
       /\ status r = 200
       /\ response_json (H := RefJson.codec) r = Ok lossy_returned
       /\ lossy_returned <> lossy_document.
Proof.
  intros post get.
  split; [reflexivity |]. split; [vm_compute; reflexivity |].
  split; [vm_compute; reflexivity |]. split; [vm_compute; reflexivity |].
  eexists. eexists.
  split; [vm_compute; reflexivity |]. split; [vm_compute; reflexivity |].
  split; [reflexivity |]. split; [vm_compute; reflexivity |].
  discriminate.
Qed.

(** The theorems above, applied to concrete requests under the reference
    codec. *)

Lemma api_unauthenticated_401_witness :
  let request := sample_request (js "/api/data") (js "POST") [] (js "{}") in
  let w := sample_world {[ js "user_data" := js "{}" ]} in
  checkAuth request sample_env <> Ok true
  /\ handleAPI (H := RefJson.codec) request sample_env (url request) w
     = (Ok {| status := 401;
              headers := [];
              body := BodyText
                        (RefJson.stringify (JObj [(js "error", JStr (js "Unauthorized"))])) |},
        w).
Proof.
  intros request w.
  assert (Hauth : checkAuth request sample_env <> Ok true)
    by (vm_compute; discriminate).
  split; [exact Hauth |].
  exact (proj1 (api_unauthenticated_401 (codec := RefJson.codec)
                  request sample_env w Hauth)).
Defined.

Lemma api_get_empty_store_witness :
  let request := sample_request (js "/api/data") (js "GET") sample_cookie [] in
  let w := sample_world ∅ in
  checkAuth request sample_env = Ok true
  /\ handleAPI (H := RefJson.codec) request sample_env (url request) w
     = (Ok {| status := 200;
              headers := [(js "Content-Type", js "application/json")];
              body := BodyText (RefJson.stringify empty_dataset) |}, w).
Proof.
  intros request w. split.
  - vm_compute. reflexivity.
  - apply (api_get_empty_store (codec := RefJson.codec) request sample_env w);
      vm_compute; reflexivity.
Defined.

Lemma api_post_malformed_witness :
  let request := sample_request (js "/api/data") (js "POST") sample_cookie (js "{jobs:") in
  let w := sample_world {[ js "user_data" := js "{}" ]} in
  JSON_parse (JsonCodec := RefJson.codec) (req_body request)
  = Throw (js "Unexpected token in JSON")
  /\ handleAPI (H := RefJson.codec) request sample_env (url request) w
     = (Ok {| status := 400;
              headers := [];
              body := BodyText
                        (RefJson.stringify
                           (JObj [(js "error", JStr (js "Unexpected token in JSON"))])) |},
        w).
Proof.
  intros request w. split.
  - vm_compute. reflexivity.
  - apply (api_post_malformed (codec := RefJson.codec) request sample_env w
             (js "Unexpected token in JSON"));
      vm_compute; reflexivity.
Defined.

Lemma api_not_found_witness :
  let request := sample_request (js "/api/data") (js "DELETE") sample_cookie [] in
  let w := sample_world {[ js "user_data" := js "{}" ]} in
  (method request <> js "GET" /\ method request <> js "POST")
  /\ handleAPI (H := RefJson.codec) request sample_env (url request) w
     = (Ok {| status := 404; headers := []; body := BodyText (js "Not found") |}, w).
Proof.
  intros request w.
  assert (Hverb : method request <> js "GET" /\ method request <> js "POST")
    by (split; vm_compute; discriminate).
  split; [exact Hverb |].
  apply (api_not_found (codec := RefJson.codec) request sample_env w).
  - vm_compute. reflexivity.
  - right. exact Hverb.
Defined.

Lemma api_put_get_roundtrip_witness :
  let text := RefJson.stringify sample_document in
  let post := sample_request (js "/api/data") (js "POST") sample_cookie
                (js " { " ++ List.tl text) in
  let get := sample_request (js "/api/data") (js "GET") sample_cookie [] in
  RefJson.parse text = Ok sample_document
  /\ RefJson.parse (req_body post) = Ok sample_document
  /\ exists w1 r,
       handleAPI (H := RefJson.codec) post sample_env (url post) (sample_world ∅)
       = (Ok {| status := 200;
                headers := [];
                body := BodyText (RefJson.stringify (JObj [(js "success", JBool true)])) |},
          w1)
       /\ kv_entries (SUBTRACK_DATA w1) !! js "user_data" = Some text
       /\ handleAPI (H := RefJson.codec) get sample_env (url get) w1 = (Ok r, w1)
       /\ status r = 200
       /\ body r = BodyText text
       /\ response_json (H := RefJson.codec) r = Ok sample_document.
Proof.
  intros text post get.
  split; [vm_compute; reflexivity |]. split; [vm_compute; reflexivity |].
  apply (api_put_get_roundtrip (codec := RefJson.codec) sample_document post get
           sample_env (sample_world ∅));
    vm_compute; reflexivity.
Defined.

(** The claims about the data API seen through the gateway router: a path
    under [/api/] is handed to [handleAPI] before any other route. *)
Lemma fetch_api_data `{JsonCodec} (request : Request) (env : Env) (w : World) :
  pathname (url request) = js "/api/data" ->
  fetch request env w = handleAPI request env (url request) w.
Proof. intros Hpath. apply fetch_api. rewrite Hpath. reflexivity. Qed.

(** The exception of C8: on an unavailable store the read throws, and the
    handler, which has no [try] around it, lets the exception through. *)
Lemma api_get_store_unavailable `{JsonCodec} request env w :
  checkAuth request env = Ok true ->
  pathname (url request) = js "/api/data" ->
  method request = js "GET" ->
  kv_available (SUBTRACK_DATA w) = false ->
  handleAPI request env (url request) w = (Throw kv_unavailable, w).
Proof.
  intros Hauth Hpath Hget Hdown.
  rewrite handleAPI_authenticated by exact Hauth.
  rewrite Hpath, Hget, !jsstring_eqb_true by reflexivity.
  unfold mbind, worker_bind, kv_get_json. rewrite Hdown. reflexivity.
Qed.

(** Why C3 asks for the dataset shape: a stored document that is falsy, such
    as [null], [false], [0] or the empty string, is replaced by the
    empty-collections document when read back. *)
Lemma api_get_falsy_document `{JsonCodec} (D : json) request env w :
  truthy D = false ->
  checkAuth request env = Ok true ->
  pathname (url request) = js "/api/data" ->
  method request = js "GET" ->
  kv_available (SUBTRACK_DATA w) = true ->
  kv_entries (SUBTRACK_DATA w) !! js "user_data" = Some (JSON_stringify D) ->
  JSON_parse (JSON_stringify D) = Ok D ->
  handleAPI request env (url request) w = (Ok (json_response empty_dataset), w).
Proof.
  intros Hfalsy Hauth Hpath Hget Havail Hstored Hround.
  rewrite handleAPI_authenticated by exact Hauth.
  rewrite Hpath, Hget, !jsstring_eqb_true by reflexivity.
  unfold mbind, worker_bind, kv_get_json, lift.
  rewrite Havail, Hstored, Hround. unfold js_or. rewrite Hfalsy. reflexivity.
Qed.

(** ** The static content proxy *)

(** The path the proxy requests always contains a dot: a path without one has
    been replaced by [/index.html] before the subrequest. *)
Lemma normalized_path_has_dot (path : jsstring) :
  includes
    (if jsstring_eqb path (js "/") || negb (includes path ch_dot)
     then js "/index.html" else path) ch_dot = true.
Proof.
  destruct (jsstring_eqb path (js "/")); [reflexivity |].
  destruct (includes path ch_dot) eqn:Hdot; [exact Hdot | reflexivity].
Qed.

(** The proxy makes exactly one subrequest, whatever the upstream answers:
    the branch that would request the index document a second time is never
    taken. *)
Lemma proxy_single_subrequest (request : Request) (url : URL) (w : World) :
  exists r, fetched (snd (proxyToGitHub request url w)) = fetched w ++ [r].
Proof.
  unfold proxyToGitHub, try_catch, mbind, worker_bind, fetch_upstream, lift.
  rewrite normalized_path_has_dot. cbn [negb].
  eexists.
  destruct (upstream w _ _) as [response | message].
  - rewrite andb_false_r.
    destruct (ok response); cbn [negb];
      destruct (new_Response _ _ _); try reflexivity;
      destruct (new_Response _ _ _); reflexivity.
  - destruct (new_Response _ _ _); reflexivity.
Qed.

(** C1: [GET /dashboard] against an upstream that answers the first
    subrequest with 404 and would serve the index document to a second one.
    The caller receives the 404, as an [Origin Error] text, and the log holds
    the single subrequest, which already was for the index document. *)
Theorem proxy_dashboard_404_surfaced :
  proxyToGitHub dashboard_request (url dashboard_request) dashboard_world
  = (Ok {| status := 404;
           headers := [(js "Content-Type", js "text/plain")];
           body := BodyText
                     (js "Origin Error: 404 for https://panpapadopoulos.github.io/subtrack/index.html") |},
     {| SUBTRACK_DATA := SUBTRACK_DATA dashboard_world;
        upstream := missing_then_index;
        fetched :=
          [{| fetch_url := js "https://panpapadopoulos.github.io/subtrack/index.html";
              fetch_headers :=
                [(js "Host", js "panpapadopoulos.github.io");
                 (js "User-Agent", js "SubTrack-Pro-Worker");
                 (js "Accept", js "*/*")] |}] |}).
Proof. vm_compute. reflexivity. Qed.

(** ** The login and logout handlers, and the gateway router *)

Lemma password_matches_true (password secret : option jsstring) :
  password_matches password secret = true <->
  exists p, password = Some p /\ secret = Some p.
Proof.
  unfold password_matches. destruct password as [p |], secret as [s |];
    try (split; [discriminate | intros (q & Hp & Hs); discriminate]).
  rewrite jsstring_eqb_eq. split.
  - intros ->. eauto.
  - intros (q & [= ->] & [= ->]). reflexivity.
Qed.

(** X3: [handleLogin] never throws and has two outcomes.  When the submitted
    password is the configured secret and the secret can be encoded, it
    answers 302 to [/] and sets the session cookie; in every other case it
    answers 200 with the login page carrying an error message, and sets no
    cookie. *)
Theorem handleLogin_outcomes (request : Request) (env : Env) (url : URL) :
  exists r,
    handleLogin request env url = Ok r
    /\ ((exists token,
           login_accepted request env token
           /\ r = {| status := 302;
                     headers := [(js "Location", js "/");
                                 (js "Set-Cookie", session_cookie token)];
                     body := BodyNull |})
        \/ ((forall token, ~ login_accepted request env token)
            /\ status r = 200
            /\ headers_get (js "Set-Cookie") (headers r) = None
            /\ exists error, error <> [] /\ body r = BodyLoginPage error)).
Proof.
  unfold handleLogin, result_catch, mbind, result_bind, login_accepted.
  destruct (formData request) as [fields | message] eqn:Hform.
  - destruct (password_matches _ _) eqn:Hmatch.
    + apply password_matches_true in Hmatch as (p & Hfield & Hsecret).
      rewrite Hsecret. cbn [password_toString].
      destruct (btoa p) as [token | message] eqn:Hbtoa.
      * eexists. split; [reflexivity |]. left. exists token.
        split; [| reflexivity]. exists fields, p. auto.
      * eexists. split; [reflexivity |]. right.
        split; [| repeat split; eexists; split; [| reflexivity]; discriminate].
        intros token (fields' & q & [= <-] & Hq & [= <-] & Hok). congruence.
    + eexists. split; [reflexivity |]. right.
      split; [| repeat split; eexists; split; [| reflexivity]; discriminate].
      intros token (fields' & q & [= <-] & Hq & Hs & _).
      assert (password_matches (formData_get (js "password") fields) (PASSWORD env) = true)
        by (apply password_matches_true; eauto).
      congruence.
  - eexists. split; [reflexivity |]. right.
    split; [| repeat split; eexists; split; [| reflexivity]; discriminate].
    intros token (fields' & q & [=] & _).
Qed.

Lemma handleLogin_total (request : Request) (env : Env) (url : URL) :
  exists r, handleLogin request env url = Ok r.
Proof.
  unfold handleLogin, result_catch, mbind, result_bind.
  destruct (formData request) as [fields | message]; [| eauto].
  destruct (password_matches _ _); [| eauto].
  destruct (btoa _); eauto.
Qed.

(** A request that is not authenticated never reaches the proxy or the store:
    the router answers it itself. *)
Section Gateway.
Context `{codec : JsonCodec}.

(** X1: for a request without a valid credential the worker returns a response
    (it does not throw) and leaves the world as it was: no write to the
    store, no subrequest to the upstream.  Outside the API, login and logout
    routes the response is the login page, with status 200. *)
Theorem fetch_unauthenticated_inert (request : Request) (env : Env) (w : World) :
  checkAuth request env <> Ok true ->
  exists r,
    fetch request env w = (Ok r, w)
    /\ (open_route request = false -> r = login_page []).
Proof.
  intros Hauth. apply checkAuth_not_true in Hauth.
  unfold fetch, open_route.
  destruct (startsWith _ _) eqn:Hapi.
  - rewrite handleAPI_unauthenticated by exact Hauth.
    eexists. split; [reflexivity | discriminate].
  - destruct (jsstring_eqb (pathname (url request)) (js "/login")
              && jsstring_eqb (method request) (js "POST")) eqn:Hlogin.
    + destruct (handleLogin_total request env (url request)) as (r & Hr).
      unfold lift. rewrite Hr. eexists. split; [reflexivity | discriminate].
    + destruct (jsstring_eqb (pathname (url request)) (js "/logout")) eqn:Hlogout.
      * eexists. split; [reflexivity | discriminate].
      * unfold mbind, worker_bind, lift. rewrite Hauth.
        eexists. split; reflexivity.
Qed.

End Gateway.

Lemma proxy_keeps_store (request : Request) (url : URL) (w : World) :
  SUBTRACK_DATA (snd (proxyToGitHub request url w)) = SUBTRACK_DATA w.
Proof.
  unfold proxyToGitHub, try_catch, mbind, worker_bind, fetch_upstream, lift.
  rewrite normalized_path_has_dot. cbn [negb].
  destruct (upstream w _ _) as [response | message].
  - rewrite andb_false_r.
    destruct (ok response); cbn [negb];
      destruct (new_Response _ _ _); try reflexivity;
      destruct (new_Response _ _ _); reflexivity.
  - destruct (new_Response _ _ _); reflexivity.
Qed.

Section StoreDiscipline.
Context `{codec : JsonCodec}.

(** X2: the only write the worker ever makes to the store is the replacement
    of [user_data] by the re-serialised body of an authenticated
    [POST /api/data]; every other request, through every route, leaves the
    store as it was. *)
Theorem fetch_store_discipline (request : Request) (env : Env) (w : World) :
  let w' := snd (fetch request env w) in
  SUBTRACK_DATA w' = SUBTRACK_DATA w
  \/ (checkAuth request env = Ok true
      /\ pathname (url request) = js "/api/data"
      /\ method request = js "POST"
      /\ exists D,
           JSON_parse (req_body request) = Ok D
           /\ SUBTRACK_DATA w'
              = {| kv_available := true;
                   kv_entries :=
                     <[js "user_data" := JSON_stringify D]> (kv_entries (SUBTRACK_DATA w)) |}).
Proof.
  cbn zeta. unfold fetch.
  destruct (startsWith _ _).
  - destruct (checkAuth_total request env) as [[|] Hauth].
    + rewrite handleAPI_authenticated by exact Hauth.
      destruct (jsstring_eqb (pathname (url request)) (js "/api/data")) eqn:Hpath;
        [| left; reflexivity].
      apply jsstring_eqb_eq in Hpath.
      destruct (jsstring_eqb (method request) (js "GET")).
      { left. unfold mbind, worker_bind, kv_get_json, lift.
        destruct (kv_available _); [| reflexivity].
        destruct (_ !! _); [destruct (JSON_parse _) |]; reflexivity. }
      destruct (jsstring_eqb (method request) (js "POST")) eqn:Hpost;
        [| left; reflexivity].
      apply jsstring_eqb_eq in Hpost.
      unfold try_catch, mbind, worker_bind, lift, kv_put.
      destruct (JSON_parse (req_body request)) as [D | message] eqn:Hparse;
        [| left; reflexivity].
      destruct (kv_available (SUBTRACK_DATA w)); [| left; reflexivity].
      right. repeat split; try assumption. exists D. split; reflexivity.
    + left. rewrite handleAPI_unauthenticated by exact Hauth. reflexivity.
  - left.
    destruct (_ && _); [unfold lift; reflexivity |].
    destruct (jsstring_eqb _ _); [reflexivity |].
    unfold mbind, worker_bind, lift.
    destruct (checkAuth request env) as [[|] | message]; try reflexivity.
    apply proxy_keeps_store.
Qed.

(** X4: [/logout] is served to anyone, whatever the method and the
    credential: the answer is a redirect to [/] that empties the session
    cookie, the world is untouched, and a request presenting the emptied
    cookie is rejected under every configuration. *)
Theorem logout_clears_credential (request : Request) (env : Env) (w : World) :
  pathname (url request) = js "/logout" ->
  fetch request env w = (Ok logout_response, w)
  /\ headers_get (js "Set-Cookie") (headers logout_response)
     = Some (COOKIE_NAME ++ js "="
             ++ js "; Path=/; HttpOnly; Secure; SameSite=Strict; Max-Age=0")
  /\ forall env', checkAuth (presenting []) env' = Ok false.
Proof.
  intros Hpath. split; [| split; [reflexivity |]].
  - unfold fetch. rewrite Hpath. reflexivity.
  - intros env'. apply checkAuth_not_true. rewrite checkAuth_true.
    intros (token & Hlookup & Hne & _).
    rewrite cookies_of_presenting in Hlookup by constructor.
    congruence.
Qed.

End StoreDiscipline.

(** ** Cookie parsing *)

Lemma split_app (sep : N) (a b : jsstring) :
  split sep (a ++ sep :: b) = split sep a ++ split sep b.
Proof.
  induction a as [| c a IH]; cbn [app split].
  - rewrite N.eqb_refl. reflexivity.
  - rewrite IH. destruct (c =? sep); [reflexivity |].
    pose proof (split_nonempty sep a) as Hne.
    destruct (split sep a) as [| piece pieces]; [congruence | reflexivity].
Qed.

Lemma trimStart_padding (pad s : jsstring) :
  Forall (fun c => is_whitespace c = true) pad -> trimStart (pad ++ s) = trimStart s.
Proof.
  induction 1 as [| c pad Hc _ IH]; [reflexivity |].
  cbn [app trimStart]. rewrite Hc. exact IH.
Qed.

Lemma trimStart_solid (s : jsstring) :
  Forall (fun c => is_whitespace c = false) s -> forall t, s <> [] ->
  trimStart (s ++ t) = s ++ t.
Proof.
  intros Hs t Hne. destruct Hs as [| c s Hc _]; [congruence |].
  cbn [app trimStart]. rewrite Hc. reflexivity.
Qed.

Lemma Forall_rev' {A} (P : A -> Prop) (l : list A) : Forall P l -> Forall P (rev l).
Proof.
  intros Hl. apply Forall_forall. intros x Hx. rewrite Forall_forall in Hl.
  apply Hl. apply list_elem_of_In. apply in_rev. apply list_elem_of_In. exact Hx.
Qed.

(** [trim] removes the padding around a text that has no whitespace in it. *)
Lemma trim_padded (pad1 core pad2 : jsstring) :
  Forall (fun c => is_whitespace c = true) pad1 ->
  Forall (fun c => is_whitespace c = true) pad2 ->
  Forall (fun c => is_whitespace c = false) core ->
  trim (pad1 ++ core ++ pad2) = core.
Proof.
  intros Hpad1 Hpad2 Hcore. unfold trim, trimEnd.
  rewrite trimStart_padding by exact Hpad1.
  destruct core as [| c core].
  - cbn [app]. rewrite <- (app_nil_r pad2) at 1.
    rewrite trimStart_padding by exact Hpad2. reflexivity.
  - rewrite trimStart_solid by (exact Hcore || discriminate).
    rewrite rev_app_distr.
    rewrite trimStart_padding by (apply Forall_rev'; exact Hpad2).
    rewrite <- (app_nil_r (rev (c :: core))).
    rewrite trimStart_solid.
    + rewrite app_nil_r. apply rev_involutive.
    + apply Forall_rev'. exact Hcore.
    + intros Hnil. apply (f_equal (@length N)) in Hnil.
      rewrite length_rev in Hnil. discriminate.
Qed.

(** The last pair of a [Cookie] header is one assignment on the jar the
    pairs before it made. *)
Lemma parseCookies_snoc (before pad1 pad2 name value : jsstring) :
  Forall (fun c => is_whitespace c = true) pad1 ->
  Forall (fun c => is_whitespace c = true) pad2 ->
  name <> [] ->
  Forall (fun c => cookie_safe c /\ c <> ch_equals) name ->
  Forall cookie_safe value ->
  parseCookies (before ++ js ";" ++ pad1 ++ (name ++ js "=" ++ value) ++ pad2)
  = set_property name value (parseCookies before).
Proof.
  intros Hpad1 Hpad2 Hname Hsafe Hvalue.
  assert (Hcore : Forall cookie_safe (name ++ js "=" ++ value)).
  { apply Forall_app. split.
    - eapply Forall_impl; [exact Hsafe | intros c [Hc _]; exact Hc].
    - constructor; [split; [reflexivity | discriminate] | exact Hvalue]. }
  assert (Hlast : Forall (fun c => c <> ch_semicolon)
                    (pad1 ++ (name ++ js "=" ++ value) ++ pad2)).
  { apply Forall_app. split; [| apply Forall_app; split].
    - eapply Forall_impl; [exact Hpad1 |]. intros c Hc ->. discriminate.
    - eapply Forall_impl; [exact Hcore | intros c [_ Hc]; exact Hc].
    - eapply Forall_impl; [exact Hpad2 |]. intros c Hc ->. discriminate. }
  assert (Hbefore :
            fold_left
              (fun cookies c =>
                 match split ch_equals (trim c) with
                 | (_ :: _) as n :: r => set_property n (join ch_equals r) cookies
                 | _ => cookies
                 end)
              (split ch_semicolon before) ∅
            = parseCookies before).
  { destruct before; reflexivity. }
  unfold parseCookies at 1.
  destruct (before ++ js ";" ++ pad1 ++ (name ++ js "=" ++ value) ++ pad2)
    as [| c0 header] eqn:Hheader.
  { destruct before; discriminate. }
  rewrite <- Hheader. clear c0 header Hheader.
  change (before ++ js ";" ++ pad1 ++ (name ++ js "=" ++ value) ++ pad2)
    with (before ++ ch_semicolon :: (pad1 ++ (name ++ js "=" ++ value) ++ pad2)).
  rewrite split_app, fold_left_app.
  rewrite (split_without_separator _ _ Hlast). cbn [fold_left].
  rewrite trim_padded; try assumption;
    [| eapply Forall_impl; [exact Hcore | intros c [Hc _]; exact Hc]].
  change (name ++ js "=" ++ value) with (name ++ ch_equals :: value).
  rewrite split_at_separator
    by (eapply Forall_impl; [exact Hsafe | intros c [_ Hc]; exact Hc]).
  rewrite join_split, Hbefore.
  destruct name as [| c name]; [congruence | reflexivity].
Qed.

(** [__proto__] is never an own property of the jar. *)
Lemma parseCookies_no_proto (header : jsstring) : parseCookies header !! PROTO = None.
Proof.
  unfold parseCookies. destruct header as [| c0 header]; [apply lookup_empty |].
  generalize (split ch_semicolon (c0 :: header)).
  assert (Hempty : (∅ : gmap jsstring jsstring) !! PROTO = None) by apply lookup_empty.
  revert Hempty. generalize (∅ : gmap jsstring jsstring).
  intros cookies Hcookies pieces. revert cookies Hcookies.
  induction pieces as [| c pieces IH]; intros cookies Hcookies; [exact Hcookies |].
  cbn [fold_left]. apply IH.
  destruct (split ch_equals (trim c)) as [| [| n0 n] r]; try exact Hcookies.
  unfold set_property.
  destruct (jsstring_eqb (n0 :: n) PROTO) eqn:Hproto; [exact Hcookies |].
  rewrite lookup_insert_ne; [exact Hcookies |].
  intros Heq. rewrite jsstring_eqb_true in Hproto by exact Heq. discriminate.
Qed.

(** X5: the last pair of a [Cookie] header decides the value of its name,
    for every name but [__proto__]: pairs before it, of the same name or not,
    do not matter; whitespace around the pair is dropped; equals signs inside
    the value are kept.  A pair named [__proto__] is dropped: the jar is what
    the pairs before it made, and [__proto__] is never an own property of
    it. *)
Theorem parseCookies_last_pair (before pad1 pad2 name value : jsstring) :
  Forall (fun c => is_whitespace c = true) pad1 ->
  Forall (fun c => is_whitespace c = true) pad2 ->
  name <> [] ->
  Forall (fun c => cookie_safe c /\ c <> ch_equals) name ->
  Forall cookie_safe value ->
  let header := before ++ js ";" ++ pad1 ++ (name ++ js "=" ++ value) ++ pad2 in
  (name <> js "__proto__" -> parseCookies header !! name = Some value)
  /\ (name = js "__proto__" -> parseCookies header = parseCookies before)
  /\ parseCookies header !! js "__proto__" = None.
Proof.
  intros Hpad1 Hpad2 Hname Hsafe Hvalue header. unfold header.
  split; [| split].
  - intros Hother.
    rewrite (parseCookies_snoc before pad1 pad2 name value) by assumption.
    unfold set_property, PROTO.
    rewrite jsstring_eqb_false by exact Hother. apply lookup_insert_eq.
  - intros Hproto.
    rewrite (parseCookies_snoc before pad1 pad2 name value) by assumption.
    unfold set_property, PROTO.
    rewrite jsstring_eqb_true by exact Hproto. reflexivity.
  - apply parseCookies_no_proto.
Qed.

Lemma str_or_nil (s : jsstring) : str_or (Some s) [] = s.
Proof. destruct s; reflexivity. Qed.

(** X6: a request stays authenticated when other cookies precede the session
    cookie in its [Cookie] header. *)
Theorem checkAuth_among_other_cookies (S token before : jsstring) (request : Request) :
  S <> [] ->
  btoa S = Ok token ->
  headers_get (js "Cookie") (req_headers request)
  = Some (before ++ js "; " ++ COOKIE_NAME ++ js "=" ++ token) ->
  checkAuth request {| PASSWORD := Some S |} = Ok true.
Proof.
  intros Hne Hbtoa Hheader. apply checkAuth_true. exists token.
  pose proof Hbtoa as [_ ->]%btoa_Ok.
  split; [| split; [| exact Hbtoa]].
  - unfold cookies_of. rewrite Hheader.
    rewrite str_or_nil.
    replace (before ++ js "; " ++ COOKIE_NAME ++ js "=" ++ b64_encode S)
      with (before ++ js ";" ++ [32] ++ (COOKIE_NAME ++ js "=" ++ b64_encode S) ++ [])
      by (rewrite app_nil_r; reflexivity).
    rewrite parseCookies_snoc.
    + unfold set_property.
      rewrite jsstring_eqb_false by (vm_compute; discriminate).
      apply lookup_insert_eq.
    + repeat constructor.
    + constructor.
    + discriminate.
    + vm_compute. repeat (constructor; [repeat split; try reflexivity; discriminate |]).
      constructor.
    + apply b64_encode_safe.
  - intros Hnil. apply b64_encode_nil in Hnil. contradiction.
Qed.

(** ** Headers *)

Lemma ascii_lower_idem (c : N) : ascii_lower (ascii_lower c) = ascii_lower c.
Proof.
  unfold ascii_lower.
  destruct (65 <=? c) eqn:H1, (c <=? 90) eqn:H2; cbn [andb];
    try (rewrite H1, ?H2; reflexivity).
  apply N.leb_le in H1, H2.
  destruct (65 <=? c + 32) eqn:H3, (c + 32 <=? 90) eqn:H4; cbn [andb]; try reflexivity.
  apply N.leb_le in H4. lia.
Qed.

Lemma toLowerCase_idem (s : jsstring) : toLowerCase (toLowerCase s) = toLowerCase s.
Proof.
  unfold toLowerCase. rewrite List.map_map. apply List.map_ext.
  intros c. apply ascii_lower_idem.
Qed.

Lemma header_named_iff (name : jsstring) (h : jsstring * jsstring) :
  header_named name h = true <-> toLowerCase (fst h) = toLowerCase name.
Proof. unfold header_named. apply jsstring_eqb_eq. Qed.

Lemma filter_named_deleted (name name' : jsstring) (hs : Headers) :
  List.filter (header_named name) (headers_delete name' hs)
  = if jsstring_eqb (toLowerCase name) (toLowerCase name') then []
    else List.filter (header_named name) hs.
Proof.
  unfold headers_delete.
  induction hs as [| h hs IH]; cbn [List.filter].
  - destruct (jsstring_eqb _ _); reflexivity.
  - destruct (header_named name' h) eqn:Hdel; cbn [negb List.filter].
    + rewrite IH. destruct (jsstring_eqb _ _) eqn:Hsame; [reflexivity |].
      destruct (header_named name h) eqn:Hkeep; [| reflexivity].
      apply header_named_iff in Hdel, Hkeep.
      rewrite jsstring_eqb_true in Hsame by congruence. discriminate.
    + destruct (header_named name h) eqn:Hkeep; rewrite IH.
      * destruct (jsstring_eqb _ _) eqn:Hsame; [| reflexivity].
        apply jsstring_eqb_eq in Hsame. apply header_named_iff in Hkeep.
        assert (header_named name' h = true) by (apply header_named_iff; congruence).
        congruence.
      * reflexivity.
Qed.

Lemma headers_get_delete (name name' : jsstring) (hs : Headers) :
  headers_get name (headers_delete name' hs)
  = if jsstring_eqb (toLowerCase name) (toLowerCase name') then None
    else headers_get name hs.
Proof.
  unfold headers_get. rewrite filter_named_deleted.
  destruct (jsstring_eqb _ _); reflexivity.
Qed.

Lemma headers_get_set (name name' value : jsstring) (hs : Headers) :
  headers_get name (headers_set name' value hs)
  = if jsstring_eqb (toLowerCase name) (toLowerCase name') then Some value
    else headers_get name hs.
Proof.
  assert (Hnew : header_named name (toLowerCase name', value)
                 = jsstring_eqb (toLowerCase name) (toLowerCase name')).
  { unfold header_named. cbn [fst]. rewrite toLowerCase_idem.
    unfold jsstring_eqb. apply bool_decide_ext. split; congruence. }
  unfold headers_get, headers_set. rewrite List.filter_app, filter_named_deleted.
  cbn [List.filter]. rewrite Hnew.
  destruct (jsstring_eqb (toLowerCase name) (toLowerCase name')); [reflexivity |].
  rewrite app_nil_r. reflexivity.
Qed.

(** ** The static content proxy, path by path *)

(** X7: a successful upstream answer is relayed with its status and body; the
    relayed headers carry no [X-Frame-Options] and no
    [Content-Security-Policy], whatever the case the upstream wrote them in,
    they carry the [X-Proxied-By] marker, and every other header is the
    upstream's. *)
Theorem proxy_relays_success (request : Request) (url : URL) (w : World)
    (response : Response) :
  upstream w (fetched w) (first_subrequest request url) = Ok response ->
  ok response = true ->
  (null_body_status (status response) = true -> body response = BodyNull) ->
  exists r,
    proxyToGitHub request url w = (Ok r, after_subrequest w (first_subrequest request url))
    /\ status r = status response
    /\ body r = body response
    /\ headers_get (js "X-Frame-Options") (headers r) = None
    /\ headers_get (js "Content-Security-Policy") (headers r) = None
    /\ headers_get (js "X-Proxied-By") (headers r) = Some (js "SubTrack-Proxy")
    /\ (forall name,
          toLowerCase name <> js "x-frame-options" ->
          toLowerCase name <> js "content-security-policy" ->
          toLowerCase name <> js "x-proxied-by" ->
          headers_get name (headers r) = headers_get name (headers response)).
Proof.
  intros Hup Hok Hnull.
  unfold proxyToGitHub, try_catch, mbind, worker_bind, fetch_upstream, lift.
  fold (upstream_path url). fold (first_subrequest request url).
  rewrite Hup, Hok. cbn [negb].
  assert (Hnew : forall hs,
             new_Response (body response) (status response) hs
             = Ok {| status := status response; headers := hs; body := body response |}).
  { intros hs. unfold new_Response. unfold ok in Hok.
    apply andb_true_iff in Hok as [Hlo Hhi].
    rewrite Hlo. apply N.leb_le in Hhi.
    replace (status response <=? 599) with true by (symmetry; apply N.leb_le; lia).
    cbn [andb negb].
    destruct (null_body_status (status response)); [| reflexivity].
    rewrite Hnull by reflexivity. reflexivity. }
  rewrite Hnew. eexists. split; [reflexivity |]. cbn [status body headers].
  split; [reflexivity |]. split; [reflexivity |].
  rewrite !headers_get_set, !headers_get_delete.
  repeat split; try reflexivity.
  intros name H1 H2 H3.
  rewrite !headers_get_set, !headers_get_delete.
  rewrite !jsstring_eqb_false by assumption. reflexivity.
Qed.

(** X8: when the subrequest fails at the network level the proxy answers 502
    with the exception's message; the subrequest is not repeated. *)
Theorem proxy_upstream_failure (request : Request) (url : URL) (w : World)
    (message : jsstring) :
  upstream w (fetched w) (first_subrequest request url) = Throw message ->
  proxyToGitHub request url w
  = (Ok {| status := 502;
           headers := [];
           body := BodyText (js "Worker Exception: " ++ message) |},
     after_subrequest w (first_subrequest request url)).
Proof.
  intros Hup.
  unfold proxyToGitHub, try_catch, mbind, worker_bind, fetch_upstream, lift.
  fold (upstream_path url). fold (first_subrequest request url).
  rewrite Hup. reflexivity.
Qed.

(** X9: an upstream failure status other than 404 (the one the source singles
    out) and other than the body-less 304 is passed through, with a plain
    text that names the status and the address asked for. *)
Theorem proxy_passes_failure_status (request : Request) (url : URL) (w : World)
    (response : Response) :
  upstream w (fetched w) (first_subrequest request url) = Ok response ->
  300 <= status response <= 599 ->
  status response <> 304 ->
  status response <> 404 ->
  proxyToGitHub request url w
  = (Ok {| status := status response;
           headers := [(js "Content-Type", js "text/plain")];
           body := BodyText
                     (js "Origin Error: " ++ number_toString (status response)
                      ++ js " for " ++ fetch_url (first_subrequest request url)) |},
     after_subrequest w (first_subrequest request url)).
Proof.
  intros Hup [Hlo Hhi] H304 H404.
  unfold proxyToGitHub, try_catch, mbind, worker_bind, fetch_upstream, lift.
  fold (upstream_path url). fold (first_subrequest request url).
  rewrite Hup.
  assert (Hnotok : ok response = false).
  { unfold ok. apply andb_false_iff. right. apply N.leb_gt. lia. }
  rewrite Hnotok. cbn [negb].
  replace (status response =? 404) with false by (symmetry; apply N.eqb_neq; exact H404).
  cbn [andb].
  unfold new_Response.
  replace (200 <=? status response) with true by (symmetry; apply N.leb_le; lia).
  replace (status response <=? 599) with true by (symmetry; apply N.leb_le; lia).
  unfold null_body_status.
  replace (status response =? 101) with false by (symmetry; apply N.eqb_neq; lia).
  replace (status response =? 204) with false by (symmetry; apply N.eqb_neq; lia).
  replace (status response =? 205) with false by (symmetry; apply N.eqb_neq; lia).
  replace (status response =? 304) with false by (symmetry; apply N.eqb_neq; lia).
  reflexivity.
Qed.

(** X10: whatever the upstream does, the proxy opens with one subrequest to the
    fixed origin and path prefix; a path without a dot, the root included, is
    asked for as [/index.html], any other path as it is; the store is not
    touched. *)
Theorem proxy_first_subrequest (request : Request) (url : URL) (w : World) :
  let w' := snd (proxyToGitHub request url w) in
  (exists later, fetched w' = fetched w ++ first_subrequest request url :: later)
  /\ SUBTRACK_DATA w' = SUBTRACK_DATA w
  /\ fetch_url (first_subrequest request url)
     = GITHUB_ORIGIN ++ GITHUB_PATH
       ++ (if includes (pathname url) ch_dot then pathname url else js "/index.html").
Proof.
  cbn zeta. split; [| split; [apply proxy_keeps_store |]].
  - unfold proxyToGitHub, try_catch, mbind, worker_bind, fetch_upstream, lift.
    fold (upstream_path url). fold (first_subrequest request url).
    destruct (upstream w _ _) as [response | message].
    + destruct (ok response); cbn [negb].
      * destruct (new_Response _ _ _); [| destruct (new_Response _ _ _)];
          exists []; reflexivity.
      * destruct (_ && _).
        -- eexists [_]. cbn. rewrite <- app_assoc. reflexivity.
        -- destruct (new_Response _ _ _); [| destruct (new_Response _ _ _)];
             exists []; reflexivity.
    + destruct (new_Response _ _ _); exists []; reflexivity.
  - unfold first_subrequest, upstream_path. cbn [fetch_url].
    destruct (includes (pathname url) ch_dot) eqn:Hdot; cbn [negb].
    + rewrite orb_false_r.
      destruct (jsstring_eqb (pathname url) (js "/")) eqn:Hroot; [| reflexivity].
      apply jsstring_eqb_eq in Hroot. rewrite Hroot in Hdot. discriminate.
    + rewrite orb_true_r. reflexivity.
Qed.

Lemma fetch_unauthenticated_inert_witness :
  let request := sample_request (js "/dashboard") (js "GET")
                   [(js "Cookie", js "theme=dark")] [] in
  checkAuth request sample_env <> Ok true
  /\ fetch (H := RefJson.codec) request sample_env dashboard_world
     = (Ok (login_page []), dashboard_world).
Proof.
  intros request.
  assert (Hauth : checkAuth request sample_env <> Ok true) by (vm_compute; discriminate).
  split; [exact Hauth |].
  destruct (fetch_unauthenticated_inert (codec := RefJson.codec)
              request sample_env dashboard_world Hauth) as (r & Hr & Hpage).
  rewrite Hr, (Hpage eq_refl). reflexivity.
Defined.

Lemma logout_clears_credential_witness :
  let request := sample_request (js "/logout") (js "GET") [] [] in
  pathname (url request) = js "/logout"
  /\ fetch (H := RefJson.codec) request sample_env (sample_world ∅)
     = (Ok logout_response, sample_world ∅)
  /\ checkAuth (presenting []) sample_env = Ok false.
Proof.
  intros request.
  destruct (logout_clears_credential (codec := RefJson.codec)
              request sample_env (sample_world ∅) eq_refl) as (Hout & _ & Hrejected).
  split; [reflexivity |]. split; [exact Hout | apply Hrejected].
Defined.

Lemma parseCookies_last_pair_witness :
  js "sid" <> js "__proto__"
  /\ parseCookies (js "sid=old; theme=dark;  sid=a=b= ") !! js "sid" = Some (js "a=b=").
Proof.
  assert (Hother : js "sid" <> js "__proto__") by (vm_compute; discriminate).
  split; [exact Hother |].
  apply (parseCookies_last_pair (js "sid=old; theme=dark") (js "  ") (js " ")
           (js "sid") (js "a=b=")).
  - repeat constructor.
  - repeat constructor.
  - discriminate.
  - repeat (constructor; [repeat split; try reflexivity; discriminate |]). constructor.
  - repeat (constructor; [split; [reflexivity | discriminate] |]). constructor.
  - exact Hother.
Defined.

Lemma checkAuth_among_other_cookies_witness :
  let request := sample_request (js "/") (js "GET")
                   [(js "cookie", js "theme=dark; lang=en; subtrack_auth=c2VjcmV0")] [] in
  js "secret" <> []
  /\ checkAuth request sample_env = Ok true.
Proof.
  intros request.
  assert (Hne : js "secret" <> []) by discriminate.
  split; [exact Hne |].
  apply (checkAuth_among_other_cookies (js "secret") (js "c2VjcmV0")
           (js "theme=dark; lang=en") request Hne); reflexivity.
Defined.

Lemma proxy_relays_success_witness :
  exists r,
    proxyToGitHub script_request (url script_request) (serving_world script_asset)
    = (Ok r, after_subrequest (serving_world script_asset)
               (first_subrequest script_request (url script_request)))
    /\ status r = 200
    /\ headers_get (js "X-Frame-Options") (headers r) = None
    /\ headers_get (js "Content-Type") (headers r) = Some (js "text/javascript").
Proof.
  destruct (proxy_relays_success script_request (url script_request)
              (serving_world script_asset) script_asset eq_refl eq_refl)
    as (r & Hr & Hstatus & _ & Hframe & _ & _ & Hother).
  { discriminate. }
  exists r. split; [exact Hr |]. split; [exact Hstatus |]. split; [exact Hframe |].
  rewrite Hother; [reflexivity | discriminate ..].
Defined.

Lemma proxy_upstream_failure_witness :
  proxyToGitHub script_request (url script_request) (sample_world ∅)
  = (Ok {| status := 502;
           headers := [];
           body := BodyText (js "Worker Exception: Network connection lost.") |},
     after_subrequest (sample_world ∅)
       (first_subrequest script_request (url script_request))).
Proof.
  apply (proxy_upstream_failure script_request (url script_request) (sample_world ∅)
           (js "Network connection lost.")).
  reflexivity.
Defined.

Lemma proxy_passes_failure_status_witness :
  (300 <= status maintenance_page <= 599)
  /\ proxyToGitHub script_request (url script_request) (serving_world maintenance_page)
     = (Ok {| status := 503;
              headers := [(js "Content-Type", js "text/plain")];
              body := BodyText
                        (js "Origin Error: 503 for https://panpapadopoulos.github.io/subtrack/assets/app.js") |},
        after_subrequest (serving_world maintenance_page)
          (first_subrequest script_request (url script_request))).
Proof.
  assert (Hrange : 300 <= status maintenance_page <= 599) by (cbn; lia).
  split; [exact Hrange |].
  apply (proxy_passes_failure_status script_request (url script_request)
           (serving_world maintenance_page) maintenance_page eq_refl Hrange);
    discriminate.
Defined.

(** ** The data service against the worker *)

Section Service.
Context `{codec : JsonCodec}.

Lemma checkAuth_browser_request (cookies init : Headers) (verb text : jsstring) (env : Env)
    (request : Request) :
  headers_get (js "Cookie") init = None ->
  req_headers request = cookies ->
  checkAuth (browser_request cookies verb init text) env = checkAuth request env.
Proof.
  intros Hinit Hcookies. unfold checkAuth. cbn [req_headers browser_request].
  rewrite Hcookies.
  assert (Hget : headers_get (js "Cookie") (init ++ cookies)
                 = headers_get (js "Cookie") cookies).
  { unfold headers_get in *. rewrite List.filter_app.
    destruct (List.filter (header_named (js "Cookie")) init); [reflexivity | discriminate]. }
  rewrite Hget. reflexivity.
Qed.

Lemma checkAuth_session (S token verb text : jsstring) (init : Headers) :
  S <> [] -> btoa S = Ok token ->
  headers_get (js "Cookie") init = None ->
  checkAuth (browser_request (session_cookies token) verb init text) {| PASSWORD := Some S |}
  = Ok true.
Proof.
  intros Hne Hbtoa Hinit.
  rewrite (checkAuth_browser_request _ _ _ _ _ (presenting token)) by (exact Hinit || reflexivity).
  apply checkAuth_true. exists token.
  pose proof Hbtoa as [_ ->]%btoa_Ok.
  split; [apply cookies_of_presenting, b64_encode_safe |].
  split; [| exact Hbtoa].
  intros Hnil. apply b64_encode_nil in Hnil. contradiction.
Qed.

(** X11: a browser holding the session cookie saves a document [D] through
    the worker and then loads it again.  What is kept is [D1], the document
    as JSON text carries it ([JSON.parse] of [JSON.stringify] of [D]: [D]
    itself when JSON preserves it, [null] where [D] has a [NaN]).  When [D1]
    has the dataset shape and a further round trip leaves it as it is,
    [saveData] reports success, the store holds [D1] under [user_data], and
    [fetchData] returns [D1]; neither call asks for a reload or logs an
    error. *)
Theorem service_save_then_fetch (S token : jsstring) (D D1 : json) (w : World) :
  S <> [] ->
  btoa S = Ok token ->
  JSON_parse (JSON_stringify D) = Ok D1 ->
  JSON_parse (JSON_stringify D1) = Ok D1 ->
  dataset_shape D1 = true ->
  kv_available (SUBTRACK_DATA w) = true ->
  let origin := worker_origin {| PASSWORD := Some S |} in
  saveData origin (session_cookies token) D w
  = ({| returned := true; reloaded := false; logged := None |}, after_put w D1)
  /\ fetchData origin (session_cookies token) (after_put w D1)
     = ({| returned := D1; reloaded := false; logged := None |}, after_put w D1).
Proof.
  intros Hne Hbtoa Hcarried Hstable Hshape Havail origin.
  assert (Hpost : checkAuth (browser_request (session_cookies token) (js "POST")
                               [(js "Content-Type", js "application/json")]
                               (JSON_stringify D)) {| PASSWORD := Some S |} = Ok true)
    by (apply checkAuth_session; auto).
  assert (Hget : checkAuth (browser_request (session_cookies token) (js "GET") [] [])
                   {| PASSWORD := Some S |} = Ok true)
    by (apply checkAuth_session; auto).
  unfold saveData, fetchData, origin, worker_origin.
  rewrite !fetch_api by reflexivity.
  rewrite !handleAPI_authenticated by assumption.
  cbn [url browser_request pathname method req_body].
  rewrite !(jsstring_eqb_true API_URL) by reflexivity.
  rewrite (jsstring_eqb_false (js "POST") (js "GET")) by (vm_compute; discriminate).
  rewrite !jsstring_eqb_true by reflexivity.
  unfold try_catch, mbind, worker_bind, lift, kv_put, kv_get_json, after_put.
  rewrite Hcarried, Havail. cbn [SUBTRACK_DATA kv_available kv_entries].
  rewrite lookup_insert_eq, Hstable.
  unfold js_or. rewrite (dataset_shape_truthy D1 Hshape).
  unfold response_json, json_response, success. cbn [ok status body].
  rewrite Hstable. split; reflexivity.
Qed.

(** X12: a browser without a valid credential gets nothing from the worker
    and changes nothing: [fetchData] falls back to the empty collections,
    [saveData] reports failure, both ask for a page reload, and the world is
    as it was. *)
Theorem service_unauthenticated (cookies : Headers) (env : Env) (D : json) (w : World) :
  (forall request, req_headers request = cookies -> checkAuth request env <> Ok true) ->
  let origin := worker_origin env in
  fetchData origin cookies w
  = ({| returned := empty_dataset;
        reloaded := true;
        logged := Some (js "Not authenticated") |}, w)
  /\ saveData origin cookies D w
     = ({| returned := false;
           reloaded := true;
           logged := Some (js "Not authenticated") |}, w).
Proof.
  intros Hcookies origin.
  assert (Hany : forall verb init text,
             headers_get (js "Cookie") init = None ->
             checkAuth (browser_request cookies verb init text) env = Ok false).
  { intros verb init text Hinit. apply checkAuth_not_true.
    rewrite (checkAuth_browser_request _ _ _ _ _ (sample_request [] [] cookies []))
      by (exact Hinit || reflexivity).
    apply Hcookies. reflexivity. }
  unfold fetchData, saveData, origin, worker_origin.
  rewrite !fetch_api by reflexivity.
  rewrite !handleAPI_unauthenticated by (apply Hany; reflexivity).
  split; reflexivity.
Qed.

(** X13: a save against an unavailable store is not an exception for the
    page: the worker turns the failing [put] into a 400 and [saveData]
    reports [false], without a reload; nothing is stored. *)
Theorem service_save_store_down (S token : jsstring) (D : json) (w : World) :
  S <> [] ->
  btoa S = Ok token ->
  JSON_parse (JSON_stringify D) = Ok D ->
  kv_available (SUBTRACK_DATA w) = false ->
  saveData (worker_origin {| PASSWORD := Some S |}) (session_cookies token) D w
  = ({| returned := false;
        reloaded := false;
        logged := Some (js "Failed to save data: 400") |}, w).
Proof.
  intros Hne Hbtoa Hround Hdown.
  assert (Hpost : checkAuth (browser_request (session_cookies token) (js "POST")
                               [(js "Content-Type", js "application/json")]
                               (JSON_stringify D)) {| PASSWORD := Some S |} = Ok true)
    by (apply checkAuth_session; auto).
  unfold saveData, worker_origin.
  rewrite fetch_api by reflexivity.
  rewrite handleAPI_authenticated by assumption.
  cbn [url browser_request pathname method req_body].
  rewrite (jsstring_eqb_true API_URL) by reflexivity.
  rewrite (jsstring_eqb_false (js "POST") (js "GET")) by (vm_compute; discriminate).
  rewrite jsstring_eqb_true by reflexivity.
  unfold try_catch, mbind, worker_bind, lift, kv_put.
  rewrite Hround, Hdown. reflexivity.
Qed.

End Service.

Lemma service_save_then_fetch_witness :
  let origin := worker_origin (H := RefJson.codec) sample_env in
  RefJson.parse (RefJson.stringify imported_document) = Ok imported_carried
  /\ RefJson.parse (RefJson.stringify imported_carried) = Ok imported_carried
  /\ saveData (H := RefJson.codec) origin (session_cookies (js "c2VjcmV0"))
       imported_document (sample_world ∅)
     = ({| returned := true; reloaded := false; logged := None |},
        after_put (H := RefJson.codec) (sample_world ∅) imported_carried)
  /\ fetchData (H := RefJson.codec) origin (session_cookies (js "c2VjcmV0"))
       (after_put (H := RefJson.codec) (sample_world ∅) imported_carried)
     = ({| returned := imported_carried; reloaded := false; logged := None |},
        after_put (H := RefJson.codec) (sample_world ∅) imported_carried).
Proof.
  intros origin.
  split; [vm_compute; reflexivity |]. split; [vm_compute; reflexivity |].
  apply (service_save_then_fetch (codec := RefJson.codec) (js "secret") (js "c2VjcmV0")
           imported_document imported_carried (sample_world ∅)).
  - discriminate.
  - reflexivity.
  - vm_compute. reflexivity.
  - vm_compute. reflexivity.
  - reflexivity.
  - reflexivity.
Defined.

Lemma service_unauthenticated_witness :
  let stale := session_cookies (js "b2xkLXNlY3JldA==") in
  fetchData (H := RefJson.codec) (worker_origin (H := RefJson.codec) sample_env) stale
    (sample_world ∅)
  = ({| returned := empty_dataset;
        reloaded := true;
        logged := Some (js "Not authenticated") |}, sample_world ∅).
Proof.
  intros stale.
  apply (service_unauthenticated (codec := RefJson.codec) stale sample_env JNull
           (sample_world ∅)).
  intros request Hcookies. unfold checkAuth. rewrite Hcookies.
  vm_compute. discriminate.
Defined.

Lemma service_save_store_down_witness :
  let down := {| SUBTRACK_DATA := {| kv_available := false; kv_entries := ∅ |};
                 upstream := unreachable_upstream;
                 fetched := [] |} in
  saveData (H := RefJson.codec) (worker_origin (H := RefJson.codec) sample_env)
    (session_cookies (js "c2VjcmV0")) sample_document down
  = ({| returned := false;
        reloaded := false;
        logged := Some (js "Failed to save data: 400") |}, down).
Proof.
  intros down.
  apply (service_save_store_down (codec := RefJson.codec) (js "secret") (js "c2VjcmV0")
           sample_document down).
  - discriminate.
  - reflexivity.
  - vm_compute. reflexivity.
  - reflexivity.
Defined.

(** ** The CSV import: dates *)

Lemma digit_run_spec (s run rest : jsstring) :
  digit_run s = (run, rest) ->
  s = run ++ rest /\ Forall (fun c => decimal_digit c = true) run.
Proof.
  revert run rest. induction s as [| c s IH]; intros run rest Hrun; cbn in Hrun.
  - injection Hrun as <- <-. split; [reflexivity | constructor].
  - destruct (decimal_digit c) eqn:Hc.
    + destruct (digit_run s) as [run' rest'] eqn:Hs.
      injection Hrun as <- <-.
      destruct (IH run' rest' eq_refl) as (-> & Hall).
      split; [reflexivity | constructor; assumption].
    + injection Hrun as <- <-. split; [reflexivity | constructor].
Qed.

Lemma digits_without (sep : N) (run : jsstring) :
  decimal_digit sep = false ->
  Forall (fun c => decimal_digit c = true) run -> Forall (fun c => c <> sep) run.
Proof.
  intros Hsep Hrun. eapply Forall_impl; [exact Hrun |].
  intros c Hc ->. congruence.
Qed.

(** A string that passes the test is made of three runs of digits, of one or
    two, one or two, and four digits, with slashes between them. *)
Lemma test_date_shape (s : jsstring) :
  test_date s = true ->
  exists m d y,
    s = m ++ ch_slash :: d ++ ch_slash :: y
    /\ Forall (fun c => decimal_digit c = true) m
    /\ Forall (fun c => decimal_digit c = true) d
    /\ Forall (fun c => decimal_digit c = true) y
    /\ (1 <= length m <= 2)%nat /\ (1 <= length d <= 2)%nat /\ length y = 4%nat.
Proof.
  unfold test_date. intros Htest.
  destruct (digit_run s) as [m r1] eqn:Hm.
  apply andb_true_iff in Htest as [Hlm Htest].
  destruct r1 as [| c1 s1]; [discriminate |].
  destruct (N.eq_dec c1 47) as [-> | Hc1];
    [| destruct c1 as [| p]; [discriminate |];
       do 6 (destruct p as [p | p |]; try discriminate); congruence].
  destruct (digit_run s1) as [d r2] eqn:Hd.
  apply andb_true_iff in Htest as [Hld Htest].
  destruct r2 as [| c2 s2]; [discriminate |].
  destruct (N.eq_dec c2 47) as [-> | Hc2];
    [| destruct c2 as [| p]; [discriminate |];
       do 6 (destruct p as [p | p |]; try discriminate); congruence].
  destruct (digit_run s2) as [y r3] eqn:Hy.
  apply andb_true_iff in Htest as [Hly Htest].
  destruct r3; [| discriminate].
  destruct (digit_run_spec _ _ _ Hm) as (-> & Hdm).
  destruct (digit_run_spec _ _ _ Hd) as (-> & Hdd).
  destruct (digit_run_spec _ _ _ Hy) as (-> & Hdy).
  exists m, d, y. rewrite app_nil_r.
  apply andb_true_iff in Hlm as [Hm1 Hm2], Hld as [Hd1 Hd2].
  apply Nat.leb_le in Hm1, Hm2, Hd1, Hd2. apply Nat.eqb_eq in Hly.
  repeat split; auto.
Qed.

Lemma includes_split (sep : N) (s : jsstring) :
  includes s sep = true -> exists a b rest, split sep s = a :: b :: rest.
Proof.
  unfold includes. induction s as [| c s IH]; [discriminate |].
  cbn [existsb split]. rewrite (N.eqb_sym sep c).
  destruct (c =? sep) eqn:Hc.
  - intros _. destruct (split sep s) as [| p ps] eqn:Hs.
    + exfalso. eapply split_nonempty; eauto.
    + eauto.
  - cbn [orb]. intros Hin. destruct (IH Hin) as (a & b & rest & ->). eauto.
Qed.

Lemma includes_false (sep : N) (s : jsstring) :
  Forall (fun c => c <> sep) s -> includes s sep = false.
Proof.
  unfold includes. induction 1 as [| c s Hc _ IH]; [reflexivity |].
  cbn [existsb]. rewrite IH. apply N.eqb_neq in Hc. rewrite N.eqb_sym, Hc. reflexivity.
Qed.

Lemma padStart2_digits (s : jsstring) :
  Forall (fun c => decimal_digit c = true) s -> (1 <= length s <= 2)%nat ->
  exists a b, padStart2 s = [a; b] /\ decimal_digit a = true /\ decimal_digit b = true.
Proof.
  intros Hs Hlen. destruct s as [| a [| b [| c s]]]; cbn in Hlen; try lia.
  - exists 48, a. inversion Hs; subst. repeat split; auto.
  - exists a, b. inversion Hs as [| ? ? Ha Hs']; subst. inversion Hs'; subst.
    repeat split; auto.
Qed.

Lemma normalizeDate_of_date (s : jsstring) :
  test_date s = true ->
  exists m d y,
    s = m ++ ch_slash :: d ++ ch_slash :: y
    /\ normalizeDate s = Ok (y ++ ch_dash :: padStart2 m ++ ch_dash :: padStart2 d)
    /\ iso_date (y ++ ch_dash :: padStart2 m ++ ch_dash :: padStart2 d) = true.
Proof.
  intros Htest.
  destruct (test_date_shape s Htest) as (m & d & y & -> & Hm & Hd & Hy & Hlm & Hld & Hly).
  exists m, d, y. split; [reflexivity |].
  assert (Hslash : decimal_digit ch_slash = false) by reflexivity.
  split.
  - unfold normalizeDate.
    assert (Hin : includes (m ++ ch_slash :: d ++ ch_slash :: y) ch_slash = true).
    { unfold includes. rewrite existsb_app. cbn. apply orb_true_r. }
    rewrite Hin.
    rewrite (split_at_separator ch_slash m) by (apply digits_without; assumption).
    rewrite (split_at_separator ch_slash d) by (apply digits_without; assumption).
    rewrite (split_without_separator ch_slash y) by (apply digits_without; assumption).
    reflexivity.
  - destruct (padStart2_digits m Hm Hlm) as (m1 & m2 & -> & Hm1 & Hm2).
    destruct (padStart2_digits d Hd Hld) as (d1 & d2 & -> & Hd1 & Hd2).
    destruct y as [| y1 [| y2 [| y3 [| y4 [| y5 y]]]]]; try discriminate.
    inversion Hy as [| ? ? Hy1 Hy']; subst. inversion Hy' as [| ? ? Hy2 Hy'']; subst.
    inversion Hy'' as [| ? ? Hy3 Hy''']; subst. inversion Hy''' as [| ? ? Hy4 _]; subst.
    cbn. rewrite Hy1, Hy2, Hy3, Hy4, Hm1, Hm2, Hd1, Hd2. reflexivity.
Qed.

Lemma iso_date_without_slash (s : jsstring) :
  iso_date s = true -> Forall (fun c => c <> ch_slash) s.
Proof.
  unfold iso_date.
  destruct s as [| y1 [| y2 [| y3 [| y4 [| s1 [| m1 [| m2 [| s2 [| d1 [| d2 [| x s]]]]]]]]]]];
    try discriminate.
  intros Hiso.
  apply andb_true_iff in Hiso as [Hiso Hs2]. apply andb_true_iff in Hiso as [Hdigits Hs1].
  apply N.eqb_eq in Hs1, Hs2. subst s1 s2.
  cbn [forallb] in Hdigits.
  repeat (apply andb_true_iff in Hdigits as [?Hdigit Hdigits]).
  repeat constructor; intros Heq; cbv in Heq; try discriminate Heq; subst;
    match goal with H : decimal_digit _ = true |- _ => cbv in H; discriminate H end.
Qed.

(** X21: [normalizeDate] never throws.  A string without a slash is returned
    as it is; a string the date pattern accepts, [m/d/yyyy], becomes
    [yyyy-mm-dd] with month and day padded to two digits, which is in the ISO
    form; and a date in the ISO form is left as it is, so normalising twice
    is normalising once. *)
Theorem normalizeDate_iso :
  (forall s, exists out, normalizeDate s = Ok out)
  /\ (forall s, includes s ch_slash = false -> normalizeDate s = Ok s)
  /\ (forall s, test_date s = true ->
        exists m d y,
          s = m ++ js "/" ++ d ++ js "/" ++ y
          /\ normalizeDate s = Ok (y ++ js "-" ++ padStart2 m ++ js "-" ++ padStart2 d)
          /\ iso_date (y ++ js "-" ++ padStart2 m ++ js "-" ++ padStart2 d) = true)
  /\ (forall s, iso_date s = true -> normalizeDate s = Ok s).
Proof.
  split; [| split; [| split]].
  - intros s. unfold normalizeDate. destruct (includes s ch_slash) eqn:Hin; [| eauto].
    destruct (includes_split _ _ Hin) as (a & b & rest & ->). eauto.
  - intros s Hin. unfold normalizeDate. rewrite Hin. reflexivity.
  - intros s Htest. exact (normalizeDate_of_date s Htest).
  - intros s Hiso. unfold normalizeDate.
    rewrite (includes_false _ _ (iso_date_without_slash s Hiso)). reflexivity.
Qed.

Lemma normalizeDate_iso_witness :
  test_date (js "3/4/2024") = true
  /\ exists m d y,
       js "3/4/2024" = m ++ js "/" ++ d ++ js "/" ++ y
       /\ normalizeDate (js "3/4/2024")
          = Ok (y ++ js "-" ++ padStart2 m ++ js "-" ++ padStart2 d)
       /\ iso_date (y ++ js "-" ++ padStart2 m ++ js "-" ++ padStart2 d) = true.
Proof.
  split; [reflexivity |].
  apply (proj1 (proj2 (proj2 normalizeDate_iso)) (js "3/4/2024")). reflexivity.
Defined.

(** ** The CSV import: identifiers *)

Lemma digits_of_uint_digits (d : Decimal.uint) :
  Forall (fun c => decimal_digit c = true) (digits_of_uint d).
Proof. induction d; cbn; constructor; auto. Qed.

Lemma digits_of_uint_inj (d e : Decimal.uint) :
  digits_of_uint d = digits_of_uint e -> d = e.
Proof.
  revert e. induction d as [| d IH | d IH | d IH | d IH | d IH | d IH | d IH | d IH | d IH | d IH];
    intros [| e | e | e | e | e | e | e | e | e | e] Heq; cbn in Heq;
    try discriminate Heq; try reflexivity;
    injection Heq as Heq; f_equal; apply IH; exact Heq.
Qed.

Lemma number_toString_inj (n m : N) :
  number_toString n = number_toString m -> n = m.
Proof.
  unfold number_toString. intros Heq. apply digits_of_uint_inj in Heq.
  exact (DecimalN.Unsigned.to_uint_inj n m Heq).
Qed.

(** Two runs of digits, each followed by a dash, that start equal strings
    are the same run. *)
Lemma digits_then_dash (a b r r' : jsstring) :
  Forall (fun c => decimal_digit c = true) a ->
  Forall (fun c => decimal_digit c = true) b ->
  a ++ ch_dash :: r = b ++ ch_dash :: r' -> a = b.
Proof.
  intros Ha. revert b. induction Ha as [| c a Hc _ IH]; intros b Hb Heq.
  - destruct Hb as [| d b Hd _]; [reflexivity |].
    cbn in Heq. injection Heq as <- _. discriminate Hd.
  - destruct Hb as [| d b Hd Hb].
    + cbn in Heq. injection Heq as -> _. discriminate Hc.
    + cbn in Heq. injection Heq as -> Heq. f_equal. exact (IH b Hb Heq).
Qed.

Lemma id_index_inj (prefix r r' : jsstring) (i j : nat) :
  prefix ++ number_toString (N.of_nat i) ++ js "-" ++ r
  = prefix ++ number_toString (N.of_nat j) ++ js "-" ++ r' -> i = j.
Proof.
  intros Heq. apply app_inv_head in Heq.
  apply digits_then_dash in Heq; try apply digits_of_uint_digits.
  apply number_toString_inj in Heq. lia.
Qed.

Section CsvImport.
Context `{CsvPlatform}.

Lemma imported_below_weaken (index index' : nat) (acc : Parsed) :
  (index <= index')%nat -> imported_below index acc -> imported_below index' acc.
Proof.
  intros Hle [Hj Hp Hdj Hdp Hij Hip].
  assert (Hweak : forall prefix ids,
             Forall (fun id => exists i, (i < index)%nat /\ line_id prefix i id) ids ->
             Forall (fun id => exists i, (i < index')%nat /\ line_id prefix i id) ids).
  { intros prefix ids Hids. eapply Forall_impl; [exact Hids |].
    intros id (i & Hi & Hid). exists i. split; [lia | exact Hid]. }
  split; auto.
Qed.

Lemma NoDup_snoc_below (prefix : jsstring) (index : nat) (ids : list jsstring) (id : jsstring) :
  Forall (fun id => exists i, (i < index)%nat /\ line_id prefix i id) ids ->
  NoDup ids -> line_id prefix index id -> NoDup (ids ++ [id]).
Proof.
  intros Hbelow Hnodup (r & Hid).
  apply NoDup_app. split; [exact Hnodup |]. split; [| apply NoDup_singleton].
  intros x Hx Hin. apply list_elem_of_singleton in Hin. subst x.
  rewrite Forall_forall in Hbelow. destruct (Hbelow _ Hx) as (i & Hi & r' & Hid').
  rewrite Hid in Hid'. apply id_index_inj in Hid'. lia.
Qed.

(** The job part of the loop body never throws, and adds at most one job. *)
Lemma job_of_line_below (index : nat) (cols : list jsstring) (acc : Parsed) :
  imported_below index acc ->
  exists acc1,
    job_of_line index cols acc = Ok acc1
    /\ parsed_payments acc1 = parsed_payments acc
    /\ (length (parsed_jobs acc1) <= S (length (parsed_jobs acc)))%nat
    /\ Forall (fun id => exists i, (i < S index)%nat /\ line_id (js "job-") i id)
              (imported_id <$> parsed_jobs acc1)
    /\ NoDup (imported_id <$> parsed_jobs acc1)
    /\ Forall (fun job => iso_date (imported_date job) = true) (parsed_jobs acc1).
Proof.
  intros Hinv.
  pose proof (imported_below_weaken index (S index) acc (Nat.le_succ_diag_r _) Hinv)
    as [Hj _ _ _ _ _].
  destruct Hinv as [Hj0 _ Hdj _ Hij _].
  assert (Hsame : exists acc1,
             Ok acc = Ok acc1
             /\ parsed_payments acc1 = parsed_payments acc
             /\ (length (parsed_jobs acc1) <= S (length (parsed_jobs acc)))%nat
             /\ Forall (fun id => exists i, (i < S index)%nat /\ line_id (js "job-") i id)
                       (imported_id <$> parsed_jobs acc1)
             /\ NoDup (imported_id <$> parsed_jobs acc1)
             /\ Forall (fun job => iso_date (imported_date job) = true) (parsed_jobs acc1)).
  { exists acc. repeat (split; [solve [auto] |]). exact Hij. }
  unfold job_of_line.
  destruct (cols !! 1%nat) as [[| c1 date] |]; try exact Hsame.
  destruct (cols !! 2%nat) as [[| c2 name] |]; try exact Hsame.
  destruct (test_date (c1 :: date)) eqn:Htest; [| exact Hsame].
  cbn [andb].
  destruct (negb (jsstring_eqb _ _)); [| exact Hsame].
  destruct (negb (includes_text _ _)); [| exact Hsame].
  cbn [andb].
  destruct (normalizeDate_of_date _ Htest) as (m & d & y & _ & -> & Hiso).
  cbn [mbind result_bind]. eexists. split; [reflexivity |]. cbn.
  split; [reflexivity |].
  split; [rewrite length_app; cbn; lia |].
  rewrite fmap_app. cbn [fmap list_fmap imported_id].
  split; [| split].
  - apply Forall_app. split; [exact Hj |]. constructor; [| constructor].
    exists index. split; [lia |]. eexists. reflexivity.
  - eapply NoDup_snoc_below; [exact Hj0 | exact Hdj |]. eexists. reflexivity.
  - apply Forall_app. split; [exact Hij |]. constructor; [exact Hiso | constructor].
Qed.

(** The payment part throws on a dangling line, and on no other; when it does
    not, it adds at most one payment. *)
Lemma payment_of_line_dangling (index : nat) (cols : list jsstring) (acc : Parsed) :
  dangling_payment cols = true ->
  exists message, payment_of_line index cols acc = Throw message.
Proof.
  unfold dangling_payment, payment_of_line.
  destruct (cols !! 11%nat) as [[| c11 date] |]; try discriminate.
  destruct (cols !! 12%nat); [discriminate |].
  intros ->. eauto.
Qed.

Lemma payment_of_line_below (index : nat) (cols : list jsstring) (acc : Parsed) :
  dangling_payment cols = false ->
  Forall (fun id => exists i, (i < index)%nat /\ line_id (js "pay-") i id)
         (paid_id <$> parsed_payments acc) ->
  NoDup (paid_id <$> parsed_payments acc) ->
  Forall (fun pay => iso_date (paid_date pay) = true) (parsed_payments acc) ->
  exists acc2,
    payment_of_line index cols acc = Ok acc2
    /\ parsed_jobs acc2 = parsed_jobs acc
    /\ (length (parsed_payments acc2) <= S (length (parsed_payments acc)))%nat
    /\ Forall (fun id => exists i, (i < S index)%nat /\ line_id (js "pay-") i id)
              (paid_id <$> parsed_payments acc2)
    /\ NoDup (paid_id <$> parsed_payments acc2)
    /\ Forall (fun pay => iso_date (paid_date pay) = true) (parsed_payments acc2).
Proof.
  intros Hdangling Hp0 Hdp Hip.
  assert (Hp : Forall (fun id => exists i, (i < S index)%nat /\ line_id (js "pay-") i id)
                      (paid_id <$> parsed_payments acc)).
  { eapply Forall_impl; [exact Hp0 |].
    intros id (i & Hi & Hid). exists i. split; [lia | exact Hid]. }
  assert (Hsame : exists acc2,
             Ok acc = Ok acc2
             /\ parsed_jobs acc2 = parsed_jobs acc
             /\ (length (parsed_payments acc2) <= S (length (parsed_payments acc)))%nat
             /\ Forall (fun id => exists i, (i < S index)%nat /\ line_id (js "pay-") i id)
                       (paid_id <$> parsed_payments acc2)
             /\ NoDup (paid_id <$> parsed_payments acc2)
             /\ Forall (fun pay => iso_date (paid_date pay) = true) (parsed_payments acc2)).
  { exists acc. repeat (split; [solve [auto] |]). exact Hip. }
  unfold dangling_payment in Hdangling. unfold payment_of_line.
  destruct (cols !! 11%nat) as [[| c11 date] |]; try exact Hsame.
  destruct (test_date (c11 :: date)) eqn:Htest; [| exact Hsame].
  destruct (cols !! 12%nat) as [town |]; [| discriminate].
  destruct (negb (includes_text town (js "Total"))); [| exact Hsame].
  destruct (normalizeDate_of_date _ Htest) as (m & d & y & _ & -> & Hiso).
  cbn [mbind result_bind]. eexists. split; [reflexivity |]. cbn.
  split; [reflexivity |].
  split; [rewrite length_app; cbn; lia |].
  rewrite fmap_app. cbn [fmap list_fmap paid_id].
  split; [| split].
  - apply Forall_app. split; [exact Hp |]. constructor; [| constructor].
    exists index. split; [lia |]. eexists. reflexivity.
  - eapply NoDup_snoc_below; [exact Hp0 | exact Hdp |]. eexists. reflexivity.
  - apply Forall_app. split; [exact Hip |]. constructor; [exact Hiso | constructor].
Qed.

(** The loop, from any line on: it throws exactly when a line that is left
    dangles, and what it returns keeps the invariant. *)
Lemma parse_lines_below (lines : list jsstring) (index : nat) (acc : Parsed) :
  imported_below index acc ->
  if existsb (fun line => dangling_payment (columns line)) lines
  then exists message, parse_lines index lines acc = Throw message
  else exists r,
         parse_lines index lines acc = Ok r
         /\ imported_below (index + length lines) r
         /\ (length (parsed_jobs r) <= length (parsed_jobs acc) + length lines)%nat
         /\ (length (parsed_payments r)
             <= length (parsed_payments acc) + length lines)%nat.
Proof.
  revert index acc. induction lines as [| line lines IH]; intros index acc Hinv.
  - cbn. exists acc. rewrite Nat.add_0_r. repeat split; try lia; apply Hinv.
  - cbn [existsb parse_lines length].
    destruct (job_of_line_below index (columns line) acc Hinv)
      as (acc1 & -> & Hpay1 & Hlen1 & Hj1 & Hdj1 & Hij1).
    cbn [mbind result_bind].
    destruct (dangling_payment (columns line)) eqn:Hdangling; cbn [orb].
    + destruct (payment_of_line_dangling index (columns line) acc1 Hdangling)
        as (message & ->). eauto.
    + destruct Hinv as [_ Hp0 _ Hdp0 _ Hip0]. rewrite <- Hpay1 in Hp0, Hdp0, Hip0.
      destruct (payment_of_line_below index (columns line) acc1 Hdangling Hp0 Hdp0 Hip0)
        as (acc2 & -> & Hjobs2 & Hlen2 & Hp2 & Hdp2 & Hip2).
      cbn [mbind result_bind].
      assert (Hinv2 : imported_below (S index) acc2).
      { split; try assumption; rewrite Hjobs2; assumption. }
      specialize (IH (S index) acc2 Hinv2).
      destruct (existsb _ lines); [exact IH |].
      destruct IH as (r & -> & Hr & Hlj & Hlp).
      exists r. split; [reflexivity |].
      replace (index + S (length lines))%nat with (S index + length lines)%nat by lia.
      split; [exact Hr |].
      rewrite Hjobs2 in Hlj. rewrite Hpay1 in Hlen2. split; lia.
Qed.

Lemma imported_below_nothing :
  imported_below 0 {| parsed_jobs := []; parsed_payments := []; random_calls := 0 |}.
Proof. split; cbn; constructor. Qed.

End CsvImport.

Section CsvTheorems.
Context `{CsvPlatform}.

(** X22: within one import the identifiers of the jobs are pairwise distinct,
    and so are those of the payments, whatever [Math.random] returns: each
    identifier carries the number of the line it was made on, and a line
    makes at most one job and one payment. *)
Theorem parseSubCSV_ids_distinct (csvText : jsstring) (r : Parsed) :
  parseSubCSV csvText = Ok r ->
  NoDup (imported_id <$> parsed_jobs r)
  /\ NoDup (paid_id <$> parsed_payments r)
  /\ Forall (fun id => exists i, (i < length (split ch_newline csvText))%nat
                                 /\ line_id (js "job-") i id)
            (imported_id <$> parsed_jobs r)
  /\ Forall (fun id => exists i, (i < length (split ch_newline csvText))%nat
                                 /\ line_id (js "pay-") i id)
            (paid_id <$> parsed_payments r).
Proof.
  unfold parseSubCSV. intros Hparse.
  pose proof (parse_lines_below (split ch_newline csvText) 0 _ imported_below_nothing)
    as Hloop.
  destruct (existsb _ _).
  - destruct Hloop as (message & Hthrow). congruence.
  - destruct Hloop as (r' & Hok & Hinv & _). rewrite Hok in Hparse.
    injection Hparse as ->. destruct Hinv as [Hj Hp Hdj Hdp _ _].
    repeat split; assumption.
Qed.

(** X23: every date [parseSubCSV] returns, of a job or of a payment, is in
    the ISO form [yyyy-mm-dd], the form the rest of the program compares and
    sorts dates in. *)
Theorem parseSubCSV_dates_iso (csvText : jsstring) (r : Parsed) :
  parseSubCSV csvText = Ok r ->
  Forall (fun job => iso_date (imported_date job) = true) (parsed_jobs r)
  /\ Forall (fun pay => iso_date (paid_date pay) = true) (parsed_payments r).
Proof.
  unfold parseSubCSV. intros Hparse.
  pose proof (parse_lines_below (split ch_newline csvText) 0 _ imported_below_nothing)
    as Hloop.
  destruct (existsb _ _).
  - destruct Hloop as (message & Hthrow). congruence.
  - destruct Hloop as (r' & Hok & Hinv & _). rewrite Hok in Hparse.
    injection Hparse as ->. destruct Hinv as [_ _ _ _ Hij Hip].
    split; assumption.
Qed.

(** X24: [parseSubCSV] throws exactly when some line has a date in column 11
    and no column 12 ([cols[12].includes] is read off [undefined]), wherever
    the line is and whatever the other lines hold: one such line and nothing
    is imported.  Otherwise it returns, with at most one job and one payment
    for each line. *)
Theorem parseSubCSV_dangling_line (csvText : jsstring) :
  let lines := split ch_newline csvText in
  if existsb (fun line => dangling_payment (columns line)) lines
  then exists message, parseSubCSV csvText = Throw message
  else exists r,
         parseSubCSV csvText = Ok r
         /\ (length (parsed_jobs r) <= length lines)%nat
         /\ (length (parsed_payments r) <= length lines)%nat.
Proof.
  intros lines. unfold parseSubCSV. fold lines.
  pose proof (parse_lines_below lines 0 _ imported_below_nothing) as Hloop.
  destruct (existsb _ lines); [exact Hloop |].
  destruct Hloop as (r & Hok & _ & Hlj & Hlp). exists r. cbn in Hlj, Hlp. auto.
Qed.

End CsvTheorems.

Lemma parseSubCSV_ids_distinct_witness :
  @parseSubCSV sample_platform sample_csv = Ok sample_imported
  /\ NoDup (imported_id <$> parsed_jobs sample_imported)
  /\ NoDup (paid_id <$> parsed_payments sample_imported)
  /\ Forall (fun id => exists i, (i < length (split ch_newline sample_csv))%nat
                                 /\ line_id (js "job-") i id)
            (imported_id <$> parsed_jobs sample_imported)
  /\ Forall (fun id => exists i, (i < length (split ch_newline sample_csv))%nat
                                 /\ line_id (js "pay-") i id)
            (paid_id <$> parsed_payments sample_imported).
Proof.
  split; [vm_compute; reflexivity |].
  apply (@parseSubCSV_ids_distinct sample_platform sample_csv sample_imported).
  vm_compute; reflexivity.
Defined.

Lemma parseSubCSV_dates_iso_witness :
  @parseSubCSV sample_platform sample_csv = Ok sample_imported
  /\ Forall (fun job => iso_date (imported_date job) = true) (parsed_jobs sample_imported)
  /\ Forall (fun pay => iso_date (paid_date pay) = true) (parsed_payments sample_imported).
Proof.
  split; [vm_compute; reflexivity |].
  apply (@parseSubCSV_dates_iso sample_platform sample_csv sample_imported).
  vm_compute; reflexivity.
Defined.

Lemma parseSubCSV_dangling_line_witness :
  exists message, @parseSubCSV sample_platform truncated_csv = Throw message.
Proof. exact (@parseSubCSV_dangling_line sample_platform truncated_csv). Defined.

(** ** The client sync controller *)

Local Open Scope nat_scope.

Lemma debouncedSave_pending (js_ : list Job) (ps : list Payment) (st : App) :
  pending_ok st ->
  timers (debouncedSave js_ ps st)
  = [scheduled_save st {| data_jobs := js_; data_payments := ps |}].
Proof.
  unfold pending_ok, debouncedSave, scheduled_save.
  destruct (timers st) as [|t [|t' rest]] eqn:Htimers; [| | contradiction].
  - intros _. destruct (saveTimeoutRef st) as [[|id]|]; cbn; rewrite Htimers; reflexivity.
  - intros (Href & Hid & _). rewrite Href.
    destruct (timer_id t) as [|id] eqn:Ht; [lia |].
    cbn. rewrite Htimers. cbn. rewrite Ht, Nat.eqb_refl. reflexivity.
Qed.

Lemma debouncedSave_well_formed (js_ : list Job) (ps : list Payment) (st : App) :
  well_formed st -> saveEffectDeps st <> None ->
  well_formed (debouncedSave js_ ps st).
Proof.
  intros (Hnext & Hpending & Hj & Hp & Hdeps) Hmounted.
  pose proof (debouncedSave_pending js_ ps st Hpending) as Htimers.
  unfold well_formed, pending_ok. rewrite Htimers.
  unfold debouncedSave, scheduled_save, DEBOUNCE_MS in *.
  destruct (saveTimeoutRef st) as [[|id]|]; cbn in *;
    (destruct (saveEffectDeps st); [| congruence]);
    repeat split; auto; lia.
Qed.

Lemma render_mounted (st : App) : mounted (render st) = true.
Proof.
  unfold render, mounted. destruct (decide _) as [Hsame | _].
  - rewrite Hsame. reflexivity.
  - unfold saveEffect. cbn [isInitialMount record_deps isLoading].
    destruct (isInitialMount st); [reflexivity |].
    destruct (isLoading st); cbn [negb]; [reflexivity |].
    unfold debouncedSave. cbn [saveTimeoutRef record_deps].
    destruct (saveTimeoutRef st) as [[|id]|]; reflexivity.
Qed.

Lemma render_consistent (st : App) : well_formed st -> consistent (render st).
Proof.
  intros Hwf. unfold render. destruct (decide _) as [Hsame | Hchanged].
  - split; [exact Hwf | intros _; exact Hsame].
  - pose proof Hwf as (Hnext & Hpending & Hj & Hp & Hdeps).
    unfold saveEffect. cbn [isInitialMount record_deps isLoading jobs payments].
    destruct (isInitialMount st) eqn:Hinit.
    + split; [| intros _; reflexivity].
      repeat split; assumption.
    + assert (Hrecorded : well_formed (record_deps st)).
      { repeat split; assumption. }
      destruct (isLoading st) eqn:Hloading; cbn [negb].
      * split; [exact Hrecorded | intros _; reflexivity].
      * split.
        -- apply debouncedSave_well_formed; [exact Hrecorded | discriminate].
        -- intros _. unfold debouncedSave. cbn [saveTimeoutRef record_deps].
           destruct (saveTimeoutRef st) as [[|id]|]; cbn; unfold current_deps; cbn;
             rewrite Hloading; reflexivity.
Qed.

Lemma well_formed_setJobs f (st : App) :
  well_formed st -> mounted st = true -> well_formed (setJobs f st).
Proof.
  unfold well_formed, pending_ok, mounted. cbn.
  destruct (saveEffectDeps st); [| discriminate]. intuition lia.
Qed.

Lemma well_formed_setPayments f (st : App) :
  well_formed st -> mounted st = true -> well_formed (setPayments f st).
Proof.
  unfold well_formed, pending_ok, mounted. cbn.
  destruct (saveEffectDeps st); [| discriminate]. intuition lia.
Qed.

Lemma well_formed_setIsLoading b (st : App) :
  well_formed st -> mounted st = true -> well_formed (setIsLoading b st).
Proof.
  unfold well_formed, pending_ok, mounted. cbn.
  destruct (saveEffectDeps st); [| discriminate]. intuition lia.
Qed.

Lemma well_formed_setIsSaving b (st : App) :
  well_formed st -> well_formed (setIsSaving b st).
Proof. unfold well_formed, pending_ok. cbn. intuition lia. Qed.

Lemma well_formed_apply_mutation m (st : App) :
  well_formed st -> mounted st = true -> well_formed (apply_mutation m st).
Proof.
  intros Hwf Hmounted. destruct m; cbn [apply_mutation].
  - apply well_formed_setJobs; assumption.
  - apply well_formed_setPayments; assumption.
  - apply well_formed_setPayments; [apply well_formed_setJobs; assumption | exact Hmounted].
Qed.

Lemma consistent_advance ms (st : App) : consistent st -> consistent (advance ms st).
Proof.
  intros [(Hnext & Hpending & Hj & Hp & Hdeps) Hseen].
  split; [| exact Hseen].
  unfold well_formed, pending_ok in *. cbn.
  repeat split; try assumption.
  - destruct (timers st) as [|t [|t' rest]]; [exact I | | contradiction].
    cbn. unfold is_due. destruct (Nat.leb_spec (due t) (now st + ms)); cbn; [exact I |].
    destruct Hpending as (Href & Hid & _). auto.
  - destruct (saveEffectDeps st); [exact Hdeps |].
    destruct Hdeps as (Hl & Hi & Ht). rewrite Ht. auto.
Qed.

Lemma consistent_initial : consistent initial.
Proof.
  split; [| discriminate].
  unfold well_formed, pending_ok. cbn. repeat split; lia.
Qed.

Lemma consistent_step batching e (st : App) :
  consistent st -> consistent (step batching e st).
Proof.
  intros Hst. pose proof Hst as [Hwf Hseen].
  destruct e as [| data | m | | ms |]; cbn [step].
  - unfold mount. destruct (saveEffectDeps st) eqn:Hdeps; [exact Hst |].
    apply render_consistent.
    unfold well_formed, pending_ok in *. cbn. rewrite Hdeps in *. exact Hwf.
  - destruct (mounted st) eqn:Hmounted; [| exact Hst].
    destruct (isLoading st); [| exact Hst]. cbn [andb].
    unfold loadData_resolved. destruct batching.
    + apply render_consistent, well_formed_setIsLoading.
      * apply well_formed_setPayments; [apply well_formed_setJobs; assumption |].
        exact Hmounted.
      * exact Hmounted.
    + apply render_consistent, well_formed_setIsLoading; [| apply render_mounted].
      apply render_consistent, well_formed_setPayments; [| apply render_mounted].
      apply render_consistent, well_formed_setJobs; assumption.
  - destruct (mounted st) eqn:Hmounted; [| exact Hst].
    apply render_consistent, well_formed_apply_mutation; assumption.
  - destruct (mounted st); [| exact Hst]. apply render_consistent, Hwf.
  - apply consistent_advance, Hst.
  - destruct (mounted st); [| exact Hst].
    apply render_consistent, well_formed_setIsSaving, Hwf.
Qed.

Lemma reachable_consistent batching (st : App) :
  reachable batching st -> consistent st.
Proof.
  induction 1 as [| e st _ IH]; [apply consistent_initial | apply consistent_step, IH].
Qed.

(** A consistent component that is not loading is mounted. *)
Lemma ready_mounted (st : App) :
  consistent st -> isLoading st = false -> mounted st = true.
Proof.
  intros [(_ & _ & _ & _ & Hdeps) _] Hready. unfold mounted.
  destruct (saveEffectDeps st); [reflexivity |].
  destruct Hdeps as (Hloading & _). congruence.
Qed.

Lemma dataset_apply_mutation m (st : App) :
  dataset (apply_mutation m st) = mutate_data m (dataset st).
Proof. destruct m; reflexivity. Qed.

(** A mutation in the ready state: the save effect runs, whatever was pending
    is cleared, and one save of the new dataset is scheduled a debounce
    window from now. *)
Lemma mutate_ready batching m (st : App) :
  consistent st -> isLoading st = false ->
  let st' := step batching (Mutate m) st in
  timers st' = [scheduled_save st (mutate_data m (dataset st))]
  /\ network st' = network st
  /\ now st' = now st
  /\ isLoading st' = false
  /\ dataset st' = mutate_data m (dataset st).
Proof.
  intros Hst Hready. cbn [step].
  rewrite (ready_mounted st Hst Hready).
  pose proof Hst as [Hwf Hseen].
  specialize (Hseen (ready_mounted st Hst Hready)).
  pose proof (well_formed_apply_mutation m st Hwf (ready_mounted st Hst Hready))
    as (_ & Hpending & _ & _ & Hinit).
  destruct Hwf as (_ & _ & Hj & Hp & _).
  assert (Hsame : saveEffectDeps (apply_mutation m st) = saveEffectDeps st)
    by (destruct m; reflexivity).
  assert (Hloading : isLoading (apply_mutation m st) = false)
    by (destruct m; exact Hready).
  assert (Hnow : now (apply_mutation m st) = now st) by (destruct m; reflexivity).
  assert (Hnet : network (apply_mutation m st) = network st) by (destruct m; reflexivity).
  assert (Hid : nextTimerId (apply_mutation m st) = nextTimerId st)
    by (destruct m; reflexivity).
  assert (Hchanged : saveEffectDeps (apply_mutation m st)
                     <> Some (current_deps (apply_mutation m st))).
  { rewrite Hsame, Hseen. unfold current_deps.
    destruct m; cbn; intros [= ]; lia. }
  rewrite Hsame in Hinit. rewrite Hseen in Hinit.
  unfold render. destruct (decide _) as [Heq | _]; [contradiction |].
  unfold saveEffect. cbn [isInitialMount record_deps isLoading jobs payments].
  rewrite Hinit, Hloading. cbn [negb].
  set (st1 := record_deps (apply_mutation m st)).
  assert (Hpending1 : pending_ok st1) by exact Hpending.
  pose proof (debouncedSave_pending (items (jobs (apply_mutation m st)))
                (items (payments (apply_mutation m st))) st1 Hpending1) as Htimers.
  split.
  { rewrite Htimers. unfold scheduled_save. cbn [nextTimerId now st1 record_deps].
    rewrite Hid, Hnow, <- dataset_apply_mutation. reflexivity. }
  unfold debouncedSave. cbn [saveTimeoutRef st1 record_deps].
  destruct (saveTimeoutRef (apply_mutation m st)) as [[|id]|]; cbn;
    rewrite ?Hnet, ?Hnow, ?Hloading; repeat split; try reflexivity;
    apply dataset_apply_mutation.
Qed.

Lemma advance_before_due ms t (st : App) :
  timers st = [t] -> now st + ms < due t ->
  timers (advance ms st) = [t] /\ network (advance ms st) = network st.
Proof.
  intros Htimers Hearly. unfold advance. cbn. rewrite Htimers. cbn.
  unfold is_due. destruct (Nat.leb_spec (due t) (now st + ms)); [lia |].
  cbn. rewrite app_nil_r. split; reflexivity.
Qed.

Lemma advance_past_due ms t (st : App) :
  timers st = [t] -> due t <= now st + ms ->
  timers (advance ms st) = [] /\ network (advance ms st) = network st ++ [save_call_of t].
Proof.
  intros Htimers Hlate. unfold advance. cbn. rewrite Htimers. cbn.
  unfold is_due. destruct (Nat.leb_spec (due t) (now st + ms)); [| lia].
  cbn. split; reflexivity.
Qed.

Lemma run_burst_cons batching m gap (rest : list (Mutation * nat)) (st : App) :
  run batching (burst_events ((m, gap) :: rest)) st
  = run batching (burst_events rest) (advance gap (step batching (Mutate m) st)).
Proof. reflexivity. Qed.

Lemma burst_network batching (prefix : list (Mutation * nat)) m gap :
  Forall (fun mg => snd mg < DEBOUNCE_MS) prefix -> DEBOUNCE_MS <= gap ->
  forall st, consistent st -> isLoading st = false ->
  let burst := prefix ++ [(m, gap)] in
  let st' := run batching (burst_events burst) st in
  network st'
  = network st
    ++ [SaveDataCall (now st + total_pause prefix + DEBOUNCE_MS)
          (mutate_all (List.map fst burst) (dataset st))]
  /\ dataset st' = mutate_all (List.map fst burst) (dataset st)
  /\ timers st' = [].
Proof.
  intros Hprefix Hgap.
  induction Hprefix as [| [m1 gap1] prefix Hshort _ IH]; intros st Hst Hready;
    cbn zeta; cbn [app]; rewrite run_burst_cons.
  - destruct (mutate_ready batching m st Hst Hready) as (Htimers & Hnet & Hnow & _ & Hdata).
    destruct (advance_past_due gap _ _ Htimers) as (Hfired & Hsent).
    { rewrite Hnow. cbn [due scheduled_save]. lia. }
    cbn [burst_events flat_map run fold_left].
    rewrite Hsent, Hnet. unfold save_call_of, scheduled_save.
    cbn [due jobsToSave paymentsToSave total_pause List.map list_sum fst mutate_all
         fold_left].
    rewrite Nat.add_0_r. repeat split.
    + destruct (mutate_data m (dataset st)); reflexivity.
    + exact Hdata.
    + exact Hfired.
  - cbn [snd] in Hshort.
    destruct (mutate_ready batching m1 st Hst Hready)
      as (Htimers & Hnet & Hnow & Hready1 & Hdata).
    destruct (advance_before_due gap1 _ _ Htimers) as (Hkept & Hquiet).
    { rewrite Hnow. cbn [due scheduled_save]. lia. }
    set (st1 := step batching (Mutate m1) st) in *.
    set (st2 := advance gap1 st1).
    assert (Hst2 : consistent st2).
    { apply (consistent_step batching (Advance gap1)).
      apply (consistent_step batching (Mutate m1)). exact Hst. }
    specialize (IH st2 Hst2 Hready1).
    cbn zeta in IH. destruct IH as (IHnet & IHdata & IHtimers).
    rewrite IHnet, IHdata. split; [| split; [| exact IHtimers]].
    + change (network st2) with (network (advance gap1 st1)). rewrite Hquiet, Hnet.
      change (now st2) with (now st1 + gap1). rewrite Hnow.
      change (dataset st2) with (dataset st1). rewrite Hdata.
      replace (now st + gap1 + total_pause prefix + DEBOUNCE_MS)
        with (now st + total_pause ((m1, gap1) :: prefix) + DEBOUNCE_MS)
        by (unfold total_pause; simpl; lia).
      reflexivity.
    + change (dataset st2) with (dataset st1). rewrite Hdata. reflexivity.
Qed.

Lemma reachable_run batching events (st : App) :
  reachable batching st -> reachable batching (run batching events st).
Proof.
  revert st. induction events as [| e events IH]; intros st Hst; [exact Hst |].
  apply IH. constructor. exact Hst.
Qed.

(** Mutations and pauses keep a ready component ready. *)
Lemma burst_ready batching (burst : list (Mutation * nat)) (st : App) :
  consistent st -> isLoading st = false ->
  consistent (run batching (burst_events burst) st)
  /\ isLoading (run batching (burst_events burst) st) = false.
Proof.
  revert st. induction burst as [| [m gap] burst IH]; intros st Hst Hready.
  - split; assumption.
  - rewrite run_burst_cons. apply IH.
    + apply (consistent_step batching (Advance gap)).
      apply (consistent_step batching (Mutate m)). exact Hst.
    + apply (mutate_ready batching m st Hst Hready).
Qed.

Lemma saveDataCalls_app (st : App) (calls : list NetCall) (st' : App) :
  network st' = network st ++ calls ->
  saveDataCalls st'
  = saveDataCalls st
    ++ omap (fun c => match c with
                      | SaveDataCall t d => Some (t, d)
                      | FetchDataCall _ => None
                      end) calls.
Proof. intros Hnet. unfold saveDataCalls. rewrite Hnet. apply omap_app. Qed.

(** C7: from any reachable ready state, a burst of mutations, each less than
    the debounce window after the one before, followed by a pause of at least
    the window, adds exactly one [saveData] call to the log: it is issued one
    window after the last mutation and carries the dataset as the last
    mutation left it.  Along the way every mutation leaves exactly one timer
    pending, its own: what was pending before is cancelled. *)
Theorem burst_saves_once batching (st : App) (prefix : list (Mutation * nat)) m gap :
  reachable batching st -> isLoading st = false ->
  Forall (fun mg => snd mg < DEBOUNCE_MS) prefix -> DEBOUNCE_MS <= gap ->
  let burst := prefix ++ [(m, gap)] in
  let st' := run batching (burst_events burst) st in
  saveDataCalls st'
  = saveDataCalls st
    ++ [(now st + total_pause prefix + DEBOUNCE_MS,
         mutate_all (List.map fst burst) (dataset st))]
  /\ dataset st' = mutate_all (List.map fst burst) (dataset st)
  /\ timers st' = []
  /\ (forall before m',
        let sti := run batching (burst_events before) st in
        timers (step batching (Mutate m') sti)
        = [scheduled_save sti (mutate_data m' (dataset sti))]).
Proof.
  intros Hreach Hready Hprefix Hgap burst st'.
  pose proof (reachable_consistent batching st Hreach) as Hst.
  destruct (burst_network batching prefix m gap Hprefix Hgap st Hst Hready)
    as (Hnet & Hdata & Htimers).
  split; [| split; [exact Hdata | split; [exact Htimers |]]].
  - rewrite (saveDataCalls_app st _ st' Hnet). reflexivity.
  - intros before m' sti.
    destruct (burst_ready batching before st Hst Hready) as (Hsti & Hreadyi).
    apply (mutate_ready batching m' sti Hsti Hreadyi).
Qed.

Lemma burst_saves_once_witness :
  let st := run true [Mount; LoadResolved sample_fetched; Advance 600] initial in
  let burst := [(deleteJob_confirmed (js "job-1"), 100); (wipeAll_confirmed, 499);
                (handleSaveJob None sample_job, 500)] in
  isLoading st = false
  /\ saveDataCalls (run true (burst_events burst) st)
     = saveDataCalls st
       ++ [(1699, {| data_jobs := [sample_job]; data_payments := [] |})].
Proof.
  intros st burst. split; [reflexivity |].
  apply (burst_saves_once true st
           [(deleteJob_confirmed (js "job-1"), 100); (wipeAll_confirmed, 499)]
           (handleSaveJob None sample_job) 500).
  - apply reachable_run, reachable_initial.
  - reflexivity.
  - repeat constructor; cbn; unfold DEBOUNCE_MS; lia.
  - unfold DEBOUNCE_MS. lia.
Defined.

(** After the load resolves a save is scheduled, whatever was loaded; left
    alone for a debounce window, the component issues it. *)
Lemma load_then_quiet_saves batching (data : FetchedData) (wait gap : nat) :
  DEBOUNCE_MS <= gap ->
  saveDataCalls
    (run batching [Mount; Advance wait; LoadResolved data; Advance gap] initial)
  = [(wait + DEBOUNCE_MS,
      {| data_jobs := or_empty (fetched_jobs data);
         data_payments := or_empty (fetched_payments data) |})].
Proof.
  intros Hgap.
  set (loaded := run batching [Mount; Advance wait; LoadResolved data] initial).
  assert (Htimers : timers loaded
                    = [{| timer_id := 1;
                          due := wait + DEBOUNCE_MS;
                          jobsToSave := or_empty (fetched_jobs data);
                          paymentsToSave := or_empty (fetched_payments data) |}])
    by (destruct batching; reflexivity).
  assert (Hnow : now loaded = wait) by (destruct batching; reflexivity).
  assert (Hnet : network loaded = [FetchDataCall 0]) by (destruct batching; reflexivity).
  destruct (advance_past_due gap _ loaded Htimers) as (_ & Hsent).
  { rewrite Hnow. cbn [due]. lia. }
  change (run batching [Mount; Advance wait; LoadResolved data; Advance gap] initial)
    with (advance gap loaded).
  unfold saveDataCalls. rewrite Hsent, Hnet. reflexivity.
Qed.

(** C2: the component mounts, [fetchData] resolves, and nothing else happens
    for 500 ms.  One [saveData] call has been issued, with the dataset just
    loaded. *)
Theorem initial_load_triggers_save (batching : bool) :
  saveDataCalls (run batching [Mount; LoadResolved sample_fetched; Advance 500] initial)
  = [(500, {| data_jobs := [sample_job]; data_payments := [sample_payment] |})].
Proof. destruct batching; vm_compute; reflexivity. Qed.

(** ** More on the client sync controller *)

(** What a render can do: it never touches the clock, the network log or the
    dataset; the pending timers are left alone or replaced by the one save
    scheduled now. *)
Lemma render_effect (st : App) :
  pending_ok st ->
  now (render st) = now st
  /\ network (render st) = network st
  /\ jobs (render st) = jobs st
  /\ payments (render st) = payments st
  /\ isLoading (render st) = isLoading st
  /\ (timers (render st) = timers st
      \/ (isLoading st = false /\ timers (render st) = [scheduled_save st (dataset st)])).
Proof.
  intros Hpending. unfold render.
  destruct (decide _) as [_ | _]; [repeat split; auto |].
  unfold saveEffect. cbn [isInitialMount record_deps isLoading].
  destruct (isInitialMount st); [repeat split; auto |].
  destruct (isLoading st) eqn:Hloading; cbn [negb]; [repeat split; auto |].
  assert (Hp : pending_ok (record_deps st)) by exact Hpending.
  pose proof (debouncedSave_pending (items (jobs (record_deps st)))
                (items (payments (record_deps st))) (record_deps st) Hp) as Htimers.
  unfold debouncedSave in *. cbn [saveTimeoutRef record_deps] in *.
  destruct (saveTimeoutRef st) as [[| id] |]; cbn in *;
    repeat split; auto; right; split; auto.
Qed.

Lemma render_loading (st : App) :
  isLoading st = true ->
  timers (render st) = timers st /\ network (render st) = network st
  /\ isLoading (render st) = true.
Proof.
  intros Hloading. unfold render.
  destruct (decide _) as [_ | _]; [auto |].
  unfold saveEffect. cbn [isInitialMount record_deps isLoading].
  destruct (isInitialMount st); [auto |].
  rewrite Hloading. cbn [negb]. auto.
Qed.

Lemma render_seen (st : App) :
  saveEffectDeps st = Some (current_deps st) -> render st = st.
Proof. intros Hseen. unfold render. destruct (decide _); [reflexivity | contradiction]. Qed.

Lemma saveDataCalls_fetch_call (t : nat) (st : App) :
  saveDataCalls (call (FetchDataCall t) st) = saveDataCalls st.
Proof.
  unfold saveDataCalls. cbn [network call]. rewrite omap_app. cbn. apply app_nil_r.
Qed.

(** While the first load is in flight nothing is scheduled and nothing has
    been saved. *)
Lemma loading_quiet batching (st : App) :
  reachable batching st -> isLoading st = true ->
  timers st = [] /\ saveDataCalls st = [].
Proof.
  induction 1 as [| e st Hreach IH]; [split; reflexivity |].
  pose proof (reachable_consistent batching st Hreach) as [Hwf Hseen].
  destruct e as [| data | m | | ms |]; cbn [step].
  - unfold mount. destruct (saveEffectDeps st) eqn:Hdeps; [exact IH |].
    intros Hloading.
    destruct (render_loading (call (FetchDataCall (now st)) st)) as (Ht & Hn & Hl).
    { destruct Hwf as (_ & _ & _ & _ & Hnone). rewrite Hdeps in Hnone. apply Hnone. }
    destruct Hwf as (_ & _ & _ & _ & Hnone). rewrite Hdeps in Hnone.
    destruct Hnone as (Hl0 & _ & Ht0). destruct (IH Hl0) as (_ & Hs0).
    split; [rewrite Ht; exact Ht0 |].
    unfold saveDataCalls. rewrite Hn.
    fold (saveDataCalls (call (FetchDataCall (now st)) st)).
    rewrite saveDataCalls_fetch_call. exact Hs0.
  - destruct (mounted st && isLoading st) eqn:Hguard; [| exact IH].
    intros Hloading. exfalso.
    apply andb_true_iff in Hguard as [Hmounted _].
    pose proof (well_formed_setJobs (fun _ => or_empty (fetched_jobs data)) st Hwf Hmounted)
      as Hwf1.
    unfold loadData_resolved in Hloading. destruct batching.
    + pose proof (well_formed_setPayments (fun _ => or_empty (fetched_payments data)) _
                    Hwf1 Hmounted) as Hwf2.
      pose proof (well_formed_setIsLoading false _ Hwf2 Hmounted) as (_ & Hp & _).
      destruct (render_effect _ Hp) as (_ & _ & _ & _ & Hl & _).
      rewrite Hl in Hloading. discriminate.
    + pose proof (render_consistent _ Hwf1) as [Hwf1' _].
      pose proof (well_formed_setPayments (fun _ => or_empty (fetched_payments data)) _
                    Hwf1' (render_mounted _)) as Hwf2.
      pose proof (render_consistent _ Hwf2) as [Hwf2' _].
      pose proof (well_formed_setIsLoading false _ Hwf2' (render_mounted _)) as (_ & Hp & _).
      destruct (render_effect _ Hp) as (_ & _ & _ & _ & Hl & _).
      rewrite Hl in Hloading. discriminate.
  - destruct (mounted st) eqn:Hmounted; [| exact IH].
    intros Hloading.
    assert (Hl0 : isLoading (apply_mutation m st) = isLoading st) by (destruct m; reflexivity).
    pose proof (well_formed_apply_mutation m st Hwf Hmounted) as (_ & Hp & _).
    destruct (render_effect _ Hp) as (_ & _ & _ & _ & Hl & _).
    rewrite Hl, Hl0 in Hloading. destruct (IH Hloading) as (Ht0 & Hs0).
    destruct (render_loading (apply_mutation m st)) as (Ht & Hn & _);
      [congruence |].
    unfold saveDataCalls in *. rewrite Ht, Hn.
    assert (Ht1 : timers (apply_mutation m st) = timers st) by (destruct m; reflexivity).
    assert (Hn1 : network (apply_mutation m st) = network st) by (destruct m; reflexivity).
    rewrite Ht1, Hn1. auto.
  - destruct (mounted st) eqn:Hmounted; [| exact IH].
    rewrite (render_seen st (Hseen eq_refl)). exact IH.
  - intros Hloading. destruct (IH Hloading) as (Ht0 & Hs0).
    unfold saveDataCalls in *. cbn [timers network advance].
    rewrite Ht0. cbn. rewrite app_nil_r. auto.
  - destruct (mounted st) eqn:Hmounted; [| exact IH].
    rewrite render_seen by (apply (Hseen eq_refl)). exact IH.
Qed.

(** X14: whatever happens while the first load is in flight, mutations
    included, no save is scheduled and none is issued. *)
Theorem no_save_while_loading batching (st : App) :
  reachable batching st -> isLoading st = true ->
  timers st = [] /\ saveDataCalls st = [].
Proof. apply loading_quiet. Qed.

Lemma no_save_while_loading_witness :
  let st := run true [Mount; Mutate (handleSaveJob None sample_job); Advance 2000] initial in
  isLoading st = true /\ timers st = [] /\ saveDataCalls st = [].
Proof.
  intros st.
  assert (Hloading : isLoading st = true) by (vm_compute; reflexivity).
  split; [exact Hloading |].
  apply (no_save_while_loading true st).
  - apply reachable_run, reachable_initial.
  - exact Hloading.
Defined.

(** X15: a render caused by state outside the dataset (a tab, a form, a
    filter) leaves the component as it is: the save effect does not run, so
    nothing is scheduled and nothing is cancelled; the end of a save only
    clears [isSaving]. *)
Theorem rerender_leaves_schedule batching (st : App) :
  reachable batching st ->
  step batching Rerender st = st
  /\ step batching SaveSettled st = (if mounted st then setIsSaving false st else st).
Proof.
  intros Hreach. pose proof (reachable_consistent batching st Hreach) as [_ Hseen].
  cbn [step]. destruct (mounted st) eqn:Hmounted; [| split; reflexivity].
  split; apply render_seen; apply (Hseen eq_refl).
Qed.

Lemma rerender_leaves_schedule_witness :
  let st := run true [Mount; LoadResolved sample_fetched; Advance 100] initial in
  step true Rerender st = st /\ timers (step true SaveSettled st) = timers st.
Proof.
  intros st.
  destruct (rerender_leaves_schedule true st) as (Hre & Hsettled).
  - apply reachable_run, reachable_initial.
  - split; [exact Hre |]. rewrite Hsettled. vm_compute. reflexivity.
Defined.

Lemma render_loading_frame (st : App) :
  isLoading st = true ->
  now (render st) = now st
  /\ items (jobs (render st)) = items (jobs st)
  /\ items (payments (render st)) = items (payments st).
Proof.
  intros Hloading. unfold render.
  destruct (decide _) as [_ | _]; [auto |].
  unfold saveEffect. cbn [isInitialMount record_deps isLoading].
  destruct (isInitialMount st); [auto |].
  rewrite Hloading. cbn [negb]. auto.
Qed.

(** What the end of the load does to a loading component with nothing
    pending: the dataset is the one fetched, the component is ready, nothing
    is sent, and what is pending afterwards is due a debounce window later
    and carries the dataset. *)
Lemma loadData_resolved_effect batching data (st : App) :
  well_formed st -> mounted st = true -> isLoading st = true -> timers st = [] ->
  let st' := loadData_resolved batching data st in
  now st' = now st
  /\ network st' = network st
  /\ isLoading st' = false
  /\ (forall t, In t (timers st') ->
      due t = now st + DEBOUNCE_MS
      /\ jobsToSave t = items (jobs st')
      /\ paymentsToSave t = items (payments st')).
Proof.
  intros Hwf Hmounted Hloading Hnone. cbn zeta.
  assert (Hlast : forall st2 : App,
             pending_ok (setIsLoading false st2) -> now st2 = now st ->
             network st2 = network st -> timers st2 = [] ->
             now (render (setIsLoading false st2)) = now st
             /\ network (render (setIsLoading false st2)) = network st
             /\ isLoading (render (setIsLoading false st2)) = false
             /\ (forall t, In t (timers (render (setIsLoading false st2))) ->
                 due t = now st + DEBOUNCE_MS
                 /\ jobsToSave t = items (jobs (render (setIsLoading false st2)))
                 /\ paymentsToSave t = items (payments (render (setIsLoading false st2))))).
  { intros st2 Hp Hn Hnet Ht.
    destruct (render_effect _ Hp) as (Hn3 & Hnet3 & Hj3 & Hpay3 & Hl3 & Ht3).
    rewrite Hn3, Hnet3, Hl3, Hj3, Hpay3.
    split; [exact Hn |]. split; [exact Hnet |]. split; [reflexivity |].
    intros t Hin. destruct Ht3 as [Ht3 | [_ Ht3]]; rewrite Ht3 in Hin.
    - cbn [timers setIsLoading] in Hin. rewrite Ht in Hin. destruct Hin.
    - destruct Hin as [<- | []].
      unfold scheduled_save, dataset. cbn [due jobsToSave paymentsToSave now setIsLoading
                                           data_jobs data_payments jobs payments].
      rewrite Hn. auto. }
  pose proof (well_formed_setJobs (fun _ => or_empty (fetched_jobs data)) st Hwf Hmounted)
    as Hwf1.
  unfold loadData_resolved. destruct batching.
  - pose proof (well_formed_setPayments (fun _ => or_empty (fetched_payments data)) _
                  Hwf1 Hmounted) as Hwf2.
    pose proof (well_formed_setIsLoading false _ Hwf2 Hmounted) as (_ & Hp & _).
    apply Hlast; [exact Hp | reflexivity | reflexivity | exact Hnone].
  - set (st1 := render (setJobs (fun _ => or_empty (fetched_jobs data)) st)).
    destruct (render_loading (setJobs (fun _ => or_empty (fetched_jobs data)) st) Hloading)
      as (Ht1 & Hnet1 & Hl1).
    destruct (render_loading_frame (setJobs (fun _ => or_empty (fetched_jobs data)) st)
                Hloading) as (Hn1 & _).
    pose proof (render_consistent _ Hwf1) as [Hwf1' _].
    fold st1 in Ht1, Hnet1, Hl1, Hn1, Hwf1'.
    pose proof (well_formed_setPayments (fun _ => or_empty (fetched_payments data)) st1
                  Hwf1' (render_mounted _)) as Hwf2.
    set (st2 := render (setPayments (fun _ => or_empty (fetched_payments data)) st1)).
    destruct (render_loading (setPayments (fun _ => or_empty (fetched_payments data)) st1) Hl1)
      as (Ht2 & Hnet2 & Hl2).
    destruct (render_loading_frame
                (setPayments (fun _ => or_empty (fetched_payments data)) st1) Hl1)
      as (Hn2 & _).
    pose proof (render_consistent _ Hwf2) as [Hwf2' _].
    fold st2 in Ht2, Hnet2, Hl2, Hn2, Hwf2'.
    pose proof (well_formed_setIsLoading false st2 Hwf2' (render_mounted _)) as (_ & Hp3 & _).
    apply Hlast; [exact Hp3 | | |].
    + rewrite Hn2. exact Hn1.
    + rewrite Hnet2. exact Hnet1.
    + rewrite Ht2. cbn [timers setPayments]. rewrite Ht1. exact Hnone.
Qed.

Lemma spaced_snoc (log : list (nat * AppData)) (x : nat * AppData) :
  spaced log -> (forall a, In a log -> fst a + DEBOUNCE_MS <= fst x) ->
  spaced (log ++ [x]).
Proof.
  intros Hlog Hx i j a b Hij Hi Hj.
  destruct (Nat.lt_ge_cases j (length log)) as [Hjn | Hjn].
  - rewrite lookup_app_l in Hi by lia. rewrite lookup_app_l in Hj by lia.
    exact (Hlog i j a b Hij Hi Hj).
  - rewrite lookup_app_r in Hj by lia.
    destruct (j - length log) as [| k] eqn:Hk; [| destruct k; discriminate].
    injection Hj as <-.
    rewrite lookup_app_l in Hi by lia.
    apply Hx. apply list_elem_of_In. eapply list_elem_of_lookup_2. exact Hi.
Qed.

Lemma paced_quiet (st : App) :
  timers st = [] -> saveDataCalls st = [] -> paced st.
Proof.
  intros Ht Hs. unfold paced. rewrite Ht, Hs.
  split; [intros t [] |]. split; [intros a [] |]. split; [intros t a [] |].
  intros i j a b _ Hi. rewrite lookup_nil in Hi. discriminate.
Qed.

Lemma paced_loading batching (st : App) :
  reachable batching st -> isLoading st = true -> paced st.
Proof.
  intros Hreach Hloading.
  destruct (loading_quiet batching st Hreach Hloading) as (Ht & Hs).
  apply paced_quiet; assumption.
Qed.

Lemma reachable_paced batching (st : App) : reachable batching st -> paced st.
Proof.
  induction 1 as [| e st Hreach IH]; [apply paced_quiet; reflexivity |].
  pose proof (reachable_consistent batching st Hreach) as Hst.
  pose proof Hst as [Hwf Hseen].
  pose proof IH as (Hcur & Hpast & Hahead & Hspaced).
  destruct e as [| data | m | | ms |]; cbn [step].
  - unfold mount. destruct (saveEffectDeps st) eqn:Hdeps;
      [exact IH |].
    assert (Hstep : reachable batching (render (call (FetchDataCall (now st)) st))).
    { pose proof (reachable_step batching Mount st Hreach) as Hnext.
      cbn [step] in Hnext. unfold mount in Hnext. rewrite Hdeps in Hnext. exact Hnext. }
    apply (paced_loading batching _ Hstep). apply render_loading.
    destruct Hwf as (_ & _ & _ & _ & Hnone). rewrite Hdeps in Hnone. apply Hnone.
  - destruct (mounted st) eqn:Hmounted; [| exact IH].
    destruct (isLoading st) eqn:Hloading; [| exact IH]. cbn [andb].
    destruct (loading_quiet batching st Hreach Hloading) as (Hnone & Hnosave).
    destruct (loadData_resolved_effect batching data st Hwf Hmounted Hloading Hnone)
      as (Hn & Hnet & Hl & Ht).
    unfold paced, saveDataCalls in *. rewrite Hn, Hnet, Hl.
    rewrite Hnosave.
    split; [intros t Hin; split; [reflexivity | apply (Ht t Hin)] |].
    split; [intros a [] |]. split; [intros t a _ [] |].
    intros i j a b _ Hi. rewrite lookup_nil in Hi. discriminate.
  - destruct (mounted st) eqn:Hmounted; [| exact IH].
    destruct (isLoading st) eqn:Hloading.
    + assert (Hstill : isLoading (render (apply_mutation m st)) = true).
      { apply render_loading. destruct m; exact Hloading. }
      assert (Hstep : reachable batching (render (apply_mutation m st))).
      { pose proof (reachable_step batching (Mutate m) st Hreach) as Hnext.
        cbn [step] in Hnext. rewrite Hmounted in Hnext. exact Hnext. }
      apply (paced_loading batching _ Hstep Hstill).
    + destruct (mutate_ready batching m st Hst Hloading) as (Ht & Hnet & Hn & Hl & Hdata).
      cbn [step] in Ht, Hnet, Hn, Hl, Hdata. rewrite Hmounted in Ht, Hnet, Hn, Hl, Hdata.
      unfold paced, saveDataCalls in *. rewrite Ht, Hnet, Hn, Hl.
      split; [| split; [exact Hpast | split; [| exact Hspaced]]].
      * intros t [<- | []]. unfold scheduled_save. cbn [jobsToSave paymentsToSave].
        rewrite <- Hdata. auto.
      * intros t a [<- | []] Ha. cbn [due scheduled_save].
        specialize (Hpast a Ha). lia.
  - destruct (mounted st) eqn:Hmounted; [| exact IH].
    rewrite (render_seen st (Hseen eq_refl)). exact IH.
  - unfold paced, saveDataCalls in *. cbn [timers network now advance isLoading jobs payments].
    rewrite omap_app.
    destruct Hwf as (_ & Hpending & _). unfold pending_ok in Hpending.
    destruct (timers st) as [| t [| t' rest]] eqn:Htimers; [| | contradiction].
    + cbn. rewrite app_nil_r.
      split; [intros ? [] |]. split; [| split; [intros ? ? [] | exact Hspaced]].
      intros a Ha. specialize (Hpast a Ha). lia.
    + cbn [List.filter].
      destruct (is_due (now st + ms) t) eqn:Hdue; cbn.
      * apply Nat.leb_le in Hdue.
        split; [intros ? [] |]. split; [| split; [intros ? ? [] |]].
        -- intros a Ha. apply in_app_or in Ha as [Ha | [<- | []]].
           ++ specialize (Hpast a Ha). lia.
           ++ exact Hdue.
        -- apply spaced_snoc; [exact Hspaced |].
           intros a Ha. apply (Hahead t a); [left; reflexivity | exact Ha].
      * rewrite app_nil_r.
        split; [exact Hcur |]. split; [| split; [exact Hahead | exact Hspaced]].
        intros a Ha. specialize (Hpast a Ha). lia.
  - destruct (mounted st) eqn:Hmounted; [| exact IH].
    rewrite render_seen by (apply (Hseen eq_refl)). exact IH.
Qed.

(** X16: in every reachable state a pending save carries the dataset the
    component holds now: no change of the dataset is left without a
    rescheduled save, and no save of an older dataset stays pending. *)
Theorem pending_save_is_current batching (st : App) (t : Timer) :
  reachable batching st -> In t (timers st) ->
  {| data_jobs := jobsToSave t; data_payments := paymentsToSave t |} = dataset st
  /\ isLoading st = false.
Proof.
  intros Hreach Hin.
  destruct (reachable_paced batching st Hreach) as (Hcur & _).
  destruct (Hcur t Hin) as (Hl & Hj & Hp).
  unfold dataset. rewrite Hj, Hp. auto.
Qed.

(** X17: in every execution any two [saveData] calls are at least a debounce
    window apart. *)
Theorem saves_are_spaced batching (st : App) :
  reachable batching st -> spaced (saveDataCalls st).
Proof. intros Hreach. apply (reachable_paced batching st Hreach). Qed.

Lemma pending_save_is_current_witness :
  let st := run true [Mount; LoadResolved sample_fetched; Advance 600;
                      Mutate (deleteJob_confirmed (js "job-1"))] initial in
  let t := {| timer_id := 2; due := 1100; jobsToSave := [];
              paymentsToSave := [sample_payment] |} in
  In t (timers st)
  /\ {| data_jobs := jobsToSave t; data_payments := paymentsToSave t |} = dataset st.
Proof.
  intros st t.
  assert (Hin : In t (timers st)) by (vm_compute; left; reflexivity).
  split; [exact Hin |].
  apply (pending_save_is_current true st t).
  - apply reachable_run, reachable_initial.
  - exact Hin.
Defined.

Lemma saves_are_spaced_witness :
  let st := run false [Mount; LoadResolved sample_fetched; Advance 600;
                       Mutate wipeAll_confirmed; Advance 100; Mutate (handleSaveJob None sample_job);
                       Advance 700] initial in
  List.map fst (saveDataCalls st) = [500; 1200] /\ spaced (saveDataCalls st).
Proof.
  intros st. split; [vm_compute; reflexivity |].
  apply (saves_are_spaced false st).
  apply reachable_run, reachable_initial.
Defined.

(** ** The handlers that change the dataset *)

(** X18: when the user confirms, deleting by identifier removes every job
    with that identifier and nothing else: the other jobs stay, in their
    order, the payments are not touched, and deleting again changes nothing.
    When the user declines, the handler makes no update and the dataset is
    as it was. *)
Theorem deleteJob_removes (id : jsstring) (d : AppData) :
  deleteJob false id = None
  /\ handle_data (deleteJob false id) d = d
  /\ let d' := handle_data (deleteJob true id) d in
     data_payments d' = data_payments d
     /\ (forall j, In j (data_jobs d') <-> In j (data_jobs d) /\ job_id j <> id)
     /\ sublist (data_jobs d') (data_jobs d)
     /\ handle_data (deleteJob true id) d' = d'.
Proof.
  split; [reflexivity |]. split; [reflexivity |].
  cbn zeta.
  cbn [handle_data deleteJob mutate_data deleteJob_confirmed data_jobs data_payments].
  split; [reflexivity |]. split; [| split].
  - intros j. rewrite List.filter_In. rewrite negb_true_iff.
    split; intros [Hin Hid]; (split; [exact Hin |]).
    + intros Heq. rewrite jsstring_eqb_true in Hid by exact Heq. discriminate.
    + apply jsstring_eqb_false. exact Hid.
  - induction (data_jobs d) as [| j jobs IH]; cbn [List.filter]; [constructor |].
    destruct (negb _); [apply sublist_skip | apply sublist_cons]; exact IH.
  - f_equal. induction (data_jobs d) as [| j jobs IH]; cbn [List.filter]; [reflexivity |].
    destruct (negb (jsstring_eqb (job_id j) id)) eqn:Hkeep; [| exact IH].
    cbn [List.filter]. rewrite Hkeep. f_equal. exact IH.
Qed.

(** X19: saving an edited job replaces, in place, the jobs that carry its
    identifier.  The list keeps its length; a job with another identifier is
    not touched; when no job carries the identifier the edit is dropped and
    the dataset is unchanged; when identifiers are unique and the job is at
    position [i], the result is the list with position [i] overwritten. *)
Theorem handleSaveJob_edit (editing job : Job) (d : AppData) :
  let d' := mutate_data (handleSaveJob (Some editing) job) d in
  data_payments d' = data_payments d
  /\ length (data_jobs d') = length (data_jobs d)
  /\ (forall i j, data_jobs d !! i = Some j -> job_id j <> job_id job ->
        data_jobs d' !! i = Some j)
  /\ ((forall j, In j (data_jobs d) -> job_id j <> job_id job) -> d' = d)
  /\ (forall i old,
        NoDup (List.map job_id (data_jobs d)) ->
        data_jobs d !! i = Some old -> job_id old = job_id job ->
        data_jobs d' = <[i := job]> (data_jobs d)).
Proof.
  cbn zeta. cbn [mutate_data handleSaveJob data_jobs data_payments].
  destruct d as [jobs pays]. cbn [data_jobs data_payments].
  split; [reflexivity |]. split; [apply length_map |]. split; [| split].
  - intros i j Hi Hid.
    change (List.map ?f jobs) with (f <$> jobs). rewrite list_lookup_fmap, Hi. cbn.
    rewrite jsstring_eqb_false by exact Hid. reflexivity.
  - intros Hfresh. f_equal.
    induction jobs as [| j jobs IH]; [reflexivity |]. cbn [List.map].
    rewrite jsstring_eqb_false by (apply Hfresh; left; reflexivity).
    f_equal. apply IH. intros j' Hin. apply Hfresh. right. exact Hin.
  - intros i. revert i.
    induction jobs as [| j jobs IH]; intros i old Hnodup Hi Hid; [discriminate |].
    cbn [List.map] in *. apply NoDup_cons in Hnodup as [Hout Hnodup].
    destruct i as [| i]; cbn in Hi.
    + injection Hi as ->. rewrite jsstring_eqb_true by exact Hid.
      cbn. f_equal.
      clear IH. induction jobs as [| j' jobs IH']; [reflexivity |]. cbn [List.map].
      rewrite jsstring_eqb_false.
      * f_equal. apply IH'.
        -- intros Hin. apply Hout. right. exact Hin.
        -- apply NoDup_cons in Hnodup as [_ Hnodup]. exact Hnodup.
      * intros Heq. apply Hout. rewrite Hid, <- Heq. left.
    + rewrite jsstring_eqb_false.
      * cbn. f_equal. apply (IH i old Hnodup Hi Hid).
      * intros Heq. apply Hout. rewrite Heq, <- Hid.
        apply list_elem_of_In, in_map, list_elem_of_In.
        eapply list_elem_of_lookup_2. exact Hi.
Qed.

(** X20: adding a job puts it first; deleting it again, the user confirming,
    gives back the dataset as it was, provided its identifier was not in
    use; when the user declines, the job stays. *)
Theorem add_then_delete (job : Job) (d : AppData) :
  (forall j, In j (data_jobs d) -> job_id j <> job_id job) ->
  let added := mutate_data (handleSaveJob None job) d in
  data_jobs added = job :: data_jobs d
  /\ handle_data (deleteJob true (job_id job)) added = d
  /\ handle_data (deleteJob false (job_id job)) added = added.
Proof.
  intros Hfresh added. split; [reflexivity |]. split; [| reflexivity].
  unfold added. destruct d as [jobs pays].
  cbn [handle_data deleteJob mutate_data handleSaveJob deleteJob_confirmed
       data_jobs data_payments List.filter] in *.
  rewrite jsstring_eqb_true by reflexivity. cbn [negb]. f_equal.
  induction jobs as [| j jobs IH]; [reflexivity |]. cbn [List.filter].
  rewrite jsstring_eqb_false by (apply Hfresh; left; reflexivity). cbn [negb].
  f_equal. apply IH. intros j' Hin. apply Hfresh. right. exact Hin.
Qed.

Lemma add_then_delete_witness :
  let d := {| data_jobs := []; data_payments := [sample_payment] |} in
  (forall j, In j (data_jobs d) -> job_id j <> job_id sample_job)
  /\ handle_data (deleteJob true (job_id sample_job))
       (mutate_data (handleSaveJob None sample_job) d)
     = d.
Proof.
  intros d.
  assert (Hfresh : forall j, In j (data_jobs d) -> job_id j <> job_id sample_job)
    by (intros j []).
  split; [exact Hfresh |].
  exact (proj1 (proj2 (add_then_delete sample_job d Hfresh))).
Defined.
